(** * The browser channel HTTP handler (package browserchannel, handler.go)

    A shallow embedding of the request dispatcher: the parameter parsers,
    the session map, the test and bind sub-handlers and the loop that
    removes closed sessions.  A handler runs against a [World] that holds
    the response being written, the session map, the Channel objects and
    the trace of the calls made to the rest of the package.  A request is
    run on its own: the goroutines of the other requests, of the timers
    and of the application do not interleave with it. *)

From stdpp Require Import gmap strings list fin_maps.
From Stdlib Require Import ZArith Ascii String Lia.

Open Scope Z_scope.

(** ** Go values *)

(** A Go [error] value; [None] in an [option error] is the nil error. *)
Definition error := string.

(** [len(s)] of a Go string: its number of bytes. *)
Definition len (s : string) : Z := Z.of_nat (String.length s).

(** The Go [int] is taken to be 64 bits wide. *)
Definition maxInt : Z := 2 ^ 63 - 1.
Definition minInt : Z := - 2 ^ 63.

Definition isDigit (c : ascii) : bool :=
  let n := nat_of_ascii c in ((48 <=? n) && (n <=? 57))%nat.

Definition digitVal (c : ascii) : Z := Z.of_nat (nat_of_ascii c) - 48.

(** The value of a run of decimal digits, [None] on any other byte. *)
Fixpoint parseDigits (acc : Z) (s : string) : option Z :=
  match s with
  | EmptyString => Some acc
  | String c s' =>
      if isDigit c then parseDigits (acc * 10 + digitVal c) s' else None
  end.

Definition errSyntax : error := "invalid syntax".
Definition errRange : error := "value out of range".

Definition maxUint64 : Z := 2 ^ 64 - 1.

(** What [strconv.ParseUint] returns, in base 10 and for 64 bits: a
    value, a syntax error or a range error. *)
Inductive parsedUint : Type :=
| uintValue (un : Z)
| uintSyntax
| uintRange.

(** The loop of [ParseUint] over the bytes, [n] the value so far: a byte
    that is no digit is a syntax error; a value that leaves the range is
    a range error, returned at once, before the bytes that follow are
    looked at. *)
Fixpoint parseUintFrom (n : Z) (s : string) : parsedUint :=
  match s with
  | EmptyString => uintValue n
  | String c s' =>
      if negb (isDigit c) then uintSyntax
      else if maxUint64 / 10 + 1 <=? n then uintRange
      else
        let n1 := n * 10 + digitVal c in
        if maxUint64 <? n1 then uintRange else parseUintFrom n1 s'
  end.

(** [strconv.Atoi], which is [ParseInt] in base 10 (its fast path for
    short strings returns the same): an optional sign, then [ParseUint]
    on the rest; the value and a nil error, 0 and a syntax error, or the
    nearest bound of [int] and a range error. *)
Definition Atoi (s : string) : Z * option error :=
  let '(neg, digits) :=
    match s with
    | String "-" r => (true, r)
    | String "+" r => (false, r)
    | _ => (false, s)
    end in
  match digits with
  | EmptyString => (0, Some errSyntax)
  | _ =>
      match parseUintFrom 0 digits with
      | uintSyntax => (0, Some errSyntax)
      | uintRange => (if neg then minInt else maxInt, Some errRange)
      | uintValue un =>
          let cutoff := 2 ^ 63 in
          if negb neg && (cutoff <=? un) then (maxInt, Some errRange)
          else if neg && (cutoff <? un) then (minInt, Some errRange)
          else (if neg then - un else un, None)
      end
  end.

Definition digitChar (d : Z) : ascii := ascii_of_nat (Z.to_nat (48 + d)).

(** Decimal digits of a non-negative number, most significant first. *)
Fixpoint formatDigits (fuel : nat) (n : Z) (acc : string) : string :=
  match fuel with
  | O => acc
  | S fuel' =>
      let acc' := String (digitChar (n mod 10)) acc in
      if n <? 10 then acc' else formatDigits fuel' (n / 10) acc'
  end.

(** [strconv.FormatInt(n, 10)]. *)
Definition FormatInt (n : Z) : string :=
  if n <? 0 then String "-" (formatDigits (S (Z.to_nat (Z.log2 (- n)))) (- n) "")
  else formatDigits (S (Z.to_nat (Z.log2 n))) n "".

(** [strings.HasSuffix]. *)
Definition HasSuffix (s suffix : string) : bool :=
  let n := String.length s in
  let k := String.length suffix in
  (k <=? n)%nat && String.eqb (substring (n - k) k s) suffix.

(** ** TYPE, AID and VER *)

(** Possible values for the query TYPE parameter. *)
Inductive queryType : Set :=
| queryUnset
| queryTerminate
| queryXmlHttp
| queryHtml
| queryTest.

Global Instance queryType_eq_dec : EqDecision queryType.
Proof. solve_decision. Defined.

Definition parseQueryType (s : string) : queryType :=
  if String.eqb s "html" then queryHtml
  else if String.eqb s "xmlhttp" then queryXmlHttp
  else if String.eqb s "terminate" then queryTerminate
  else if String.eqb s "test" then queryTest
  else queryUnset.

Definition parseAid (s : string) : Z * option error :=
  if len s =? 0 then (-1, None) else Atoi s.

Definition parseProtoVersion (s : string) : Z :=
  match Atoi s with
  | (_, Some _) => -1
  | (version, None) => version
  end.

(** The browser channel protocol version implemented by this library. *)
Definition SupportedProcolVersion : Z := 8.

(** The path for the channel connection and for the test connection. *)
Definition DefaultBindPath : string := "bind".
Definition DefaultTestPath : string := "test".

(** ** Session identifiers *)

(** Modelled from the spec: the type [SessionId] is declared outside
    handler.go.  A session id is 128 bits written in base 16. *)
Abbreviation SessionId := string (only parsing).

(** Modelled from the spec: [nullSessionId] is declared outside
    handler.go.  It is the distinct value, that of an absent or empty
    input, that stands for no session yet. *)
Definition nullSessionId : SessionId := "".

(** ** Requests and responses *)

(** [url.Values]: every key has the list of its values. *)
Abbreviation Values := (gmap string (list string)) (only parsing).

(** [url.Values.Get]: the first value of the key, or the empty string. *)
Definition Get (v : Values) (key : string) : string :=
  match v !! key with
  | Some (x :: _) => x
  | _ => ""%string
  end.

(** The parts of [*http.Request] that the handler reads.  [Form] is the
    form as [req.ParseForm()] leaves it. *)
Record Request : Type := {
  Method : string;
  Path : string;
  Origin : string;
  Body : string;
  Form : Values;
}.

(** [http.ResponseWriter].  [wrote] is the status line once it is written,
    with the header map as it was then; later changes to [header] no longer
    reach the client.  [flushed] has one entry for every call of [Flush],
    in the order of the calls: the body as it was at that call, which is
    what the client has of it from then on. *)
Record ResponseWriter : Type := {
  header : gmap string string;
  wrote : option (Z * gmap string string);
  body : string;
  flushed : list string;
}.

Definition emptyResponse : ResponseWriter :=
  {| header := ∅; wrote := None; body := ""; flushed := [] |}.

(** The calls of the [http.ResponseWriter] interface, and of
    [http.Flusher], which the response of the server implements.  The
    header keys the handler sets are in canonical form already. *)
Inductive RwOp : Type :=
| HeaderSet (key value : string)
| WriteHeader (code : Z)
| WriteString (s : string)
| Flush.

Definition writeHeader (code : Z) (r : ResponseWriter) : ResponseWriter :=
  let 'Build_ResponseWriter hd wr bd fl := r in
  match wr with
  | Some _ => r
  | None => Build_ResponseWriter hd (Some (code, hd)) bd fl
  end.

Definition appendBody (s : string) (r : ResponseWriter) : ResponseWriter :=
  let 'Build_ResponseWriter hd wr bd fl := r in
  Build_ResponseWriter hd wr (bd +:+ s) fl.

Definition recordFlush (r : ResponseWriter) : ResponseWriter :=
  let 'Build_ResponseWriter hd wr bd fl := r in
  Build_ResponseWriter hd wr bd (fl ++ [bd]).

(** A write or a flush before [WriteHeader] sends status 200 first. *)
Definition applyRwOp (r : ResponseWriter) (op : RwOp) : ResponseWriter :=
  match op with
  | HeaderSet k v =>
      let 'Build_ResponseWriter hd wr bd fl := r in
      Build_ResponseWriter (<[k := v]> hd) wr bd fl
  | WriteHeader code => writeHeader code r
  | WriteString s => appendBody s (writeHeader 200 r)
  | Flush => recordFlush (writeHeader 200 r)
  end.

Definition applyRwOps (r : ResponseWriter) (ops : list RwOp) : ResponseWriter :=
  fold_left applyRwOp ops r.

(** The status the client receives from a handler that returns: the one
    it has written, and 200 if it has written none (the server sends 200
    then).  A handler that panics is outside this reading: the server
    closes the connection, and the client may receive no status at all. *)
Definition statusCode (r : ResponseWriter) : Z :=
  match wrote r with
  | Some (code, _) => code
  | None => 200
  end.

(** The header the client receives. *)
Definition sentHeader (r : ResponseWriter) : gmap string string :=
  match wrote r with
  | Some (_, hd) => hd
  | None => header r
  end.

Definition headers : list (string * string) :=
  [ ("Cache-Control", "no-cache, no-store, max-age=0, must-revalidate");
    ("Expires", "Fri, 01 Jan 1990 00:00:00 GMT");
    ("X-Content-Type-Options", "nosniff");
    ("Transfer-Encoding", "chunked");
    ("Pragma", "no-cache") ]%string.

(** Modelled from the spec: [setHeaders] is declared outside handler.go;
    every response used as a back channel sets each header of the table. *)
Definition setHeaders (hs : list (string * string)) : list RwOp :=
  map (fun kv => HeaderSet (fst kv) (snd kv)) hs.

Definition setContentType (qtype : queryType) : RwOp :=
  if decide (qtype = queryHtml) then HeaderSet "Content-Type" "text/html"
  else HeaderSet "Content-Type" "text/plain".

(** ** Cross domain information *)

(** Contains the browser channel cross domain info for a single domain.
    The compiled regular expression is kept as the predicate it decides. *)
Module crossDomainInfo.
Record t : Type := mk {
  hostMatcher : string -> bool;
  domain : string;
  prefixes : list string;
}.
End crossDomainInfo.

(** ** Channels and back channels *)

Inductive channelState : Set :=
| channelInit
| channelReady
| channelClosed.

Global Instance channelState_eq_dec : EqDecision channelState.
Proof. solve_decision. Defined.

(** Modelled from the spec: the back channel type is declared outside
    handler.go.  A back channel has the owning sid, the response it writes
    to (here the response of the request that made it), the isHtml flag,
    the chunked flag, the domain and the request id. *)
Module backChannel.
Record t : Type := mk {
  sid : SessionId;
  isHtml : bool;
  domain : string;
  rid : string;
  chunked : bool;
}.
End backChannel.

(** Modelled from the spec: [newBackChannel] is declared outside
    handler.go.  The back channel it makes is not chunked: the one of the
    initial forward request, on which [setChunked] is not called, sends its
    payload at once. *)
Definition newBackChannel (sid : SessionId) (isHtml : bool) (domain rid : string)
  : backChannel.t :=
  backChannel.mk sid isHtml domain rid false.

(** Modelled from the spec: [setChunked] is declared outside handler.go.
    It informs the back channel whether the client accepts several batches
    on the request. *)
Definition setChunked (bc : backChannel.t) (chunked : bool) : backChannel.t :=
  backChannel.mk (backChannel.sid bc) (backChannel.isHtml bc)
    (backChannel.domain bc) (backChannel.rid bc) chunked.

(** An outgoing array of the queue: id, payload and byte size. *)
Record OutgoingArray : Type := {
  arrayId : Z;
  payload : string;
  byteSize : Z;
}.

(** A client-to-server map. *)
Abbreviation Map := (gmap string string) (only parsing).

(** Modelled from the spec: the Channel type is declared outside
    handler.go.  The attributes are those of the data model; [inbound] is
    the stream of the maps delivered to the application. *)
Record Channel : Type := {
  Sid : SessionId;
  clientVersion : string;
  state : channelState;
  queue : list OutgoingArray;
  nextArrayId : Z;
  lastReceivedOffset : Z;
  inbound : list Map;
  backChannelSlot : option backChannel.t;
  sessionTimer : bool;
  channelCors : option crossDomainInfo.t;
}.

(** Modelled from the spec: [newChannel] is declared outside handler.go.
    A channel is created in Init; its first outgoing array gets id 1, it
    has received no map yet, it has no back channel and no timer is
    armed. *)
Definition newChannel (cver : string) (sid : SessionId)
    (corsInfo : option crossDomainInfo.t) : Channel :=
  {| Sid := sid; clientVersion := cver; state := channelInit; queue := [];
     nextArrayId := 1; lastReceivedOffset := -1; inbound := [];
     backChannelSlot := None;
     sessionTimer := false; channelCors := corsInfo |}.

(** ** The rest of the package

    The functions that handler.go calls and that are declared in the other
    files of the package.  The handler is embedded over any implementation
    of them.  A method of [*Channel] maps the channel to the channel after
    the call; what a back channel writes goes through the
    [http.ResponseWriter] interface and is given as the calls it makes. *)
Class Package : Type := {
  (** the session id a SID parameter denotes *)
  parseSessionId : string -> SessionId * option error;
  (** the request body read as a form-urlencoded value set *)
  parseBody : string -> Values * option error;
  (** the offset and the maps of a forward channel body *)
  parseIncomingMaps : Values -> Z * list Map * option error;
  (** a session id from the bytes of the reader, and the bytes left *)
  generateSesionId : string -> SessionId * option error * string;
  (** the matcher of the origins a cross domain setting allows *)
  makeOriginMatcher : string -> string -> bool;
  armChannelTimeout : Channel -> Channel;
  acknowledgeArrays : Channel -> Z -> Channel;
  receiveMaps : Channel -> Z -> list Map -> Channel * option error;
  (** [json.Marshal(channel.getState())] *)
  marshalState : Channel -> string;
  (** the channel with the back channel installed, and what is written to
      the response at once *)
  setBackChannel : Channel -> backChannel.t -> Channel * list RwOp;
  (** what is written to the response until the back channel is done *)
  wait : backChannel.t -> list RwOp;
  terminate : Channel -> Channel;
  writeHtmlHead : list RwOp;
  writeHtmlDomain : string -> list RwOp;
  writeHtmlRpc : string -> list RwOp;
  writeHtmlPadding : list RwOp;
  writeHtmlDone : list RwOp;
}.

(** ** The world of a request *)

(** A [*Channel]: the address of a Channel object, or nil. *)
Abbreviation loc := positive (only parsing).
Abbreviation ChannelPtr := (option positive) (only parsing).

(** The calls a handler makes to the rest of the package and to the
    runtime, and its writes to the session map, in the order they are
    made.  A sleep is recorded with the response as it is when the handler
    goes to sleep. *)
Inductive Event : Type :=
| EvLog (msg : string)
| EvChannelsSet (sid : SessionId) (c : loc)
| EvChannelsDel (sid : SessionId) (deleted : bool)
| EvGenerateSesionId (sid : SessionId)
| EvNewChannel (c : loc) (cver : string) (sid : SessionId)
| EvArmChannelTimeout (c : loc)
| EvGo (c : loc)
| EvAcknowledgeArrays (c : loc) (aid : Z)
| EvReceiveMaps (c : loc) (offset : Z) (maps : list Map)
| EvGetState (c : loc)
| EvSetBackChannel (c : loc) (bc : backChannel.t)
| EvWait (bc : backChannel.t)
| EvTerminate (c : loc)
| EvSleep (seconds : Z) (response : ResponseWriter).

(** [rw] is the response of the request being served, [channels] the map
    of the handler's channelMap, [heap] the Channel objects, [trace] the
    calls made so far (oldest first), [rand] and [randPos] the values the
    source of math/rand produces and how many were drawn, [entropy] the
    bytes crypto/rand will deliver. *)
Record World : Type := {
  rw : ResponseWriter;
  channels : gmap SessionId ChannelPtr;
  heap : gmap loc Channel;
  trace : list Event;
  rand : nat -> nat;
  randPos : nat;
  entropy : string;
}.

(** A handler either returns or panics; the world is the one it leaves. *)
Inductive outcome (A : Type) : Type :=
| Returned (a : A)
| Panicked (msg : string).
Arguments Returned {A} a.
Arguments Panicked {A} msg.

Definition M (A : Type) : Type := World -> outcome A * World.

Global Instance M_ret : MRet M := fun A a w => (Returned a, w).

Global Instance M_bind : MBind M := fun A B f m w =>
  match m w with
  | (Returned a, w') => f a w'
  | (Panicked msg, w') => (Panicked msg, w')
  end.

Definition panic {A : Type} (msg : string) : M A := fun w => (Panicked msg, w).

(** ** Primitive steps *)

Definition setRw (r : ResponseWriter) (w : World) : World :=
  let 'Build_World _ m hp t rd rp e := w in Build_World r m hp t rd rp e.

Definition setChannels (m : gmap SessionId ChannelPtr) (w : World) : World :=
  let 'Build_World r _ hp t rd rp e := w in Build_World r m hp t rd rp e.

Definition setHeap (hp : gmap loc Channel) (w : World) : World :=
  let 'Build_World r m _ t rd rp e := w in Build_World r m hp t rd rp e.

Definition setTrace (t : list Event) (w : World) : World :=
  let 'Build_World r m hp _ rd rp e := w in Build_World r m hp t rd rp e.

Definition setRandPos (rp : nat) (w : World) : World :=
  let 'Build_World r m hp t rd _ e := w in Build_World r m hp t rd rp e.

Definition setEntropy (e : string) (w : World) : World :=
  let 'Build_World r m hp t rd rp _ := w in Build_World r m hp t rd rp e.

(** Calls on the response of the request. *)
Definition write (ops : list RwOp) : M unit :=
  fun w => (Returned tt, setRw (applyRwOps (rw w) ops) w).

Definition emit (e : Event) : M unit :=
  fun w => (Returned tt, setTrace (trace w ++ [e]) w).

Definition nl : string := String (ascii_of_nat 10) EmptyString.
Definition dquote : string := String (ascii_of_nat 34) EmptyString.

(** [log.Printf]: the line that is logged. *)
Definition logPrintf (line : string) : M unit := emit (EvLog line).

(** [time.Sleep], in seconds. *)
Definition sleep (seconds : Z) : M unit :=
  fun w => emit (EvSleep seconds (rw w)) w.

(** [rand.Intn]: panics unless [0 < n], else a value below [n]. *)
Definition Intn (n : Z) : M Z :=
  fun w =>
    if n <=? 0 then (Panicked "invalid argument to Intn", w)
    else (Returned (Z.of_nat (rand w (randPos w)) mod n),
          setRandPos (S (randPos w)) w).

(** [s[i]] on a slice: panics out of range. *)
Definition indexSlice (s : list string) (i : Z) : M string :=
  if i <? 0 then panic "index out of range"
  else match s !! Z.to_nat i with
       | Some x => mret x
       | None => panic "index out of range"
       end.

(** The Channel object a pointer designates. *)
Definition deref (c : ChannelPtr) : M (loc * Channel) :=
  fun w =>
    match c with
    | None => (Panicked "nil pointer dereference", w)
    | Some l =>
        match heap w !! l with
        | Some ch => (Returned (l, ch), w)
        | None => (Panicked "nil pointer dereference", w)
        end
    end.

Definition store (l : loc) (ch : Channel) : M unit :=
  fun w => (Returned tt, setHeap (<[l := ch]> (heap w)) w).

(** An address that is not in use. *)
Definition newLoc (hp : gmap loc Channel) : loc := fresh (dom hp).

(** A new Channel object. *)
Definition alloc (ch : Channel) : M loc :=
  fun w =>
    let l := newLoc (heap w) in
    (Returned l, setHeap (<[l := ch]> (heap w)) w).

(** ** The session map *)

Module channelMap.
Definition get (m : gmap SessionId ChannelPtr) (sid : SessionId) : ChannelPtr :=
  default None (m !! sid).

Definition set (m : gmap SessionId ChannelPtr) (sid : SessionId)
    (channel : ChannelPtr) : gmap SessionId ChannelPtr :=
  <[sid := channel]> m.

Definition del (m : gmap SessionId ChannelPtr) (sid : SessionId)
  : gmap SessionId ChannelPtr * bool :=
  let deleted := bool_decide (is_Some (m !! sid)) in
  (delete sid m, deleted).
End channelMap.

Definition channelsGet (sid : SessionId) : M ChannelPtr :=
  fun w => (Returned (channelMap.get (channels w) sid), w).

Definition channelsSet (sid : SessionId) (l : loc) : M unit :=
  fun w =>
    (Returned tt,
     setTrace (trace w ++ [EvChannelsSet sid l])
       (setChannels (channelMap.set (channels w) sid (Some l)) w)).

Definition channelsDel (sid : SessionId) : M bool :=
  fun w =>
    let '(m, deleted) := channelMap.del (channels w) sid in
    (Returned deleted,
     setTrace (trace w ++ [EvChannelsDel sid deleted]) (setChannels m w)).

(** ** Parameters *)

Module bindParams.
Record t : Type := mk {
  cver : string;
  sid : SessionId;
  qtype : queryType;
  domain : string;
  rid : string;
  aid : Z;
  chunked : bool;
  values : Values;
  method : string;
}.
End bindParams.

Module testParams.
Record t : Type := mk {
  ver : Z;
  init : bool;
  qtype : queryType;
  domain : string;
}.
End testParams.

Definition parseTestParams (req : Request) : testParams.t :=
  let version := parseProtoVersion (Get (Form req) "VER") in
  let qtype := parseQueryType (Get (Form req) "TYPE") in
  let domain := Get (Form req) "DOMAIN" in
  let init := String.eqb (Get (Form req) "MODE") "init" in
  testParams.mk version init qtype domain.

(** The browser channel http.Handler.  Its session map is the [channels]
    of the world; its ChannelHandler and the channel to the loop that
    removes closed sessions appear as the [EvGo] call and as the input of
    [removeClosedSession]. *)
Record Handler : Type := {
  corsInfo : option crossDomainInfo.t;
  prefix : string;
  bindPath : string;
  testPath : string;
}.

Definition NewHandler : Handler :=
  {| corsInfo := None; prefix := ""; bindPath := DefaultBindPath;
     testPath := DefaultTestPath |}.

Definition getHostPrefix (info : option crossDomainInfo.t) : M string :=
  match info with
  | Some i =>
      n ← Intn (Z.of_nat (List.length (crossDomainInfo.prefixes i)));
      indexSlice (crossDomainInfo.prefixes i) n
  | None => mret ""%string
  end.

(** ** The handler *)

Section handler.
Context `{Package}.

Definition parseBindParams (req : Request) (values : Values)
  : option bindParams.t * option error :=
  let cver := Get (Form req) "VER" in
  let qtype := parseQueryType (Get (Form req) "TYPE") in
  let domain := Get (Form req) "DOMAIN" in
  let rid := Get (Form req) "zx" in
  let chunked := String.eqb (Get (Form req) "CI") "0" in
  match parseSessionId (Get (Form req) "SID") with
  | (_, Some err) => (None, Some err)
  | (sid, None) =>
      match parseAid (Get (Form req) "AID") with
      | (_, Some err) => (None, Some err)
      | (aid, None) =>
          (Some (bindParams.mk cver sid qtype domain rid aid chunked values
                   (Method req)), None)
      end
  end.

(** *** Methods of a Channel, called through a pointer *)

Definition callArmChannelTimeout (channel : ChannelPtr) : M unit :=
  '(l, ch) ← deref channel;
  emit (EvArmChannelTimeout l);;
  store l (armChannelTimeout ch).

Definition callAcknowledgeArrays (channel : ChannelPtr) (aid : Z) : M unit :=
  '(l, ch) ← deref channel;
  emit (EvAcknowledgeArrays l aid);;
  store l (acknowledgeArrays ch aid).

Definition callReceiveMaps (channel : ChannelPtr) (offset : Z)
    (maps : list Map) : M (option error) :=
  '(l, ch) ← deref channel;
  emit (EvReceiveMaps l offset maps);;
  let '(ch', err) := receiveMaps ch offset maps in
  store l ch';;
  mret err.

Definition callGetState (channel : ChannelPtr) : M string :=
  '(l, ch) ← deref channel;
  emit (EvGetState l);;
  mret (marshalState ch).

Definition callSetBackChannel (channel : ChannelPtr) (bc : backChannel.t)
  : M unit :=
  '(l, ch) ← deref channel;
  emit (EvSetBackChannel l bc);;
  let '(ch', ops) := setBackChannel ch bc in
  store l ch';;
  write ops.

Definition callWait (bc : backChannel.t) : M unit :=
  emit (EvWait bc);;
  write (wait bc).

Definition callTerminate (channel : ChannelPtr) : M unit :=
  '(l, ch) ← deref channel;
  emit (EvTerminate l);;
  store l (terminate ch).

(** [sid, _ = generateSesionId(crand.Reader)]: the error is dropped. *)
Definition callGenerateSesionId : M SessionId :=
  fun w =>
    let '(sid, _, rest) := generateSesionId (entropy w) in
    (Returned sid, setTrace (trace w ++ [EvGenerateSesionId sid])
                     (setEntropy rest w)).

Definition callNewChannel (cver : string) (sid : SessionId)
    (info : option crossDomainInfo.t) : M loc :=
  l ← alloc (newChannel cver sid info);
  emit (EvNewChannel l cver sid);;
  mret l.

(** [go h.chanHandler(channel)] *)
Definition goChanHandler (l : loc) : M unit := emit (EvGo l).

(** *** Cross domain setting *)

Definition SetCrossDomainPrefix (h : Handler) (domain : string)
    (prefixes : list string) : Handler :=
  {| corsInfo := Some (crossDomainInfo.mk (makeOriginMatcher domain) domain prefixes);
     prefix := prefix h; bindPath := bindPath h; testPath := testPath h |}.

(** *** Removing closed sessions *)

(** Removes closed channels from the handler's channel map: one turn of
    the loop for every session id received before the channel of ids is
    closed. *)
Fixpoint removeClosedSession (gcChan : list SessionId) : M unit :=
  match gcChan with
  | [] => mret tt
  | sid :: rest =>
      logPrintf ("removing " +:+ sid +:+ " from session map" +:+ nl);;
      deleted ← channelsDel sid;
      (if negb deleted
       then logPrintf ("missing channel for " +:+ sid +:+ " in session map" +:+ nl)
       else mret tt);;
      removeClosedSession rest
  end.

(** *** Test requests *)

Definition handleTestRequest (h : Handler) (params : testParams.t) : M unit :=
  if negb (testParams.ver params =? SupportedProcolVersion) then
    write [WriteHeader 400; WriteString "Unsupported protocol version."]
  else if testParams.init params then
    write [WriteHeader 200];;
    hostPrefix ← getHostPrefix (corsInfo h);
    write [WriteString ("[" +:+ dquote +:+ hostPrefix +:+ dquote +:+ ","
                        +:+ dquote +:+ dquote +:+ "]")]
  else
    write [setContentType (testParams.qtype params)];;
    write (setHeaders headers);;
    write [WriteHeader 200];;
    (if decide (testParams.qtype params = queryHtml) then
       write writeHtmlHead;;
       write (writeHtmlDomain (testParams.domain params));;
       write (writeHtmlRpc "11111");;
       write writeHtmlPadding
     else
       write [WriteString "11111"]);;
    write [Flush];;
    sleep 2;;
    (if decide (testParams.qtype params = queryHtml) then
       write (writeHtmlRpc "2");;
       write writeHtmlDone
     else
       write [WriteString "2"]).

(** *** Bind requests *)

Definition handleBindPost (params : bindParams.t) (channel : ChannelPtr)
  : M unit :=
  let '(offset, maps, err) := parseIncomingMaps (bindParams.values params) in
  match err with
  | Some _ => write [WriteHeader 400]
  | None =>
      err ← callReceiveMaps channel offset maps;
      match err with
      | Some e =>
          '(_, ch) ← deref channel;
          logPrintf (Sid ch +:+ ": " +:+ e +:+ nl);;
          write [WriteHeader 500]
      | None =>
          '(_, ch) ← deref channel;
          if decide (state ch = channelInit) then
            write (setHeaders headers);;
            write [WriteHeader 200];;
            write [Flush];;
            let backChannel :=
              newBackChannel (Sid ch) false "" (bindParams.rid params) in
            callSetBackChannel channel backChannel;;
            callWait backChannel
          else
            b ← callGetState channel;
            write (setHeaders headers);;
            write [WriteHeader 200];;
            write [WriteString (FormatInt (len b) +:+ nl)];;
            write [WriteString b]
      end
  end.

Definition handleBindGet (params : bindParams.t) (channel : ChannelPtr)
  : M unit :=
  if decide (bindParams.qtype params = queryTerminate) then
    callTerminate channel
  else
    write [setContentType (bindParams.qtype params)];;
    write (setHeaders headers);;
    write [WriteHeader 200];;
    write [Flush];;
    let isHtml := bool_decide (bindParams.qtype params = queryHtml) in
    '(_, ch) ← deref channel;
    let bc := newBackChannel (Sid ch) isHtml (bindParams.domain params)
                (bindParams.rid params) in
    let bc := setChunked bc (bindParams.chunked params) in
    callSetBackChannel channel bc;;
    callWait bc.

(** The switch on the request method that ends [handleBindRequest]. *)
Definition dispatchMethod (params : bindParams.t) (channel : ChannelPtr)
  : M unit :=
  if String.eqb (bindParams.method params) "POST" then
    handleBindPost params channel
  else if String.eqb (bindParams.method params) "GET" then
    handleBindGet params channel
  else
    write [WriteHeader 400].

(** The lookup of the session that opens [handleBindRequest] (the block
    [if sid != nullSessionId]): [None] when the handler has answered and
    returned, else the channel found, nil when the client has specified no
    session id. *)
Definition lookupSession (sid : SessionId) : M (option ChannelPtr) :=
  if bool_decide (sid ≠ nullSessionId) then
    channel ← channelsGet sid;
    match channel with
    | None =>
        logPrintf ("failed to lookup session " +:+ sid +:+ nl);;
        write (setHeaders headers);;
        write [WriteHeader 400];;
        write [WriteString "Unknown SID"];;
        mret None
    | Some _ => mret (Some channel)
    end
  else mret (Some None).

(** The creation of a session in [handleBindRequest] (the block
    [if channel == nil]). *)
Definition createSession (h : Handler) (params : bindParams.t)
  : M ChannelPtr :=
  sid ← callGenerateSesionId;
  logPrintf ("creating session " +:+ sid +:+ nl);;
  l ← callNewChannel (bindParams.cver params) sid (corsInfo h);
  let channel := Some l in
  channelsSet sid l;;
  callArmChannelTimeout channel;;
  goChanHandler l;;
  mret channel.

(** The end of [handleBindRequest]: the acknowledgement of the arrays the
    client has received (the block [if params.aid != -1]), then the switch
    on the request method. *)
Definition acknowledgeAndDispatch (params : bindParams.t)
    (channel : ChannelPtr) : M unit :=
  (if negb (bindParams.aid params =? -1)
   then callAcknowledgeArrays channel (bindParams.aid params)
   else mret tt);;
  dispatchMethod params channel.

Definition handleBindRequest (h : Handler) (params : bindParams.t) : M unit :=
  let sid := bindParams.sid params in
  found ← lookupSession sid;
  match found with
  | None => mret tt
  | Some channel =>
      channel ← (match channel with
                 | None => createSession h params
                 | Some _ => mret channel
                 end);
      acknowledgeAndDispatch params channel
  end.

Definition ServeHTTP (h : Handler) (req : Request) : M unit :=
  let origin := Origin req in
  (if (0 <? len origin)
      && match corsInfo h with
         | Some info => crossDomainInfo.hostMatcher info origin
         | None => false
         end
   then write [HeaderSet "Access-Control-Allow-Origin" origin;
               HeaderSet "Access-Control-Allow-Credentials" "true"]
   else mret tt);;
  let '(values, err) := parseBody (Body req) in
  match err with
  | Some _ => write [WriteHeader 400]
  | None =>
      let path := Path req in
      if HasSuffix path (testPath h) then
        handleTestRequest h (parseTestParams req)
      else if HasSuffix path (bindPath h) then
        let '(params, err) := parseBindParams req values in
        match err with
        | Some _ => write [WriteHeader 400]
        | None =>
            match params with
            | Some p => handleBindRequest h p
            | None => panic "nil pointer dereference"
            end
        end
      else write [WriteHeader 404]
  end.

End handler.

(** ** An implementation of the rest of the package

    The session id parser and generator, the wire codec, the Channel
    methods and the HTML framing are declared outside handler.go.  The
    definitions below follow the data model and the component design of
    the specification; the handler is run against them on concrete
    requests. *)
Module SpecModel.

Definition isHexDigit (c : ascii) : bool :=
  let n := nat_of_ascii c in
  (((48 <=? n) && (n <=? 57)) || ((97 <=? n) && (n <=? 102)))%nat.

Fixpoint allHex (s : string) : bool :=
  match s with
  | EmptyString => true
  | String c s' => isHexDigit c && allHex s'
  end.

(** Modelled from the spec: [parseSessionId] is declared outside
    handler.go.  A SID is 32 hex characters or empty. *)
Definition parseSessionId (s : string) : SessionId * option error :=
  if len s =? 0 then (nullSessionId, None)
  else if (len s =? 32) && allHex s then (s, None)
  else (nullSessionId, Some "invalid session id"%string).

Definition hexChar (n : nat) : ascii :=
  if (n <? 10)%nat then ascii_of_nat (48 + n) else ascii_of_nat (87 + n).

Fixpoint hexEncode (s : string) : string :=
  match s with
  | EmptyString => EmptyString
  | String c s' =>
      let n := nat_of_ascii c in
      String (hexChar (n / 16)) (String (hexChar (n mod 16)) (hexEncode s'))
  end.

(** Modelled from the spec: [generateSesionId] is declared outside
    handler.go.  128 random bits, hex-encoded; an error when the reader
    runs short. *)
Definition generateSesionId (reader : string) : SessionId * option error * string :=
  if (String.length reader <? 16)%nat
  then (nullSessionId, Some "unexpected EOF"%string, EmptyString)
  else (hexEncode (substring 0 16 reader), None,
        substring 16 (String.length reader - 16) reader).

(** *** Wire codec: the form-urlencoded body *)

Fixpoint splitOn (sep : ascii) (s : string) (cur : string) : list string :=
  match s with
  | EmptyString => [cur]
  | String c s' =>
      if Ascii.eqb c sep then cur :: splitOn sep s' EmptyString
      else splitOn sep s' (cur +:+ String c EmptyString)
  end.

Definition hexVal (c : ascii) : option nat :=
  let n := nat_of_ascii c in
  if ((48 <=? n) && (n <=? 57))%nat then Some (n - 48)%nat
  else if ((97 <=? n) && (n <=? 102))%nat then Some (n - 87)%nat
  else if ((65 <=? n) && (n <=? 70))%nat then Some (n - 55)%nat
  else None.

(** Percent-decoding, with [+] for a space. *)
Fixpoint unescape (s : string) : option string :=
  match s with
  | EmptyString => Some EmptyString
  | String "%" (String a (String b s')) =>
      match hexVal a, hexVal b, unescape s' with
      | Some x, Some y, Some r => Some (String (ascii_of_nat (16 * x + y)) r)
      | _, _, _ => None
      end
  | String "%" _ => None
  | String "+" s' => String " " <$> unescape s'
  | String c s' => String c <$> unescape s'
  end.

(** The key and the value of one [key=value] pair. *)
Fixpoint cutAt (sep : ascii) (s : string) (key : string) : string * string :=
  match s with
  | EmptyString => (key, EmptyString)
  | String c s' =>
      if Ascii.eqb c sep then (key, s')
      else cutAt sep s' (key +:+ String c EmptyString)
  end.

Definition addValue (v : Values) (key value : string) : Values :=
  <[key := default [] (v !! key) ++ [value]]> v.

Fixpoint parsePairs (pairs : list string) (v : Values) : Values * option error :=
  match pairs with
  | [] => (v, None)
  | p :: rest =>
      if (String.length p =? 0)%nat then parsePairs rest v
      else
        let '(k, x) := cutAt "=" p EmptyString in
        match unescape k, unescape x with
        | Some k', Some x' => parsePairs rest (addValue v k' x')
        | _, _ => (v, Some "invalid URL escape"%string)
        end
  end.

(** Modelled from the spec: [parseBody] is declared outside handler.go.
    The request body is read as a form-urlencoded value set. *)
Definition parseBody (body : string) : Values * option error :=
  parsePairs (splitOn "&" body EmptyString) ∅.

(** *** Wire codec: the maps of a forward channel body *)

(** The index and the key of a [reqN_key] name. *)
Definition parseReqKey (name : string) : option (Z * string) :=
  if String.prefix "req" name then
    let '(digits, key) :=
      cutAt "_" (substring 3 (String.length name - 3) name) EmptyString in
    match digits with
    | EmptyString => None
    | _ => match parseDigits 0 digits with
           | Some n => Some (n, key)
           | None => None
           end
    end
  else None.

Definition addEntry (count : Z) (acc : list Map * option error)
    (entry : string * list string) : list Map * option error :=
  let '(maps, err) := acc in
  match err, parseReqKey (fst entry) with
  | Some _, _ => acc
  | None, None => acc
  | None, Some (n, key) =>
      if count <=? n then (maps, Some "map index out of range"%string)
      else match snd entry with
           | [value] =>
               (alter (fun m => <[key := value]> m) (Z.to_nat n) maps, None)
           | _ => (maps, Some "duplicate map entry"%string)
           end
  end.

(** Modelled from the spec: [parseIncomingMaps] is declared outside
    handler.go.  It yields the offset and the maps of the keys [ofs],
    [count] and [reqN_key], where [count] is the number of maps.  It
    fails if count is missing or not a non-negative integer, if ofs is
    missing, if a reqN_ index is out of range, or if two entries collide
    on the same index and key. *)
Definition parseIncomingMaps (values : Values) : Z * list Map * option error :=
  match values !! "count"%string, values !! "ofs"%string with
  | Some _, Some _ =>
      match Atoi (Get values "count"), Atoi (Get values "ofs") with
      | (count, None), (ofs, None) =>
          if count <? 0 then (0, [], Some "invalid count"%string)
          else
            let '(maps, err) :=
              fold_left (addEntry count) (map_to_list values)
                (replicate (Z.to_nat count) ∅, None) in
            match err with
            | Some e => (0, [], Some e)
            | None => (ofs, maps, None)
            end
      | _, _ => (0, [], Some "invalid count or ofs"%string)
      end
  | _, _ => (0, [], Some "missing count or ofs"%string)
  end.
(** *** Channel methods *)

(** Modelled from the spec: [makeOriginMatcher] is declared outside
    handler.go.  The matcher accepts the configured origin itself: the
    syntax of the origin expressions is outside the core. *)
Definition makeOriginMatcher (domain origin : string) : bool :=
  String.eqb domain origin.

(** Modelled from the spec: [armChannelTimeout] is declared outside
    handler.go.  It arms the session timer. *)
Definition armChannelTimeout (ch : Channel) : Channel :=
  {| Sid := Sid ch; clientVersion := clientVersion ch; state := state ch;
     queue := queue ch; nextArrayId := nextArrayId ch;
     lastReceivedOffset := lastReceivedOffset ch; inbound := inbound ch;
     backChannelSlot := backChannelSlot ch; sessionTimer := true;
     channelCors := channelCors ch |}.

(** Modelled from the spec: [acknowledgeArrays] is declared outside
    handler.go.  It removes every array with id at most [aid] from the
    queue. *)
Definition acknowledgeArrays (ch : Channel) (aid : Z) : Channel :=
  {| Sid := Sid ch; clientVersion := clientVersion ch; state := state ch;
     queue := filter (fun a => aid < arrayId a) (queue ch);
     nextArrayId := nextArrayId ch;
     lastReceivedOffset := lastReceivedOffset ch; inbound := inbound ch;
     backChannelSlot := backChannelSlot ch; sessionTimer := sessionTimer ch;
     channelCors := channelCors ch |}.

(** The maps of a request are numbered from [offset]; a map at or below
    lastReceivedOffset is a duplicate and is discarded, the next one is
    delivered and advances the counter, a later one is a gap. *)
Fixpoint deliver (last : Z) (delivered : list Map) (offset : Z)
    (maps : list Map) : option (Z * list Map) :=
  match maps with
  | [] => Some (last, delivered)
  | m :: rest =>
      if offset <=? last then deliver last delivered (offset + 1) rest
      else if offset =? last + 1
           then deliver offset (delivered ++ [m]) (offset + 1) rest
           else None
  end.

(** Modelled from the spec: [receiveMaps] is declared outside handler.go.
    It fails on a closed channel and on a gap in the offsets, and else
    delivers the maps that are not duplicates and advances
    lastReceivedOffset. *)
Definition receiveMaps (ch : Channel) (offset : Z) (maps : list Map)
  : Channel * option error :=
  if decide (state ch = channelClosed) then (ch, Some "channel closed"%string)
  else match deliver (lastReceivedOffset ch) (inbound ch) offset maps with
       | None => (ch, Some "gap in the map offsets"%string)
       | Some (last, delivered) =>
           ({| Sid := Sid ch; clientVersion := clientVersion ch;
               state := state ch; queue := queue ch;
               nextArrayId := nextArrayId ch; lastReceivedOffset := last;
               inbound := delivered; backChannelSlot := backChannelSlot ch;
               sessionTimer := sessionTimer ch;
               channelCors := channelCors ch |}, None)
       end.

Definition jsonBool (b : bool) : string := if b then "true" else "false".

Definition outstandingBytes (ch : Channel) : Z :=
  fold_right (fun a n => byteSize a + n) 0 (queue ch).

(** Modelled from the spec: [getState] is declared outside handler.go.
    The snapshot [{hasBackChannel, lastSentArrayId, outstandingBytes}], as
    JSON. *)
Definition marshalState (ch : Channel) : string :=
  "{" +:+ dquote +:+ "hasBackChannel" +:+ dquote +:+ ":"
    +:+ jsonBool (bool_decide (is_Some (backChannelSlot ch)))
    +:+ "," +:+ dquote +:+ "lastSentArrayId" +:+ dquote +:+ ":"
    +:+ FormatInt (nextArrayId ch - 1)
    +:+ "," +:+ dquote +:+ "outstandingBytes" +:+ dquote +:+ ":"
    +:+ FormatInt (outstandingBytes ch) +:+ "}".

Definition enqueue (ch : Channel) (payload : string) : Channel :=
  {| Sid := Sid ch; clientVersion := clientVersion ch; state := state ch;
     queue := queue ch ++ [ {| arrayId := nextArrayId ch; payload := payload;
                               byteSize := len payload |} ];
     nextArrayId := nextArrayId ch + 1;
     lastReceivedOffset := lastReceivedOffset ch; inbound := inbound ch;
     backChannelSlot := backChannelSlot ch; sessionTimer := sessionTimer ch;
     channelCors := channelCors ch |}.

(** The host prefix of the initial array: empty without cross domain
    information, else the first of the prefixes (the random choice is
    not followed here). *)
Definition configPrefix (ch : Channel) : string :=
  match channelCors ch with
  | Some info => default EmptyString (head (crossDomainInfo.prefixes info))
  | None => EmptyString
  end.

(** The initial array [['c', sid, hostPrefix, 8]]. *)
Definition configArray (ch : Channel) : string :=
  "[" +:+ dquote +:+ "c" +:+ dquote +:+ "," +:+ dquote +:+ Sid ch +:+ dquote
    +:+ "," +:+ dquote +:+ configPrefix ch +:+ dquote +:+ ","
    +:+ FormatInt SupportedProcolVersion +:+ "]".

Fixpoint joinWith (sep : string) (l : list string) : string :=
  match l with
  | [] => EmptyString
  | [x] => x
  | x :: rest => x +:+ sep +:+ joinWith sep rest
  end.

(** A batch: the JSON array of the [[arrayId, payload]] pairs. *)
Definition batch (q : list OutgoingArray) : string :=
  "[" +:+ joinWith "," (map (fun a => "[" +:+ FormatInt (arrayId a) +:+ ","
                                      +:+ payload a +:+ "]") q) +:+ "]".

Fixpoint escapeJs (s : string) : string :=
  match s with
  | EmptyString => EmptyString
  | String c s' =>
      if Ascii.eqb c (ascii_of_nat 34) || Ascii.eqb c (ascii_of_nat 92)
      then String (ascii_of_nat 92) (String c (escapeJs s'))
      else String c (escapeJs s')
  end.

(** Modelled from the spec: the writers of the HTML framing are declared
    outside handler.go.  A fixed head, a script that sets the domain when
    there is one, a script for every batch, 1024 spaces of padding, and a
    closing script. *)
Definition writeHtmlHead : list RwOp := [WriteString "<html><body>"].

Definition writeHtmlDomain (domain : string) : list RwOp :=
  if (String.length domain =? 0)%nat then []
  else [WriteString ("<script>try{document.domain=" +:+ dquote
                     +:+ escapeJs domain +:+ dquote +:+ "}catch(e){}</script>")].

Definition writeHtmlRpc (rpc : string) : list RwOp :=
  [WriteString ("<script>try{parent.m(" +:+ dquote +:+ escapeJs rpc +:+ dquote
                +:+ ")}catch(e){}</script>")].

Fixpoint spaces (n : nat) : string :=
  match n with
  | O => EmptyString
  | S n' => String " " (spaces n')
  end.

Definition writeHtmlPadding : list RwOp := [WriteString (spaces 1024)].

Definition writeHtmlDone : list RwOp :=
  [WriteString "<script>try{parent.d()}catch(e){}</script>"].

(** One framed batch on the response of the back channel, then a flush;
    nothing when the queue is empty. *)
Definition flushQueue (q : list OutgoingArray) (bc : backChannel.t) : list RwOp :=
  match q with
  | [] => []
  | _ =>
      (if backChannel.isHtml bc then writeHtmlRpc (batch q)
       else [WriteString (FormatInt (len (batch q)) +:+ nl +:+ batch q)])
      ++ [Flush]
  end.

(** Modelled from the spec: [setBackChannel] is declared outside
    handler.go.  It installs the back channel in place of any prior one,
    marks the channel Ready and emits the initial array if it was in Init,
    and flushes; a back channel that is not chunked is closed after the
    write.  Nothing happens on a closed channel. *)
Definition setBackChannel (ch : Channel) (bc : backChannel.t)
  : Channel * list RwOp :=
  if decide (state ch = channelClosed) then (ch, [])
  else
    let ch1 := if decide (state ch = channelInit)
               then enqueue ch (configArray ch) else ch in
    let ops :=
      (if backChannel.isHtml bc
       then writeHtmlHead ++ writeHtmlDomain (backChannel.domain bc)
            ++ writeHtmlPadding
       else []) ++ flushQueue (queue ch1) bc in
    let keep := backChannel.chunked bc || bool_decide (queue ch1 = []) in
    ({| Sid := Sid ch1; clientVersion := clientVersion ch1;
        state := channelReady; queue := queue ch1;
        nextArrayId := nextArrayId ch1;
        lastReceivedOffset := lastReceivedOffset ch1; inbound := inbound ch1;
        backChannelSlot := if keep then Some bc else None;
        sessionTimer := sessionTimer ch1; channelCors := channelCors ch1 |},
     ops).

(** Modelled from the spec: [wait] is declared outside handler.go.  Until
    the back channel is done nothing more is sent here; the HTML framing
    ends with the closing script. *)
Definition wait (bc : backChannel.t) : list RwOp :=
  if backChannel.isHtml bc then writeHtmlDone else [].

(** Modelled from the spec: [terminate] is declared outside handler.go.
    The channel is Closed: the back channel is dropped and the timers are
    cancelled. *)
Definition terminate (ch : Channel) : Channel :=
  {| Sid := Sid ch; clientVersion := clientVersion ch; state := channelClosed;
     queue := queue ch; nextArrayId := nextArrayId ch;
     lastReceivedOffset := lastReceivedOffset ch; inbound := inbound ch;
     backChannelSlot := None; sessionTimer := false;
     channelCors := channelCors ch |}.

Definition package : Package :=
  Build_Package parseSessionId parseBody parseIncomingMaps generateSesionId
    makeOriginMatcher armChannelTimeout acknowledgeArrays receiveMaps
    marshalState setBackChannel wait terminate writeHtmlHead writeHtmlDomain
    writeHtmlRpc writeHtmlPadding writeHtmlDone.
End SpecModel.

(** ** JSON arrays of strings

    What the client reads from the body of a test request: a JSON array
    whose elements are strings.  The decoder covers white space and the
    escapes of one character; a text with a [\u] escape is not decoded. *)

Definition isWhitespace (c : ascii) : bool :=
  let n := nat_of_ascii c in
  ((n =? 32) || (n =? 9) || (n =? 10) || (n =? 13))%nat.

Fixpoint skipWhitespace (s : string) : string :=
  match s with
  | String c r => if isWhitespace c then skipWhitespace r else s
  | EmptyString => s
  end.

(** The character an escape stands for. *)
Definition unescapeChar (e : ascii) : option ascii :=
  let n := nat_of_ascii e in
  if (n =? 34)%nat then Some e                      (* quotation mark *)
  else if (n =? 92)%nat then Some e                 (* reverse solidus *)
  else if (n =? 47)%nat then Some e                 (* solidus *)
  else if (n =? 98)%nat then Some (ascii_of_nat 8)  (* b *)
  else if (n =? 102)%nat then Some (ascii_of_nat 12) (* f *)
  else if (n =? 110)%nat then Some (ascii_of_nat 10) (* n *)
  else if (n =? 114)%nat then Some (ascii_of_nat 13) (* r *)
  else if (n =? 116)%nat then Some (ascii_of_nat 9)  (* t *)
  else None.

(** The value of the string whose opening quotation mark has been read,
    and the text after its closing quotation mark. *)
Fixpoint jsonStringBody (s : string) : option (string * string) :=
  match s with
  | EmptyString => None
  | String c r =>
      if (nat_of_ascii c =? 34)%nat then Some (EmptyString, r)
      else if (nat_of_ascii c =? 92)%nat then
        match r with
        | String e r' =>
            match unescapeChar e, jsonStringBody r' with
            | Some x, Some (v, rest) => Some (String x v, rest)
            | _, _ => None
            end
        | EmptyString => None
        end
      else if (nat_of_ascii c <? 32)%nat then None
      else match jsonStringBody r with
           | Some (v, rest) => Some (String c v, rest)
           | None => None
           end
  end.

(** The elements that follow an opening bracket or a comma, up to the
    closing bracket and the end of the text. *)
Fixpoint jsonElements (fuel : nat) (s : string) : option (list string) :=
  match fuel with
  | O => None
  | S fuel' =>
      match skipWhitespace s with
      | String c r =>
          if (nat_of_ascii c =? 34)%nat then
            match jsonStringBody r with
            | Some (v, rest) =>
                match skipWhitespace rest with
                | String "," rest' => cons v <$> jsonElements fuel' rest'
                | String "]" rest' =>
                    match skipWhitespace rest' with
                    | EmptyString => Some [v]
                    | _ => None
                    end
                | _ => None
                end
            | None => None
            end
          else None
      | EmptyString => None
      end
  end.

Definition decodeStringArray (s : string) : option (list string) :=
  match skipWhitespace s with
  | String "[" r =>
      match skipWhitespace r with
      | String "]" rest =>
          match skipWhitespace rest with
          | EmptyString => Some []
          | _ => None
          end
      | _ => jsonElements (String.length s) r
      end
  | _ => None
  end.

(** A string that stands for itself between quotation marks: it has no
    quotation mark, no reverse solidus and no control character. *)
Definition jsonPlainChar (c : ascii) : bool :=
  let n := nat_of_ascii c in
  negb (n =? 34)%nat && negb (n =? 92)%nat && negb (n <? 32)%nat.

Fixpoint jsonPlain (s : string) : bool :=
  match s with
  | EmptyString => true
  | String c r => jsonPlainChar c && jsonPlain r
  end.

(** * Vocabulary of the properties *)

Arguments newLoc : simpl never.
Arguments applyRwOps : simpl never.

(** Nothing has been sent on the response yet. *)
Definition unwritten (r : ResponseWriter) : Prop :=
  wrote r = None ∧ body r = ""%string.

(** [strings.Contains], as a proposition. *)
Definition Contains (s substr : string) : Prop :=
  ∃ pre post : string, s = pre +:+ substr +:+ post.

(** Every event a computation adds to the trace satisfies [P]. *)
Definition emitsOnly {A : Type} (P : Event → Prop) (m : M A) : Prop :=
  ∀ w : World, ∃ evs : list Event,
    trace (m w).2 = trace w ++ evs ∧ Forall P evs.

(** An acknowledgement of arrays. *)
Definition isAcknowledge (e : Event) : bool :=
  match e with
  | EvAcknowledgeArrays _ _ => true
  | _ => false
  end.

(** A call on a channel: its creation, a method of it, or the start of the
    application's handler on it. *)
Definition isChannelCall (e : Event) : bool :=
  match e with
  | EvNewChannel _ _ _ | EvArmChannelTimeout _ | EvGo _
  | EvAcknowledgeArrays _ _ | EvReceiveMaps _ _ _ | EvGetState _
  | EvSetBackChannel _ _ | EvWait _ | EvTerminate _ => true
  | _ => false
  end.

(** The number of events of a trace that satisfy [p]. *)
Fixpoint countEvents (p : Event → bool) (evs : list Event) : nat :=
  match evs with
  | [] => 0%nat
  | e :: rest => ((if p e then 1 else 0) + countEvents p rest)%nat
  end.

(** A call of [del] for [sid] that removed an entry. *)
Definition isRemoval (sid : SessionId) (e : Event) : bool :=
  match e with
  | EvChannelsDel s true => String.eqb s sid
  | _ => false
  end.

(** A call of [del] for [sid] that found no entry. *)
Definition isMissedRemoval (sid : SessionId) (e : Event) : bool :=
  match e with
  | EvChannelsDel s false => String.eqb s sid
  | _ => false
  end.

(** The events of one turn of [removeClosedSession] for [sid]. *)
Definition turnEvents (sid : SessionId) (deleted : bool) : list Event :=
  [EvLog ("removing " +:+ sid +:+ " from session map" +:+ nl);
   EvChannelsDel sid deleted]
  ++ (if deleted then []
      else [EvLog ("missing channel for " +:+ sid +:+ " in session map" +:+ nl)]).

(** The body of the reply to a test request in init mode. *)
Definition initBody (hostPrefix : string) : string :=
  "[" +:+ dquote +:+ hostPrefix +:+ dquote +:+ "," +:+ dquote +:+ dquote +:+ "]".

(** The handler answers with the bare status [code] and returns, without
    a call and without a change to the session map or to a Channel. *)
Definition rejects (code : Z) (res : outcome unit * World) (w : World) : Prop :=
  ∃ w' : World,
    res = (Returned tt, w')
    ∧ statusCode (rw w') = code
    ∧ body (rw w') = ""%string
    ∧ trace w' = trace w
    ∧ heap w' = heap w
    ∧ channels w' = channels w.

Section vocabulary.
Context `{Package}.

(** The world once the arrays up to [aid] are acknowledged on the channel
    at [l]. *)
Definition acknowledged (l : loc) (ch : Channel) (aid : Z) (w : World) : World :=
  setHeap (<[l := acknowledgeArrays ch aid]> (heap w))
    (setTrace (trace w ++ [EvAcknowledgeArrays l aid]) w).

(** The world once a session is created for a request with client
    version [cver]: a new Channel object, in the session map under the
    generated id, its timeout armed and the application's handler
    started on it. *)
Definition sessionCreated (h : Handler) (cver : string) (w : World) : World :=
  let '(sid, _, rest) := generateSesionId (entropy w) in
  let l := newLoc (heap w) in
  {| rw := rw w;
     channels := <[sid := Some l]> (channels w);
     heap := <[l := armChannelTimeout (newChannel cver sid (corsInfo h))]> (heap w);
     trace := trace w
       ++ [EvGenerateSesionId sid;
           EvLog ("creating session " +:+ sid +:+ nl);
           EvNewChannel l cver sid;
           EvChannelsSet sid l;
           EvArmChannelTimeout l;
           EvGo l];
     rand := rand w; randPos := randPos w; entropy := rest |}.

(** The channel of a bind request: the one the session map has for the
    session id of the request, or the one of the session created for a
    request without session id; [w0] is the world once it is resolved. *)
Definition resolves (h : Handler) (params : bindParams.t) (w : World)
    (l : loc) (w0 : World) : Prop :=
  (bindParams.sid params ≠ nullSessionId
   ∧ channels w !! bindParams.sid params = Some (Some l) ∧ w0 = w)
  ∨ (bindParams.sid params = nullSessionId
     ∧ l = newLoc (heap w)
     ∧ w0 = sessionCreated h (bindParams.cver params) w).

(** C2 as the specification states it, for the session id: the new
    channel is put in the session map under a fresh session id, one that
    is not the null id and that the map does not have yet, so that the
    map after the request is the map before it with one more entry. *)
Definition freshSessionStated (h : Handler) (params : bindParams.t)
    (w : World) : Prop :=
  bindParams.sid params = nullSessionId →
  ∃ (sid : SessionId) (l : loc),
    sid ≠ nullSessionId
    ∧ channels w !! sid = None
    ∧ heap w !! l = None
    ∧ channels (handleBindRequest h params w).2 = <[sid := Some l]> (channels w).

(** C4 as the specification states it, for the decoding of the maps: a
    forward channel request whose maps do not decode is answered 400
    with no channel operation performed. *)
Definition decodeFailureStated (h : Handler) (req : Request) (w : World) : Prop :=
  ∀ (values : Values) (offset : Z) (maps : list Map) (e : error),
    unwritten (rw w) →
    parseBody (Body req) = (values, None) →
    HasSuffix (Path req) (testPath h) = false →
    HasSuffix (Path req) (bindPath h) = true →
    Method req = "POST"%string →
    parseIncomingMaps values = (offset, maps, Some e) →
    ∃ (w' : World) (evs : list Event),
      ServeHTTP h req w = (Returned tt, w')
      ∧ statusCode (rw w') = 400
      ∧ trace w' = trace w ++ evs
      ∧ Forall (λ ev, isChannelCall ev = false) evs.

(** C7 as the specification states it, for the init mode: the reply is
    200 with a JSON array of exactly two strings, the second empty, the
    first empty or one of the configured prefixes. *)
Definition testInitStated (h : Handler) (req : Request) (w : World) : Prop :=
  unwritten (rw w) →
  parseProtoVersion (Get (Form req) "VER") = SupportedProcolVersion →
  Get (Form req) "MODE" = "init"%string →
  ∃ (w' : World) (p : string),
    handleTestRequest h (parseTestParams req) w = (Returned tt, w')
    ∧ statusCode (rw w') = 200
    ∧ decodeStringArray (body (rw w')) = Some [p; ""%string]
    ∧ (p = ""%string
       ∨ ∃ i : crossDomainInfo.t,
           corsInfo h = Some i ∧ p ∈ crossDomainInfo.prefixes i).

(** C10 as the specification states it, for the response: a bind request
    whose method is neither POST nor GET is answered 400 with no body. *)
Definition otherMethodStated (h : Handler) (params : bindParams.t)
    (w : World) : Prop :=
  unwritten (rw w) →
  bindParams.method params ≠ "POST"%string →
  bindParams.method params ≠ "GET"%string →
  ∃ w' : World,
    handleBindRequest h params w = (Returned tt, w')
    ∧ statusCode (rw w') = 400
    ∧ body (rw w') = ""%string.
End vocabulary.

(** * Requests of a session

    Concrete worlds and requests, run against the implementation of the
    rest of the package above. *)
Module Scenario.

Definition sidA : SessionId := "30313233343536373839616263646566".
Definition sidUnknown : SessionId := "deadbeefdeadbeefdeadbeefdeadbeef".

(** A handler just made, before any request. *)
Definition emptyWorld : World :=
  {| rw := emptyResponse; channels := ∅; heap := ∅; trace := [];
     rand := fun n => n; randPos := 0;
     entropy := "0123456789abcdef0123456789abcdef" |}.

(** The channel of session [sidA] once its first back channel was served. *)
Definition channelA : Channel :=
  {| Sid := sidA; clientVersion := "8"; state := channelReady; queue := [];
     nextArrayId := 2; lastReceivedOffset := -1; inbound := [];
     backChannelSlot := None; sessionTimer := true; channelCors := None |}.

Definition worldOf (ch : Channel) : World :=
  {| rw := emptyResponse; channels := {[ sidA := Some 1%positive ]};
     heap := {[ 1%positive := ch ]}; trace := [];
     rand := fun n => n; randPos := 0;
     entropy := "0123456789abcdef0123456789abcdef" |}.

Definition sessionWorld : World := worldOf channelA.

(** The form and the body of requests. *)
Definition form (kvs : list (string * string)) : Values :=
  list_to_map (map (fun kv => (fst kv, [snd kv])) kvs).

Definition request (method : string) (kvs : list (string * string))
    (body : string) : Request :=
  {| Method := method; Path := "/channel/bind"; Origin := "";
     Body := body; Form := form kvs |}.

Definition valuesOf (body : string) : Values := (SpecModel.parseBody body).1.

Definition paramsOf (method : string) (sid : SessionId) (qtype : queryType)
    (aid : Z) (chunked : bool) (body : string) : bindParams.t :=
  bindParams.mk "8" sid qtype "" "zx1" aid chunked (valuesOf body) method.

(** A handler with cross domain information. *)
Definition corsHandler (prefixes : list string) : Handler :=
  {| corsInfo := Some (crossDomainInfo.mk
                         (SpecModel.makeOriginMatcher "http://example.com")
                         "http://example.com" prefixes);
     prefix := ""; bindPath := DefaultBindPath; testPath := DefaultTestPath |}.

Definition testRequest (ver mode : string) : Request :=
  {| Method := "GET"; Path := "/channel/test"; Origin := ""; Body := "";
     Form := form [("VER", ver); ("MODE", mode)]%string |}.

(** Bind parameters and requests of the session. *)
Definition paramsUnknown : bindParams.t :=
  paramsOf "POST" sidUnknown queryUnset (-1) false "count=0&ofs=0".
Definition paramsNew : bindParams.t :=
  paramsOf "POST" nullSessionId queryUnset (-1) false "count=0&ofs=0".
Definition paramsMap : bindParams.t :=
  paramsOf "POST" sidA queryUnset 1 false "count=1&ofs=0&req0_x=hello".
Definition paramsPut : bindParams.t :=
  paramsOf "PUT" sidA queryUnset 1 false "".
Definition paramsPutUnknown : bindParams.t :=
  paramsOf "PUT" sidUnknown queryUnset (-1) false "".
Definition paramsBadMaps : bindParams.t :=
  paramsOf "POST" sidA queryUnset 1 false "count=x".
Definition paramsGap : bindParams.t :=
  paramsOf "POST" sidA queryUnset (-1) false "count=1&ofs=5&req0_x=hello".
Definition requestGet : Request :=
  request "GET" [("VER", "8"); ("SID", sidA); ("TYPE", "xmlhttp");
                 ("CI", "0"); ("AID", "1"); ("zx", "zx1")]%string "".
Definition paramsGet : bindParams.t :=
  bindParams.mk "8" sidA queryXmlHttp "" "zx1" 1 true (valuesOf "") "GET".
Definition requestBadBody : Request :=
  request "POST" [("VER", "8"); ("SID", sidA)]%string "count=%zz".
Definition requestBadSid : Request :=
  request "POST" [("VER", "8"); ("SID", "xyz")]%string "count=0&ofs=0".
Definition requestBadMaps : Request :=
  request "POST" [("VER", "8"); ("SID", sidA); ("AID", "1")]%string "count=x".
End Scenario.

(** * Vocabulary of the properties of the whole handler *)

(** The final world of a computation is related to the initial one. *)
Definition relates {A : Type} (R : World → World → Prop) (m : M A) : Prop :=
  ∀ w : World, R w (m w).2.

(** A relation that holds between worlds that differ neither in the
    session map nor in the Channel objects. *)
Class Frame (R : World → World → Prop) : Prop :=
  frame : ∀ w w' : World,
    channels w' = channels w → heap w' = heap w → R w w'.

(** A relation that the steps of a computation keep when they touch
    neither the session map nor any Channel object: a write on the
    response, an event, a random draw. *)
Class Atomic (R : World → World → Prop) : Prop := {
  atomic_write : ∀ ops : list RwOp, relates R (write ops);
  atomic_emit : ∀ e : Event, relates R (emit e);
  atomic_Intn : ∀ n : Z, relates R (Intn n)
}.

(** The session map is the same, and so is every Channel object but the
    one at [l]. *)
Definition sameOthers (l : loc) (w w' : World) : Prop :=
  channels w' = channels w
  ∧ ∀ l' : loc, l' ≠ l → heap w' !! l' = heap w !! l'.

(** No Channel object is lost, and an entry of the session map that is
    new designates a Channel object. *)
Definition grows (w w' : World) : Prop :=
  (∀ l : loc, is_Some (heap w !! l) → is_Some (heap w' !! l))
  ∧ (∀ (sid : SessionId) (l : loc),
       channels w' !! sid = Some (Some l) →
       channels w !! sid = Some (Some l) ∨ is_Some (heap w' !! l)).

(** Every pointer of the session map designates a Channel object. *)
Definition wellFormed (w : World) : Prop :=
  ∀ (sid : SessionId) (l : loc),
    channels w !! sid = Some (Some l) → is_Some (heap w !! l).

(** The computation returns, and the Channel object at [l] is still
    there, whenever it is there at the start. *)
Definition returnsLive {A : Type} (l : loc) (m : M A) : Prop :=
  ∀ w : World, is_Some (heap w !! l) →
    ∃ (a : A) (w' : World), m w = (Returned a, w') ∧ is_Some (heap w' !! l).

(** The request with another origin header. *)
Definition withOrigin (origin : string) (req : Request) : Request :=
  {| Method := Method req; Path := Path req; Origin := origin;
     Body := Body req; Form := Form req |}.

(** The test of [ServeHTTP] on the origin of a request. *)
Definition originAllowed (h : Handler) (req : Request) : bool :=
  (0 <? len (Origin req))
  && match corsInfo h with
     | Some info => crossDomainInfo.hostMatcher info (Origin req)
     | None => false
     end.

(** The status codes the test and bind handlers write. *)
Definition routeStatus (code : Z) : Prop :=
  code = 200 ∨ code = 400 ∨ code = 500.

(** One of these status codes is sent. *)
Definition statusSent (w : World) : Prop :=
  ∃ (code : Z) (hd : gmap string string),
    wrote (rw w) = Some (code, hd) ∧ routeStatus code.

(** No status has been sent yet, or one of the handler has. *)
Definition statusOpen (w : World) : Prop :=
  wrote (rw w) = None ∨ statusSent w.

(** From a world that satisfies [P] the computation leaves one that
    satisfies [Q], whether it returns or panics. *)
Definition triple {A : Type} (P : World → Prop) (m : M A) (Q : World → Prop)
  : Prop :=
  ∀ w : World, P w → Q (m w).2.

(** The headers [ServeHTTP] sets for an origin it allows. *)
Definition corsHeaders (origin : string) : list RwOp :=
  [HeaderSet "Access-Control-Allow-Origin" origin;
   HeaderSet "Access-Control-Allow-Credentials" "true"].

(** The world once [ServeHTTP] has dealt with the origin of the request. *)
Definition afterOrigin (h : Handler) (req : Request) (w : World) : World :=
  if originAllowed h req
  then setRw (applyRwOps (rw w) (corsHeaders (Origin req))) w
  else w.

Section test_vocabulary.
Context `{Package}.

(** The calls on the response of a test request of version 8 that is not
    in init mode: the content type, the headers of the table and the
    status; the first token; the second token. *)
Definition testFraming (params : testParams.t) : list RwOp :=
  [HeaderSet "Content-Type"
     (if bool_decide (testParams.qtype params = queryHtml)
      then "text/html" else "text/plain")]
  ++ setHeaders headers ++ [WriteHeader 200].

Definition firstToken (params : testParams.t) : list RwOp :=
  if bool_decide (testParams.qtype params = queryHtml)
  then writeHtmlHead ++ writeHtmlDomain (testParams.domain params)
       ++ writeHtmlRpc "11111" ++ writeHtmlPadding
  else [WriteString "11111"].

Definition secondToken (params : testParams.t) : list RwOp :=
  if bool_decide (testParams.qtype params = queryHtml)
  then writeHtmlRpc "2" ++ writeHtmlDone
  else [WriteString "2"].

(** The response [r] once the status and the first token are written and
    the response is flushed. *)
Definition firstPhase (params : testParams.t) (r : ResponseWriter)
  : ResponseWriter :=
  applyRwOps r (testFraming params ++ firstToken params ++ [Flush]).

(** The events of a test request on the response [r]: the pause between
    the two tokens of a request of version 8 that is not in init mode,
    made when the first phase is over. *)
Definition testEvents (params : testParams.t) (r : ResponseWriter)
  : list Event :=
  if (testParams.ver params =? SupportedProcolVersion)
     && negb (testParams.init params)
  then [EvSleep 2 (firstPhase params r)] else [].
End test_vocabulary.

(** A status that is sent stays sent. *)
Definition staysSent (w w' : World) : Prop := statusSent w → statusSent w'.

(** The response is as it was. *)
Definition sameResponse (w w' : World) : Prop := rw w' = rw w.

(** A call on the response that sends no status, or one of the statuses
    of the handler. *)
Definition goodOp (op : RwOp) : Prop :=
  match op with
  | WriteHeader code => routeStatus code
  | _ => True
  end.

(** A computation that leaves the response as it is. *)
Definition quiet {A : Type} (m : M A) : Prop := relates sameResponse m.

(** A request that [ServeHTTP] routes to no handler: its body parses and
    its path ends with neither the test path nor the bind path. *)
Definition unrouted (h : Handler) (req : Request) (parsed : option error) : bool :=
  bool_decide (parsed = None)
  && negb (HasSuffix (Path req) (testPath h))
  && negb (HasSuffix (Path req) (bindPath h)).

(** * Properties *)

(** ** Values *)

Example Atoi_42 : Atoi "42" = (42, None).
Proof. reflexivity. Qed.

Example Atoi_minus_one : Atoi "-1" = (-1, None).
Proof. reflexivity. Qed.

Example Atoi_not_a_number : Atoi "4x" = (0, Some errSyntax).
Proof. reflexivity. Qed.

Example Atoi_out_of_range : Atoi "9223372036854775808" = (maxInt, Some errRange).
Proof. reflexivity. Qed.

Example Atoi_below_range :
  Atoi "-9223372036854775809" = (minInt, Some errRange)
  ∧ Atoi "-9223372036854775808" = (minInt, None).
Proof. by split. Qed.

(** A byte that is no digit is a syntax error when the loop reaches it,
    and is not looked at once the value has left the range of 64 bits. *)
Example Atoi_bad_byte_after_digits :
  Atoi "9223372036854775808x" = (0, Some errSyntax)
  ∧ Atoi "99999999999999999999x" = (maxInt, Some errRange)
  ∧ Atoi "-99999999999999999999x" = (minInt, Some errRange).
Proof. by repeat split. Qed.

Example FormatInt_120 : FormatInt 120 = "120"%string.
Proof. reflexivity. Qed.

Example HasSuffix_bind : HasSuffix "/channel/bind" "bind" = true.
Proof. reflexivity. Qed.

Lemma digitChar_digit (d : Z) :
  0 <= d < 10 → isDigit (digitChar d) = true ∧ digitVal (digitChar d) = d.
Proof.
  intros Hd.
  assert (Hcases : d = 0 ∨ d = 1 ∨ d = 2 ∨ d = 3 ∨ d = 4 ∨ d = 5 ∨ d = 6
                   ∨ d = 7 ∨ d = 8 ∨ d = 9) by lia.
  repeat (destruct Hcases as [->|Hcases]; [by split|]). by subst.
Qed.

(** The digits [formatDigits] writes read back as the number. *)
Lemma parseDigits_formatDigits (fuel : nat) (n : Z) :
  0 <= n < 10 ^ Z.of_nat fuel →
  ∃ p : Z, ∀ (k : Z) (acc : string),
    parseDigits k (formatDigits fuel n acc) = parseDigits (k * p + n) acc.
Proof.
  revert n. induction fuel as [|fuel IH]; intros n Hn.
  - simpl in Hn. exists 1. intros k acc. simpl.
    replace n with 0 by lia. by rewrite Z.mul_1_r, Z.add_0_r.
  - simpl formatDigits. destruct (Z.ltb_spec n 10) as [Hsmall|Hbig].
    + exists 10. intros k acc. simpl.
      rewrite Z.mod_small by lia.
      destruct (digitChar_digit n) as [-> ->]; [lia|]. done.
    + assert (Hdiv : 0 <= n / 10 < 10 ^ Z.of_nat fuel).
      { split; [apply Z.div_pos; lia|].
        apply Z.div_lt_upper_bound; [lia|].
        rewrite Nat2Z.inj_succ, Z.pow_succ_r in Hn by lia. lia. }
      destruct (IH _ Hdiv) as [p Hp].
      exists (p * 10). intros k acc. rewrite Hp. simpl.
      destruct (digitChar_digit (n mod 10)) as [-> ->].
      { apply Z.mod_pos_bound. lia. }
      f_equal. pose proof (Z.div_mod n 10). lia.
Qed.

(** [FormatInt] writes the decimal digits of a number that is not
    negative: [strconv.Atoi] reads the number back. *)
Lemma parseDigits_FormatInt (n : Z) :
  0 <= n → parseDigits 0 (FormatInt n) = Some n.
Proof.
  intros Hn. unfold FormatInt.
  destruct (Z.ltb_spec n 0) as [Hneg|_]; [lia|].
  destruct (parseDigits_formatDigits (S (Z.to_nat (Z.log2 n))) n) as [p Hp].
  { split; [done|].
    rewrite Nat2Z.inj_succ, Z2Nat.id by apply Z.log2_nonneg.
    destruct (Z.eq_dec n 0) as [->|Hnz]; [done|].
    apply Z.lt_le_trans with (2 ^ Z.succ (Z.log2 n)).
    - apply Z.log2_spec. lia.
    - apply Z.pow_le_mono_l. pose proof (Z.log2_nonneg n). lia. }
  by rewrite Hp.
Qed.

(** ** Responses *)

Lemma wrote_applyRwOp (r : ResponseWriter) (op : RwOp) (x : Z * gmap string string) :
  wrote r = Some x → wrote (applyRwOp r op) = Some x.
Proof.
  destruct r as [hd wr bd fl]. simpl. intros ->. by destruct op.
Qed.

(** The status line is written once: no later call changes it. *)
Lemma wrote_applyRwOps (ops : list RwOp) (r : ResponseWriter)
    (x : Z * gmap string string) :
  wrote r = Some x → wrote (applyRwOps r ops) = Some x.
Proof.
  unfold applyRwOps. revert r.
  induction ops as [|op ops IH]; intros r Hw; simpl; [done|].
  apply IH. by apply wrote_applyRwOp.
Qed.

Lemma applyRwOps_app (r : ResponseWriter) (ops1 ops2 : list RwOp) :
  applyRwOps r (ops1 ++ ops2) = applyRwOps (applyRwOps r ops1) ops2.
Proof. unfold applyRwOps. apply fold_left_app. Qed.

Lemma applyRwOps_cons (r : ResponseWriter) (op : RwOp) (ops : list RwOp) :
  applyRwOps r (op :: ops) = applyRwOps (applyRwOp r op) ops.
Proof. reflexivity. Qed.

Lemma statusCode_applyRwOps (ops : list RwOp) (r : ResponseWriter) (code : Z)
    (hd : gmap string string) :
  wrote r = Some (code, hd) → statusCode (applyRwOps r ops) = code.
Proof.
  intros Hw. unfold statusCode. by rewrite (wrote_applyRwOps ops r _ Hw).
Qed.

(** Setting the headers of the table sends nothing. *)
Lemma wrote_setHeaders (r : ResponseWriter) (hs : list (string * string)) :
  wrote (applyRwOps r (setHeaders hs)) = wrote r.
Proof.
  revert r. induction hs as [|kv hs IH]; intros r; [done|].
  change (setHeaders (kv :: hs)) with (HeaderSet kv.1 kv.2 :: setHeaders hs).
  rewrite applyRwOps_cons, IH. by destruct r.
Qed.

Lemma body_setHeaders (r : ResponseWriter) (hs : list (string * string)) :
  body (applyRwOps r (setHeaders hs)) = body r.
Proof.
  revert r. induction hs as [|kv hs IH]; intros r; [done|].
  change (setHeaders (kv :: hs)) with (HeaderSet kv.1 kv.2 :: setHeaders hs).
  rewrite applyRwOps_cons, IH. by destruct r.
Qed.

Lemma header_setHeaders_other (r : ResponseWriter)
    (hs : list (string * string)) (k : string) :
  k ∉ map fst hs →
  header (applyRwOps r (setHeaders hs)) !! k = header r !! k.
Proof.
  revert r. induction hs as [|[k2 v2] hs IH]; intros r Hnot; [done|].
  simpl in Hnot. apply not_elem_of_cons in Hnot as [Hne Hnot].
  change (setHeaders ((k2, v2) :: hs)) with (HeaderSet k2 v2 :: setHeaders hs).
  rewrite applyRwOps_cons, IH by done.
  destruct r. simpl. by rewrite lookup_insert_ne.
Qed.

(** Every header of the table is set to its value. *)
Lemma header_setHeaders (r : ResponseWriter) (hs : list (string * string))
    (k v : string) :
  NoDup (map fst hs) → (k, v) ∈ hs →
  header (applyRwOps r (setHeaders hs)) !! k = Some v.
Proof.
  revert r. induction hs as [|[k' v'] hs IH]; intros r Hnd Hin.
  - by apply elem_of_nil in Hin.
  - simpl in Hnd. apply NoDup_cons in Hnd as [Hk' Hnd].
    change (setHeaders ((k', v') :: hs)) with (HeaderSet k' v' :: setHeaders hs).
    rewrite applyRwOps_cons.
    apply elem_of_cons in Hin as [Heq|Hin].
    + inversion Heq; subst k' v'. clear Heq.
      rewrite header_setHeaders_other by done.
      destruct r. simpl. by rewrite lookup_insert_eq.
    + by apply IH.
Qed.

(** ** Traces *)

Lemma emitsOnly_silent {A : Type} (P : Event → Prop) (m : M A) :
  (∀ w, trace (m w).2 = trace w) → emitsOnly P m.
Proof.
  intros Hm w. exists []. rewrite Hm, app_nil_r. by split.
Qed.

Lemma emitsOnly_mret {A : Type} (P : Event → Prop) (a : A) :
  emitsOnly P (mret a).
Proof. by apply emitsOnly_silent. Qed.

Lemma emitsOnly_panic {A : Type} (P : Event → Prop) (msg : string) :
  emitsOnly P (@panic A msg).
Proof. by apply emitsOnly_silent. Qed.

Lemma emitsOnly_bind {A B : Type} (P : Event → Prop) (m : M A) (f : A → M B) :
  emitsOnly P m → (∀ a, emitsOnly P (f a)) → emitsOnly P (m ≫= f).
Proof.
  intros Hm Hf w. unfold mbind, M_bind.
  destruct (Hm w) as (evs1 & Ht1 & HP1).
  destruct (m w) as [[a|msg] w1]; simpl in *.
  - destruct (Hf a w1) as (evs2 & Ht2 & HP2).
    exists (evs1 ++ evs2). rewrite Ht2, Ht1, app_assoc. split; [done|].
    by apply Forall_app.
  - by exists evs1.
Qed.

Lemma emitsOnly_emit (P : Event → Prop) (e : Event) :
  P e → emitsOnly P (emit e).
Proof.
  intros He w. exists [e]. split; [by destruct w|]. by constructor.
Qed.

Lemma emitsOnly_write (P : Event → Prop) (ops : list RwOp) :
  emitsOnly P (write ops).
Proof. apply emitsOnly_silent. by intros []. Qed.

Lemma emitsOnly_store (P : Event → Prop) (l : loc) (ch : Channel) :
  emitsOnly P (store l ch).
Proof. apply emitsOnly_silent. by intros []. Qed.

Lemma emitsOnly_deref (P : Event → Prop) (c : ChannelPtr) :
  emitsOnly P (deref c).
Proof.
  apply emitsOnly_silent. intros w. unfold deref.
  destruct c as [l|]; [|done]. by destruct (heap w !! l).
Qed.

Lemma emitsOnly_channelsGet (P : Event → Prop) (sid : SessionId) :
  emitsOnly P (channelsGet sid).
Proof. by apply emitsOnly_silent. Qed.

Create HintDb emits.
#[global] Hint Resolve emitsOnly_mret emitsOnly_panic emitsOnly_write
  emitsOnly_store emitsOnly_deref emitsOnly_channelsGet : emits.

(** Splits a computation at its binds and case distinctions. *)
Ltac emits_step :=
  match goal with
  | |- emitsOnly _ (_ ≫= _) => apply emitsOnly_bind; [|intros ?]
  | |- emitsOnly _ (emit _) => apply emitsOnly_emit; try done
  | |- emitsOnly _ (logPrintf _) => apply emitsOnly_emit; try done
  | |- emitsOnly _ (let '(_, _) := ?x in _) => destruct x
  | |- emitsOnly _ (match ?x with _ => _ end) => destruct x
  | |- emitsOnly _ (if ?x then _ else _) => destruct x
  | |- emitsOnly _ _ => solve [auto with emits]
  end.

Ltac open_world w :=
  destruct w as [[hd wr bd fl] chs hp tr rd rp en];
  unfold unwritten in *; simpl in *.

(** Joins the successive writes on a response into one list of calls. *)
Ltac join_writes := rewrite <- ?applyRwOps_app, <- ?app_assoc; simpl.

(** The status line of a response on which a status was written, whatever
    was written after it. *)
Ltac status_written :=
  unfold statusCode, sentHeader;
  erewrite wrote_applyRwOps
    by (repeat (first [reflexivity | eapply wrote_applyRwOps]));
  reflexivity.

Section properties.
Context `{Package}.

(** The method dispatch acknowledges nothing. *)
Lemma dispatchMethod_no_acknowledge (params : bindParams.t) (c : ChannelPtr) :
  emitsOnly (λ e, isAcknowledge e = false) (dispatchMethod params c).
Proof.
  unfold dispatchMethod, handleBindPost, handleBindGet, callReceiveMaps,
    callGetState, callSetBackChannel, callWait, callTerminate.
  repeat emits_step.
Qed.

Lemma acknowledged_fields (l : loc) (ch : Channel) (aid : Z) (w : World) :
  trace (acknowledged l ch aid w) = trace w ++ [EvAcknowledgeArrays l aid]
  ∧ heap (acknowledged l ch aid w) = <[l := acknowledgeArrays ch aid]> (heap w)
  ∧ rw (acknowledged l ch aid w) = rw w
  ∧ channels (acknowledged l ch aid w) = channels w.
Proof. by destruct w. Qed.

Lemma fresh_loc_unused (w : World) : heap w !! newLoc (heap w) = None.
Proof. unfold newLoc. apply not_elem_of_dom, is_fresh. Qed.

Lemma createSession_run (h : Handler) (params : bindParams.t) (w : World) :
  createSession h params w
  = (Returned (Some (newLoc (heap w))),
     sessionCreated h (bindParams.cver params) w).
Proof.
  open_world w.
  unfold createSession, sessionCreated, callGenerateSesionId, callNewChannel,
    callArmChannelTimeout, goChanHandler, channelsSet, alloc, deref, store,
    emit, mbind, M_bind, mret, M_ret. simpl.
  destruct (generateSesionId en) as [[sid err] rest]. simpl.
  rewrite lookup_insert_eq. simpl. rewrite insert_insert_eq.
  unfold channelMap.set. by rewrite <- !app_assoc.
Qed.

Lemma acknowledgeAndDispatch_run (params : bindParams.t) (l : loc)
    (ch : Channel) (w : World) :
  heap w !! l = Some ch →
  acknowledgeAndDispatch params (Some l) w
  = dispatchMethod params (Some l)
      (if decide (bindParams.aid params = -1) then w
       else acknowledged l ch (bindParams.aid params) w).
Proof.
  intros Hl. unfold acknowledgeAndDispatch.
  destruct (decide (bindParams.aid params = -1)) as [->|Hne].
  - reflexivity.
  - apply Z.eqb_neq in Hne. rewrite Hne. simpl.
    unfold callAcknowledgeArrays, deref, emit, store, mbind, M_bind.
    rewrite Hl. by destruct w.
Qed.

Lemma handleBindRequest_found (h : Handler) (params : bindParams.t) (l : loc)
    (w : World) :
  bindParams.sid params ≠ nullSessionId →
  channels w !! bindParams.sid params = Some (Some l) →
  handleBindRequest h params w = acknowledgeAndDispatch params (Some l) w.
Proof.
  intros Hsid Hget. unfold handleBindRequest, lookupSession.
  rewrite bool_decide_true by done.
  unfold mbind, M_bind, channelsGet, channelMap.get. by rewrite Hget.
Qed.

Lemma handleBindRequest_absent (h : Handler) (params : bindParams.t) (w : World) :
  bindParams.sid params = nullSessionId →
  handleBindRequest h params w
  = acknowledgeAndDispatch params (Some (newLoc (heap w)))
      (sessionCreated h (bindParams.cver params) w).
Proof.
  intros Hsid. unfold handleBindRequest, lookupSession.
  rewrite bool_decide_false by (intros Hne; by apply Hne).
  unfold mbind at 1 2. unfold M_bind at 1 2. simpl.
  by rewrite createSession_run.
Qed.

(** The lookup of a session id that the session map does not have. *)
Lemma handleBindRequest_unknown (h : Handler) (params : bindParams.t) (w : World) :
  bindParams.sid params ≠ nullSessionId →
  channels w !! bindParams.sid params = None →
  handleBindRequest h params w
  = (Returned tt,
     setRw (applyRwOps (rw w)
              (setHeaders headers ++ [WriteHeader 400; WriteString "Unknown SID"]))
       (setTrace
          (trace w ++ [EvLog ("failed to lookup session "
                              +:+ bindParams.sid params +:+ nl)]) w)).
Proof.
  intros Hsid Hget. destruct w as [r chs hp tr rd rp en]. simpl in *.
  unfold handleBindRequest, lookupSession.
  rewrite bool_decide_true by done.
  unfold mbind, M_bind, channelsGet, channelMap.get. simpl. rewrite Hget. simpl.
  by join_writes.
Qed.

(** C1.  For every bind request whose session id is set (not the null
    one) and is not in the session map, the handler answers with status
    400 and a body that contains [Unknown SID] (it is exactly that), and
    returns after one log line: no acknowledgement, no delivery of maps
    and no back channel on any channel, the session map and the Channel
    objects are unchanged. *)
Theorem unknown_sid_rejected (h : Handler) (params : bindParams.t) (w : World) :
  bindParams.sid params ≠ nullSessionId →
  channels w !! bindParams.sid params = None →
  unwritten (rw w) →
  ∃ w' : World,
    handleBindRequest h params w = (Returned tt, w')
    ∧ statusCode (rw w') = 400
    ∧ body (rw w') = "Unknown SID"%string
    ∧ Contains (body (rw w')) "Unknown SID"
    ∧ trace w' = trace w
        ++ [EvLog ("failed to lookup session " +:+ bindParams.sid params +:+ nl)]
    ∧ channels w' = channels w
    ∧ heap w' = heap w.
Proof.
  intros Hsid Hget Hun. rewrite handleBindRequest_unknown by done.
  open_world w. destruct Hun as [-> ->].
  eexists. split; [reflexivity|]. simpl.
  repeat split.
  by exists ""%string, ""%string.
Qed.

(** C2, amended.  For every bind request with the null session id, the
    handler takes as session id what [generateSesionId] returns, whatever
    error comes with it and whether or not the session map has that id,
    makes a new Channel (in the Init state, with that id) at an unused
    address, puts it in the session map under that id (the map is the
    old one with that entry set: an entry the map had under the id is
    replaced), arms its timeout and starts the application's
    ChannelHandler on it in a new goroutine, in this order; only then
    come the acknowledgement and the dispatch on the request method,
    which run in the world [sessionCreated] describes. *)
Theorem absent_sid_creates_session (h : Handler) (params : bindParams.t)
    (w : World) :
  bindParams.sid params = nullSessionId →
  let sid := (generateSesionId (entropy w)).1.1 in
  let l := newLoc (heap w) in
  let w1 := sessionCreated h (bindParams.cver params) w in
  handleBindRequest h params w = acknowledgeAndDispatch params (Some l) w1
  ∧ heap w !! l = None
  ∧ state (newChannel (bindParams.cver params) sid (corsInfo h)) = channelInit
  ∧ Sid (newChannel (bindParams.cver params) sid (corsInfo h)) = sid
  ∧ heap w1 !! l
    = Some (armChannelTimeout (newChannel (bindParams.cver params) sid (corsInfo h)))
  ∧ channels w1 !! sid = Some (Some l)
  ∧ trace w1 = trace w
      ++ [EvGenerateSesionId sid;
          EvLog ("creating session " +:+ sid +:+ nl);
          EvNewChannel l (bindParams.cver params) sid;
          EvChannelsSet sid l;
          EvArmChannelTimeout l;
          EvGo l]
  ∧ rw w1 = rw w
  ∧ channels w1 = <[sid := Some l]> (channels w)
  ∧ heap w1
    = <[l := armChannelTimeout
               (newChannel (bindParams.cver params) sid (corsInfo h))]> (heap w)
  ∧ entropy w1 = (generateSesionId (entropy w)).2.
Proof.
  intros Hsid sid l w1. split; [by apply handleBindRequest_absent|].
  split; [apply fresh_loc_unused|].
  subst sid l w1. unfold sessionCreated.
  destruct (generateSesionId (entropy w)) as [[sid err] rest]. simpl.
  by rewrite !lookup_insert_eq.
Qed.

Lemma handleBindRequest_resolved (h : Handler) (params : bindParams.t)
    (w w0 : World) (l : loc) :
  resolves h params w l w0 →
  handleBindRequest h params w = acknowledgeAndDispatch params (Some l) w0.
Proof.
  intros [(Hsid & Hget & ->)|(Hsid & -> & ->)].
  - by apply handleBindRequest_found.
  - by apply handleBindRequest_absent.
Qed.

Lemma parseBindParams_aid (req : Request) (values : Values)
    (params : bindParams.t) :
  parseBindParams req values = (Some params, None) →
  parseAid (Get (Form req) "AID") = (bindParams.aid params, None).
Proof.
  unfold parseBindParams.
  destruct (parseSessionId (Get (Form req) "SID")) as [sid [e|]]; [done|].
  destruct (parseAid (Get (Form req) "AID")) as [aid [e|]]; [done|].
  intros [= <-]. done.
Qed.

(** C6.  For every bind request on a resolved channel (found in the
    session map, or just created), acknowledgeArrays is called with the
    parsed AID exactly when that value is not -1: an empty or absent AID
    parses to -1, the acknowledgement (if any) is the first thing done on
    the resolved channel, the method dispatch runs after it, and the
    dispatch itself acknowledges nothing. *)
Theorem acknowledge_exactly_when_aid (h : Handler) (req : Request)
    (values : Values) (params : bindParams.t) (w w0 : World) (l : loc)
    (ch : Channel) :
  parseBindParams req values = (Some params, None) →
  resolves h params w l w0 →
  heap w0 !! l = Some ch →
  let aid := bindParams.aid params in
  let acks := if decide (aid = -1) then [] else [EvAcknowledgeArrays l aid] in
  parseAid (Get (Form req) "AID") = (aid, None)
  ∧ (Get (Form req) "AID" = ""%string → aid = -1)
  ∧ handleBindRequest h params w
    = dispatchMethod params (Some l)
        (if decide (aid = -1) then w0 else acknowledged l ch aid w0)
  ∧ ∃ evs : list Event,
      trace (handleBindRequest h params w).2 = trace w0 ++ acks ++ evs
      ∧ Forall (λ e, isAcknowledge e = false) evs.
Proof.
  intros Hparse Hres Hl aid acks.
  pose proof (parseBindParams_aid _ _ _ Hparse) as Haid.
  assert (Hrun : handleBindRequest h params w
                 = dispatchMethod params (Some l)
                     (if decide (aid = -1) then w0
                      else acknowledged l ch aid w0)).
  { rewrite (handleBindRequest_resolved _ _ _ _ _ Hres).
    by apply acknowledgeAndDispatch_run. }
  split; [done|]. split.
  { intros Hempty. rewrite Hempty in Haid. unfold aid. by injection Haid. }
  split; [done|].
  rewrite Hrun.
  destruct (dispatchMethod_no_acknowledge params (Some l)
              (if decide (aid = -1) then w0 else acknowledged l ch aid w0))
    as (evs & Ht & Hno).
  exists evs. split; [|done]. rewrite Ht. subst acks.
  destruct (decide (aid = -1)); simpl; [done|].
  destruct (acknowledged_fields l ch aid w0) as (-> & _).
  by rewrite <- app_assoc.
Qed.

Lemma dispatchMethod_other (params : bindParams.t) (c : ChannelPtr) (w : World) :
  bindParams.method params ≠ "POST"%string →
  bindParams.method params ≠ "GET"%string →
  dispatchMethod params c w
  = (Returned tt, setRw (applyRwOps (rw w) [WriteHeader 400]) w).
Proof.
  intros Hpost Hget. unfold dispatchMethod.
  apply String.eqb_neq in Hpost, Hget. by rewrite Hpost, Hget.
Qed.

(** C10, amended.  For every bind request whose method is neither POST
    nor GET and whose channel is resolved (found in the session map, or
    created because the SID is absent), the handler answers 400 with no
    body, after the side effects that precede the method dispatch: the
    creation of the session and the start of its ChannelHandler when the
    SID is absent, then the acknowledgement of the arrays when AID is
    not -1. *)
Theorem other_method_rejected_after_side_effects (h : Handler)
    (params : bindParams.t) (w w0 : World) (l : loc) (ch : Channel) :
  bindParams.method params ≠ "POST"%string →
  bindParams.method params ≠ "GET"%string →
  resolves h params w l w0 →
  heap w0 !! l = Some ch →
  unwritten (rw w) →
  let aid := bindParams.aid params in
  let created :=
    if decide (bindParams.sid params = nullSessionId)
    then let sid := (generateSesionId (entropy w)).1.1 in
         [EvGenerateSesionId sid;
          EvLog ("creating session " +:+ sid +:+ nl);
          EvNewChannel l (bindParams.cver params) sid;
          EvChannelsSet sid l;
          EvArmChannelTimeout l;
          EvGo l]
    else [] in
  let acks := if decide (aid = -1) then [] else [EvAcknowledgeArrays l aid] in
  ∃ w' : World,
    handleBindRequest h params w = (Returned tt, w')
    ∧ statusCode (rw w') = 400
    ∧ body (rw w') = ""%string
    ∧ trace w' = trace w ++ created ++ acks
    ∧ heap w' !! l
      = Some (if decide (aid = -1) then ch else acknowledgeArrays ch aid).
Proof.
  intros Hpost Hget Hres Hl Hun aid created acks.
  rewrite (handleBindRequest_resolved _ _ _ _ _ Hres).
  rewrite (acknowledgeAndDispatch_run _ _ _ _ Hl).
  rewrite dispatchMethod_other by done.
  eexists. split; [reflexivity|].
  assert (Hrw : rw w0 = rw w ∧ trace w0 = trace w ++ created).
  { subst created. destruct Hres as [(Hsid & _ & ->)|(Hsid & -> & ->)].
    - rewrite decide_False by done. by rewrite app_nil_r.
    - rewrite decide_True by done. unfold sessionCreated.
      by destruct (generateSesionId (entropy w)) as [[sid err] rest]. }
  destruct Hrw as [Hrw Htr]. destruct Hun as [Hw Hb].
  subst acks. fold aid.
  assert (Hst : ∀ r : ResponseWriter, wrote r = None → body r = ""%string →
            statusCode (applyRwOps r [WriteHeader 400]) = 400
            ∧ body (applyRwOps r [WriteHeader 400]) = ""%string).
  { intros [hd wr bd fl]. simpl. by intros -> ->. }
  destruct (decide (aid = -1)).
  - destruct w0 as [r0 chs hp tr rd rp en]. simpl in *. subst r0 tr.
    destruct (Hst _ Hw Hb) as [-> ->]. by rewrite app_nil_r.
  - destruct (acknowledged_fields l ch aid w0) as (Ht & Hh & Hr & _).
    destruct (acknowledged l ch aid w0) as [r0 chs hp tr rd rp en].
    simpl in *. subst r0 tr hp. rewrite Hrw, Htr.
    destruct (Hst _ Hw Hb) as [-> ->].
    rewrite lookup_insert_eq. by rewrite <- app_assoc.
Qed.

Lemma callReceiveMaps_run (l : loc) (ch ch' : Channel) (offset : Z)
    (maps : list Map) (err : option error) (w : World) :
  heap w !! l = Some ch →
  receiveMaps ch offset maps = (ch', err) →
  callReceiveMaps (Some l) offset maps w
  = (Returned err,
     setHeap (<[l := ch']> (heap w))
       (setTrace (trace w ++ [EvReceiveMaps l offset maps]) w)).
Proof.
  intros Hl Hrecv.
  unfold callReceiveMaps, deref, emit, store, mbind, M_bind, mret, M_ret.
  rewrite Hl. destruct w. simpl. by rewrite Hrecv.
Qed.

Lemma string_app_assoc (a b c : string) : (a +:+ b) +:+ c = a +:+ (b +:+ c).
Proof.
  induction a as [|x a IH]; [done|].
  change (String x ((a +:+ b) +:+ c) = String x (a +:+ (b +:+ c))).
  by f_equal.
Qed.

(** C3.  For every forward channel POST whose maps decode and are
    accepted by receiveMaps: if the channel is in the Init state after the
    call, the handler installs on this response a new back channel that
    is neither chunked nor HTML and waits on it; otherwise it answers 200
    with the decimal byte length of the JSON state snapshot, a newline and
    the snapshot. *)
Theorem forward_channel_reply (params : bindParams.t) (l : loc)
    (ch ch' : Channel) (offset : Z) (maps : list Map) (w : World) :
  heap w !! l = Some ch →
  parseIncomingMaps (bindParams.values params) = (offset, maps, None) →
  receiveMaps ch offset maps = (ch', None) →
  unwritten (rw w) →
  let bc := newBackChannel (Sid ch') false "" (bindParams.rid params) in
  let b := marshalState ch' in
  ∃ w' : World,
    handleBindPost params (Some l) w = (Returned tt, w')
    ∧ statusCode (rw w') = 200
    ∧ (state ch' = channelInit →
         backChannel.chunked bc = false
         ∧ backChannel.isHtml bc = false
         ∧ trace w' = trace w
             ++ [EvReceiveMaps l offset maps; EvSetBackChannel l bc; EvWait bc]
         ∧ heap w' = <[l := (setBackChannel ch' bc).1]> (heap w)
         ∧ rw w' = applyRwOps (rw w)
                     (setHeaders headers ++ [WriteHeader 200; Flush]
                      ++ (setBackChannel ch' bc).2 ++ wait bc))
    ∧ (state ch' ≠ channelInit →
         body (rw w') = FormatInt (len b) +:+ nl +:+ b
         ∧ parseDigits 0 (FormatInt (len b)) = Some (len b)
         ∧ trace w' = trace w ++ [EvReceiveMaps l offset maps; EvGetState l]
         ∧ heap w' = <[l := ch']> (heap w)).
Proof.
  intros Hl Hparse Hrecv Hun bc b.
  unfold handleBindPost. rewrite Hparse.
  unfold mbind at 1. unfold M_bind at 1.
  rewrite (callReceiveMaps_run _ _ _ _ _ _ _ Hl Hrecv).
  open_world w. destruct Hun as [-> ->].
  unfold deref, mbind, M_bind. simpl. rewrite lookup_insert_eq.
  destruct (decide (state ch' = channelInit)) as [Hinit|Hother].
  - unfold callSetBackChannel, callWait, deref, emit, store, write,
      mbind, M_bind. simpl. rewrite lookup_insert_eq. fold bc.
    destruct (setBackChannel ch' bc) as [ch2 ops] eqn:Hset. simpl.
    eexists. split; [reflexivity|]. simpl.
    split.
    { status_written. }
    split; [|done]. intros _.
    rewrite insert_insert_eq. rewrite <- !app_assoc.
    repeat split. by join_writes.
  - unfold callGetState, deref, emit, write, mbind, M_bind, mret, M_ret.
    simpl. rewrite lookup_insert_eq. simpl.
    eexists. split; [reflexivity|]. simpl.
    split; [done|]. split; [done|]. intros _.
    rewrite <- !app_assoc.
    split; [exact (string_app_assoc (FormatInt (len b)) nl b)|].
    split; [apply parseDigits_FormatInt; unfold len; lia|]. done.
Qed.

Lemma parseQueryType_terminate (s : string) :
  parseQueryType s = queryTerminate ↔ s = "terminate"%string.
Proof.
  unfold parseQueryType.
  destruct (String.eqb s "html") eqn:E1.
  { apply String.eqb_eq in E1 as ->. done. }
  destruct (String.eqb s "xmlhttp") eqn:E2.
  { apply String.eqb_eq in E2 as ->. done. }
  destruct (String.eqb s "terminate") eqn:E3.
  { apply String.eqb_eq in E3 as ->. done. }
  apply String.eqb_neq in E3.
  destruct (String.eqb s "test"); split; done.
Qed.

Lemma parseQueryType_html (s : string) :
  parseQueryType s = queryHtml ↔ s = "html"%string.
Proof.
  unfold parseQueryType.
  destruct (String.eqb s "html") eqn:E1.
  { apply String.eqb_eq in E1 as ->. done. }
  apply String.eqb_neq in E1.
  destruct (String.eqb s "xmlhttp"); [done|].
  destruct (String.eqb s "terminate"); [done|].
  destruct (String.eqb s "test"); split; done.
Qed.

Lemma parseBindParams_fields (req : Request) (values : Values)
    (params : bindParams.t) :
  parseBindParams req values = (Some params, None) →
  bindParams.qtype params = parseQueryType (Get (Form req) "TYPE")
  ∧ bindParams.chunked params = String.eqb (Get (Form req) "CI") "0"
  ∧ bindParams.domain params = Get (Form req) "DOMAIN"
  ∧ bindParams.rid params = Get (Form req) "zx"
  ∧ bindParams.cver params = Get (Form req) "VER"
  ∧ bindParams.values params = values
  ∧ bindParams.method params = Method req
  ∧ parseSessionId (Get (Form req) "SID") = (bindParams.sid params, None).
Proof.
  unfold parseBindParams.
  destruct (parseSessionId (Get (Form req) "SID")) as [sid [e|]]; [done|].
  destruct (parseAid (Get (Form req) "AID")) as [aid [e|]]; [done|].
  intros [= <-]. done.
Qed.

(** What [handleBindGet] does on a channel, for the parameters of a
    request: for TYPE [terminate] it calls terminate on the channel and
    writes nothing; otherwise it sets the content type and the framing
    headers, answers 200, flushes, installs a new back channel and waits
    on it. *)
Lemma handleBindGet_reply (req : Request) (values : Values)
    (params : bindParams.t) (l : loc) (ch : Channel) (w : World) :
  parseBindParams req values = (Some params, None) →
  heap w !! l = Some ch →
  unwritten (rw w) →
  let type := Get (Form req) "TYPE" in
  let bc := backChannel.mk (Sid ch) (bool_decide (type = "html"%string))
              (Get (Form req) "DOMAIN") (Get (Form req) "zx")
              (bool_decide (Get (Form req) "CI" = "0"%string)) in
  let framing :=
    [HeaderSet "Content-Type"
       (if decide (type = "html"%string) then "text/html" else "text/plain")]
    ++ setHeaders headers in
  ∃ w' : World,
    handleBindGet params (Some l) w = (Returned tt, w')
    ∧ statusCode (rw w') = 200
    ∧ (type = "terminate"%string →
         trace w' = trace w ++ [EvTerminate l]
         ∧ heap w' = <[l := terminate ch]> (heap w)
         ∧ body (rw w') = ""%string
         ∧ rw w' = rw w)
    ∧ (type ≠ "terminate"%string →
         trace w' = trace w ++ [EvSetBackChannel l bc; EvWait bc]
         ∧ heap w' = <[l := (setBackChannel ch bc).1]> (heap w)
         ∧ sentHeader (rw w') = header (applyRwOps (rw w) framing)
         ∧ sentHeader (rw w') !! "Content-Type"%string
           = Some (if decide (type = "html"%string)
                   then "text/html" else "text/plain")%string
         ∧ (∀ k v : string, (k, v) ∈ headers →
              sentHeader (rw w') !! k = Some v)
         ∧ rw w' = applyRwOps (rw w)
                     (framing ++ [WriteHeader 200; Flush]
                      ++ (setBackChannel ch bc).2 ++ wait bc)).
Proof.
  intros Hparse Hl Hun type bc framing.
  destruct (parseBindParams_fields _ _ _ Hparse)
    as (Hq & Hc & Hd & Hr & _).
  unfold handleBindGet. rewrite Hq. fold type.
  open_world w. destruct Hun as [-> ->].
  destruct (decide (parseQueryType type = queryTerminate)) as [Hterm|Hterm].
  - apply parseQueryType_terminate in Hterm.
    unfold callTerminate, deref, emit, store, mbind, M_bind.
    simpl. rewrite Hl. simpl.
    eexists. split; [reflexivity|]. simpl.
    split; [done|]. split; [|done]. intros _. done.
  - assert (Hne : type ≠ "terminate"%string)
      by (intros Heq; by apply Hterm, parseQueryType_terminate).
    assert (Hbc : setChunked
                    (newBackChannel (Sid ch)
                       (bool_decide (parseQueryType type = queryHtml))
                       (bindParams.domain params) (bindParams.rid params))
                    (bindParams.chunked params) = bc).
    { unfold setChunked, newBackChannel, bc. simpl. rewrite Hc, Hd, Hr.
      f_equal.
      - apply bool_decide_ext, parseQueryType_html.
      - destruct (String.eqb_spec (Get (Form req) "CI") "0").
        + by rewrite bool_decide_true.
        + by rewrite bool_decide_false. }
    assert (Hct : setContentType (parseQueryType type)
                  = HeaderSet "Content-Type"
                      (if decide (type = "html"%string)
                       then "text/html" else "text/plain")).
    { unfold setContentType.
      destruct (decide (parseQueryType type = queryHtml)) as [Hh|Hh].
      - apply parseQueryType_html in Hh. by rewrite decide_True.
      - rewrite decide_False; [done|].
        intros Heq. by apply Hh, parseQueryType_html. }
    rewrite Hct.
    unfold callSetBackChannel, callWait, deref, emit, store, write,
      mbind, M_bind.
    simpl. rewrite Hl. simpl. rewrite Hbc, Hl.
    destruct (setBackChannel ch bc) as [ch2 ops] eqn:Hset. simpl.
    eexists. split; [reflexivity|]. simpl.
    split; [status_written|].
    split; [done|]. intros _.
    rewrite <- !app_assoc. split; [done|]. split; [done|].
    match goal with
    | |- context [sentHeader ?r] =>
        assert (Hsent : sentHeader r
                        = header (applyRwOps
                                    (Build_ResponseWriter hd None "" fl)
                                    framing))
          by status_written;
        rewrite Hsent
    end.
    split; [done|]. split; [by simplify_map_eq|]. split; [|by join_writes].
    intros k v Hin. unfold headers in Hin.
    repeat (apply elem_of_cons in Hin as [[= -> ->]|Hin]; [by simplify_map_eq|]).
    by apply elem_of_nil in Hin.
Qed.

Lemma ServeHTTP_cors (h : Handler) (req : Request) (w : World) :
  unwritten (rw w) →
  ∃ w1 : World,
    unwritten (rw w1) ∧ trace w1 = trace w ∧ heap w1 = heap w
    ∧ channels w1 = channels w
    ∧ ServeHTTP h req w
      = (let '(values, err) := parseBody (Body req) in
         match err with
         | Some _ => write [WriteHeader 400]
         | None =>
             if HasSuffix (Path req) (testPath h) then
               handleTestRequest h (parseTestParams req)
             else if HasSuffix (Path req) (bindPath h) then
               let '(params, err) := parseBindParams req values in
               match err with
               | Some _ => write [WriteHeader 400]
               | None =>
                   match params with
                   | Some p => handleBindRequest h p
                   | None => panic "nil pointer dereference"
                   end
               end
             else write [WriteHeader 404]
         end) w1.
Proof.
  intros Hun. unfold ServeHTTP.
  destruct ((0 <? len (Origin req))
            && match corsInfo h with
               | Some info => crossDomainInfo.hostMatcher info (Origin req)
               | None => false
               end).
  - open_world w. destruct Hun as [-> ->].
    eexists. split; [|split; [|split; [|split; [|reflexivity]]]]; done.
  - exists w. by destruct w.
Qed.

Lemma write_status_rejects (code : Z) (w w1 : World) :
  unwritten (rw w1) → trace w1 = trace w → heap w1 = heap w →
  channels w1 = channels w →
  rejects code (write [WriteHeader code] w1) w.
Proof.
  intros Hun Ht Hh Hc. open_world w1. destruct Hun as [-> ->].
  eexists. split; [reflexivity|]. done.
Qed.

Lemma ServeHTTP_body_error (h : Handler) (req : Request) (w : World)
    (values : Values) (e : error) :
  unwritten (rw w) →
  parseBody (Body req) = (values, Some e) →
  rejects 400 (ServeHTTP h req w) w.
Proof.
  intros Hun Hbody.
  destruct (ServeHTTP_cors h req w Hun) as (w1 & Hun1 & Ht & Hh & Hc & ->).
  rewrite Hbody. by apply write_status_rejects.
Qed.

Lemma ServeHTTP_bind_params_error (h : Handler) (req : Request) (w : World)
    (values : Values) (e : error) :
  unwritten (rw w) →
  parseBody (Body req) = (values, None) →
  HasSuffix (Path req) (testPath h) = false →
  HasSuffix (Path req) (bindPath h) = true →
  (parseBindParams req values).2 = Some e →
  rejects 400 (ServeHTTP h req w) w.
Proof.
  intros Hun Hbody Htest Hbind Hparams.
  destruct (ServeHTTP_cors h req w Hun) as (w1 & Hun1 & Ht & Hh & Hc & ->).
  rewrite Hbody, Htest, Hbind.
  destruct (parseBindParams req values) as [params err]. simpl in Hparams.
  subst err. by apply write_status_rejects.
Qed.

(** A malformed SID fails the parse of the bind parameters. *)
Lemma parseBindParams_bad_sid (req : Request) (values : Values)
    (sid : SessionId) (e : error) :
  parseSessionId (Get (Form req) "SID") = (sid, Some e) →
  parseBindParams req values = (None, Some e).
Proof. intros Hsid. unfold parseBindParams. by rewrite Hsid. Qed.

(** So does an AID that is not empty and is not an integer. *)
Lemma parseBindParams_bad_aid (req : Request) (values : Values)
    (sid : SessionId) (n : Z) (e : error) :
  parseSessionId (Get (Form req) "SID") = (sid, None) →
  Get (Form req) "AID" ≠ ""%string →
  Atoi (Get (Form req) "AID") = (n, Some e) →
  parseBindParams req values = (None, Some e).
Proof.
  intros Hsid Hne Haid. unfold parseBindParams, parseAid. rewrite Hsid.
  destruct (Get (Form req) "AID") as [|c s]; [done|].
  change (len (String c s) =? 0) with (Z.of_nat (S (String.length s)) =? 0).
  destruct (Z.eqb_spec (Z.of_nat (S (String.length s))) 0) as [Heq|_]; [lia|].
  by rewrite Haid.
Qed.

Lemma handleBindPost_decode_error (params : bindParams.t) (c : ChannelPtr)
    (offset : Z) (maps : list Map) (e : error) (w : World) :
  parseIncomingMaps (bindParams.values params) = (offset, maps, Some e) →
  handleBindPost params c w
  = (Returned tt, setRw (applyRwOps (rw w) [WriteHeader 400]) w).
Proof. intros Hparse. unfold handleBindPost. by rewrite Hparse. Qed.

Lemma handleBindPost_receive_error (params : bindParams.t) (l : loc)
    (ch ch' : Channel) (offset : Z) (maps : list Map) (e : error) (w : World) :
  heap w !! l = Some ch →
  parseIncomingMaps (bindParams.values params) = (offset, maps, None) →
  receiveMaps ch offset maps = (ch', Some e) →
  handleBindPost params (Some l) w
  = (Returned tt,
     setRw (applyRwOps (rw w) [WriteHeader 500])
       (setHeap (<[l := ch']> (heap w))
          (setTrace (trace w ++ [EvReceiveMaps l offset maps;
                                 EvLog (Sid ch' +:+ ": " +:+ e +:+ nl)]) w))).
Proof.
  intros Hl Hparse Hrecv. unfold handleBindPost. rewrite Hparse.
  unfold mbind at 1. unfold M_bind at 1.
  rewrite (callReceiveMaps_run _ _ _ _ _ _ _ Hl Hrecv).
  destruct w as [r chs hp tr rd rp en]. simpl in *.
  unfold deref, logPrintf, emit, write, mbind, M_bind. simpl.
  rewrite lookup_insert_eq. simpl. by rewrite <- app_assoc.
Qed.

Lemma dispatchMethod_post (params : bindParams.t) (c : ChannelPtr) :
  bindParams.method params = "POST"%string →
  dispatchMethod params c = handleBindPost params c.
Proof. intros Hm. unfold dispatchMethod. by rewrite Hm. Qed.

Lemma resolves_fields (h : Handler) (params : bindParams.t) (w w0 : World)
    (l : loc) :
  resolves h params w l w0 →
  rw w0 = rw w
  ∧ trace w0 = trace w
      ++ (if decide (bindParams.sid params = nullSessionId)
          then let sid := (generateSesionId (entropy w)).1.1 in
               [EvGenerateSesionId sid;
                EvLog ("creating session " +:+ sid +:+ nl);
                EvNewChannel l (bindParams.cver params) sid;
                EvChannelsSet sid l;
                EvArmChannelTimeout l;
                EvGo l]
          else []).
Proof.
  intros [(Hsid & _ & ->)|(Hsid & -> & ->)].
  - rewrite decide_False by done. by rewrite app_nil_r.
  - rewrite decide_True by done. unfold sessionCreated.
    by destruct (generateSesionId (entropy w)) as [[sid err] rest].
Qed.

Lemma dispatchMethod_get (params : bindParams.t) (c : ChannelPtr) :
  bindParams.method params = "GET"%string →
  dispatchMethod params c = handleBindGet params c.
Proof. intros Hm. unfold dispatchMethod. by rewrite Hm. Qed.

(** C5.  For every bind request whose method is GET and whose channel is
    resolved (found in the session map, or created because the SID is
    absent), the switch on the method runs [handleBindGet] on that
    channel, once the arrays are acknowledged when the AID is not -1.
    If TYPE is [terminate] the handler calls terminate on the channel
    and writes nothing, so that the response completes with status 200
    and an empty body; otherwise it sets the content type and the framing
    headers, answers 200, installs on this response a new back channel
    whose chunked flag is true exactly when CI is ["0"] and whose isHtml
    flag is true exactly when TYPE is [html], and waits on it. *)
Theorem back_channel_get (h : Handler) (req : Request) (values : Values)
    (params : bindParams.t) (w w0 : World) (l : loc) (ch : Channel) :
  parseBindParams req values = (Some params, None) →
  Method req = "GET"%string →
  resolves h params w l w0 →
  heap w0 !! l = Some ch →
  unwritten (rw w) →
  let type := Get (Form req) "TYPE" in
  let aid := bindParams.aid params in
  let ch1 := if decide (aid = -1) then ch else acknowledgeArrays ch aid in
  let w1 := if decide (aid = -1) then w0 else acknowledged l ch aid w0 in
  let bc := backChannel.mk (Sid ch1) (bool_decide (type = "html"%string))
              (Get (Form req) "DOMAIN") (Get (Form req) "zx")
              (bool_decide (Get (Form req) "CI" = "0"%string)) in
  let framing :=
    [HeaderSet "Content-Type"
       (if decide (type = "html"%string) then "text/html" else "text/plain")]
    ++ setHeaders headers in
  ∃ w' : World,
    handleBindRequest h params w = (Returned tt, w')
    ∧ dispatchMethod params (Some l) w1 = (Returned tt, w')
    ∧ handleBindGet params (Some l) w1 = (Returned tt, w')
    ∧ statusCode (rw w') = 200
    ∧ (type = "terminate"%string →
         trace w' = trace w1 ++ [EvTerminate l]
         ∧ heap w' = <[l := terminate ch1]> (heap w1)
         ∧ body (rw w') = ""%string
         ∧ rw w' = rw w)
    ∧ (type ≠ "terminate"%string →
         trace w' = trace w1 ++ [EvSetBackChannel l bc; EvWait bc]
         ∧ heap w' = <[l := (setBackChannel ch1 bc).1]> (heap w1)
         ∧ sentHeader (rw w') = header (applyRwOps (rw w) framing)
         ∧ sentHeader (rw w') !! "Content-Type"%string
           = Some (if decide (type = "html"%string)
                   then "text/html" else "text/plain")%string
         ∧ (∀ k v : string, (k, v) ∈ headers →
              sentHeader (rw w') !! k = Some v)
         ∧ rw w' = applyRwOps (rw w)
                     (framing ++ [WriteHeader 200; Flush]
                      ++ (setBackChannel ch1 bc).2 ++ wait bc)).
Proof.
  intros Hparse Hget Hres Hl Hun type aid ch1 w1 bc framing.
  destruct (parseBindParams_fields _ _ _ Hparse)
    as (_ & _ & _ & _ & _ & _ & Hm & _).
  rewrite Hget in Hm.
  destruct (resolves_fields h params w w0 l Hres) as [Hrw0 _].
  assert (Hl1 : heap w1 !! l = Some ch1).
  { subst w1 ch1. destruct (decide (aid = -1)); [done|].
    destruct (acknowledged_fields l ch aid w0) as (_ & -> & _).
    by rewrite lookup_insert_eq. }
  assert (Hrw1 : rw w1 = rw w).
  { subst w1. destruct (decide (aid = -1)); [done|].
    by destruct (acknowledged_fields l ch aid w0) as (_ & _ & -> & _). }
  assert (Hun1 : unwritten (rw w1)) by (by rewrite Hrw1).
  assert (Hrun : handleBindRequest h params w = handleBindGet params (Some l) w1).
  { rewrite (handleBindRequest_resolved h params w w0 l Hres).
    rewrite (acknowledgeAndDispatch_run params l ch w0 Hl).
    fold aid. fold w1. by rewrite dispatchMethod_get. }
  pose proof (handleBindGet_reply req values params l ch1 w1 Hparse Hl1 Hun1)
    as Hreply.
  cbv zeta in Hreply. fold type in Hreply. rewrite Hrw1 in Hreply.
  destruct Hreply as (w' & Hbg & Hstatus & Hterm & Hback).
  exists w'. split; [by rewrite Hrun|].
  split; [by rewrite dispatchMethod_get|]. split; [done|].
  split; [done|]. split; [exact Hterm|exact Hback].
Qed.

(** A request on the bind path with a well-formed session id that the
    session map does not have: the reply of the whole handler. *)
Lemma ServeHTTP_unknown_sid (h : Handler) (req : Request) (w : World)
    (values : Values) (params : bindParams.t) :
  unwritten (rw w) →
  parseBody (Body req) = (values, None) →
  HasSuffix (Path req) (testPath h) = false →
  HasSuffix (Path req) (bindPath h) = true →
  parseBindParams req values = (Some params, None) →
  bindParams.sid params ≠ nullSessionId →
  channels w !! bindParams.sid params = None →
  ∃ w' : World,
    ServeHTTP h req w = (Returned tt, w')
    ∧ statusCode (rw w') = 400
    ∧ body (rw w') = "Unknown SID"%string
    ∧ heap w' = heap w
    ∧ channels w' = channels w.
Proof.
  intros Hun Hbody Htest Hbind Hparams Hsid Hget.
  destruct (ServeHTTP_cors h req w Hun) as (w1 & Hun1 & Ht & Hh & Hc & ->).
  rewrite Hbody, Htest, Hbind, Hparams.
  rewrite handleBindRequest_unknown by (by rewrite ?Hc).
  open_world w1. destruct Hun1 as [-> ->]. subst.
  eexists. split; [reflexivity|]. done.
Qed.

(** C4, amended.  A failure to parse the body, or the bind parameters
    (a malformed SID, an AID that is not empty and is not an integer), is
    answered 400 with no channel operation at all.  A failure to decode
    the maps of a forward channel request is answered 400 with no further
    channel operation: what precedes the method dispatch (the creation of
    the session when the SID is absent, the acknowledgement when AID is
    not -1) has been done.  A failure of receiveMaps is answered 500, and
    after the call of receiveMaps there is only a log line: no state
    snapshot and no back channel. *)
Theorem failures_400_and_500 (h : Handler) (w : World) :
  unwritten (rw w) →
  (∀ (req : Request) (values : Values) (e : error),
      parseBody (Body req) = (values, Some e) →
      rejects 400 (ServeHTTP h req w) w)
  ∧ (∀ (req : Request) (values : Values),
       parseBody (Body req) = (values, None) →
       HasSuffix (Path req) (testPath h) = false →
       HasSuffix (Path req) (bindPath h) = true →
       is_Some (parseSessionId (Get (Form req) "SID")).2
       ∨ (Get (Form req) "AID" ≠ ""%string
          ∧ is_Some (Atoi (Get (Form req) "AID")).2) →
       rejects 400 (ServeHTTP h req w) w)
  ∧ (∀ (params : bindParams.t) (w0 : World) (l : loc) (ch : Channel)
       (offset : Z) (maps : list Map) (e : error),
       resolves h params w l w0 →
       heap w0 !! l = Some ch →
       bindParams.method params = "POST"%string →
       parseIncomingMaps (bindParams.values params) = (offset, maps, Some e) →
       let aid := bindParams.aid params in
       ∃ w' : World,
         handleBindRequest h params w = (Returned tt, w')
         ∧ statusCode (rw w') = 400
         ∧ body (rw w') = ""%string
         ∧ trace w' = trace w0
             ++ (if decide (aid = -1) then []
                 else [EvAcknowledgeArrays l aid]))
  ∧ (∀ (params : bindParams.t) (w0 : World) (l : loc) (ch ch' : Channel)
       (offset : Z) (maps : list Map) (e : error),
       resolves h params w l w0 →
       heap w0 !! l = Some ch →
       bindParams.method params = "POST"%string →
       parseIncomingMaps (bindParams.values params) = (offset, maps, None) →
       let aid := bindParams.aid params in
       receiveMaps (if decide (aid = -1) then ch else acknowledgeArrays ch aid)
         offset maps = (ch', Some e) →
       ∃ w' : World,
         handleBindRequest h params w = (Returned tt, w')
         ∧ statusCode (rw w') = 500
         ∧ body (rw w') = ""%string
         ∧ trace w' = trace w0
             ++ (if decide (aid = -1) then []
                 else [EvAcknowledgeArrays l aid])
             ++ [EvReceiveMaps l offset maps;
                 EvLog (Sid ch' +:+ ": " +:+ e +:+ nl)]).
Proof.
  intros Hun.
  assert (Hst : ∀ (code : Z) (r : ResponseWriter),
            unwritten r →
            statusCode (applyRwOps r [WriteHeader code]) = code
            ∧ body (applyRwOps r [WriteHeader code]) = ""%string).
  { intros code [hd wr bd fl] [Hw Hb]. simpl in *. by subst. }
  split; [|split; [|split]].
  - intros req values e Hbody. by eapply ServeHTTP_body_error.
  - intros req values Hbody Htest Hbind Hbad.
    assert (∃ e, (parseBindParams req values).2 = Some e) as [e He].
    { destruct Hbad as [[e He]|(Hne & [e He])].
      - destruct (parseSessionId (Get (Form req) "SID")) as [sid err] eqn:Hs.
        simpl in He. subst err. exists e.
        by rewrite (parseBindParams_bad_sid _ _ _ _ Hs).
      - destruct (parseSessionId (Get (Form req) "SID")) as [sid [e'|]] eqn:Hs.
        + exists e'. by rewrite (parseBindParams_bad_sid _ _ _ _ Hs).
        + destruct (Atoi (Get (Form req) "AID")) as [n err] eqn:Ha.
          simpl in He. subst err. exists e.
          by rewrite (parseBindParams_bad_aid _ _ _ _ _ Hs Hne Ha). }
    by eapply ServeHTTP_bind_params_error.
  - intros params w0 l ch offset maps e Hres Hl Hpost Hparse aid.
    destruct (resolves_fields _ _ _ _ _ Hres) as [Hrw _].
    rewrite (handleBindRequest_resolved _ _ _ _ _ Hres).
    rewrite (acknowledgeAndDispatch_run _ _ _ _ Hl).
    rewrite dispatchMethod_post by done.
    rewrite (handleBindPost_decode_error _ _ _ _ _ _ Hparse).
    eexists. split; [reflexivity|]. fold aid.
    rewrite <- Hrw in Hun.
    destruct (decide (aid = -1)).
    + destruct w0 as [r0 chs hp tr rd rp en]. simpl in *.
      destruct (Hst 400 _ Hun) as [-> ->]. by rewrite app_nil_r.
    + destruct (acknowledged_fields l ch aid w0) as (Ht & _ & Hr & _).
      destruct (acknowledged l ch aid w0) as [r1 chs hp tr rd rp en].
      simpl in *. subst r1 tr. by destruct (Hst 400 _ Hun) as [-> ->].
  - intros params w0 l ch ch' offset maps e Hres Hl Hpost Hparse aid Hrecv.
    destruct (resolves_fields _ _ _ _ _ Hres) as [Hrw _].
    rewrite (handleBindRequest_resolved _ _ _ _ _ Hres).
    rewrite (acknowledgeAndDispatch_run _ _ _ _ Hl).
    rewrite dispatchMethod_post by done. fold aid.
    rewrite <- Hrw in Hun.
    destruct (decide (aid = -1)).
    + rewrite (handleBindPost_receive_error _ _ _ _ _ _ _ _ Hl Hparse Hrecv).
      eexists. split; [reflexivity|].
      destruct w0 as [r0 chs hp tr rd rp en]. simpl in *.
      by destruct (Hst 500 _ Hun) as [-> ->].
    + destruct (acknowledged_fields l ch aid w0) as (Ht & Hh & Hr & _).
      assert (Hl' : heap (acknowledged l ch aid w0) !! l
                    = Some (acknowledgeArrays ch aid))
        by (rewrite Hh; apply lookup_insert_eq).
      rewrite (handleBindPost_receive_error _ _ _ _ _ _ _ _ Hl' Hparse Hrecv).
      eexists. split; [reflexivity|].
      destruct (acknowledged l ch aid w0) as [r1 chs hp tr rd rp en].
      simpl in *. subst r1 tr.
      destruct (Hst 500 _ Hun) as [-> ->]. by rewrite <- app_assoc.
Qed.

Lemma countEvents_app (p : Event → bool) (evs1 evs2 : list Event) :
  countEvents p (evs1 ++ evs2) = (countEvents p evs1 + countEvents p evs2)%nat.
Proof. induction evs1 as [|e evs1 IH]; simpl; [done|]. rewrite IH. lia. Qed.

Lemma del_spec (m : gmap SessionId ChannelPtr) (sid : SessionId) :
  ((channelMap.del m sid).2 = true ↔ is_Some (m !! sid))
  ∧ (channelMap.del m sid).1 !! sid = None
  ∧ (∀ sid' : SessionId, sid' ≠ sid →
       (channelMap.del m sid).1 !! sid' = m !! sid')
  ∧ channelMap.del (channelMap.del m sid).1 sid
    = ((channelMap.del m sid).1, false).
Proof.
  unfold channelMap.del. simpl. split; [apply bool_decide_eq_true|].
  split; [apply lookup_delete_eq|].
  split; [intros sid' Hne; by apply lookup_delete_ne|].
  f_equal.
  - apply delete_id, lookup_delete_eq.
  - apply bool_decide_eq_false. rewrite lookup_delete_eq.
    by intros [x Hx].
Qed.

Lemma removeClosedSession_turn (sid : SessionId) (rest : list SessionId)
    (w : World) :
  removeClosedSession (sid :: rest) w
  = removeClosedSession rest
      (setTrace (trace w
                 ++ turnEvents sid (bool_decide (is_Some (channels w !! sid))))
         (setChannels (delete sid (channels w)) w)).
Proof.
  destruct w as [r chs hp tr rd rp en]. simpl.
  unfold logPrintf, emit, channelsDel, channelMap.del, turnEvents,
    mbind, M_bind. simpl.
  destruct (bool_decide (is_Some (chs !! sid))); simpl;
    by rewrite <- ?app_assoc.
Qed.

Lemma removeClosedSession_spec (gcChan : list SessionId) (w : World) :
  ∃ (w' : World) (evs : list Event),
    removeClosedSession gcChan w = (Returned tt, w')
    ∧ trace w' = trace w ++ evs
    ∧ heap w' = heap w
    ∧ (∀ s : SessionId, s ∈ gcChan → channels w' !! s = None)
    ∧ (∀ s : SessionId, s ∉ gcChan → channels w' !! s = channels w !! s)
    ∧ (∀ s : SessionId,
         countEvents (isRemoval s) evs
         = if decide (s ∈ gcChan ∧ is_Some (channels w !! s))
           then 1%nat else 0%nat)
    ∧ (∀ s : SessionId,
         (countEvents (isRemoval s) evs + countEvents (isMissedRemoval s) evs)%nat
         = List.length (filter (λ x, x = s) gcChan)).
Proof.
  revert w. induction gcChan as [|sid rest IH]; intros w.
  - exists w, []. rewrite app_nil_r.
    split; [done|]. split; [done|]. split; [done|].
    split; [intros s Hs; by apply elem_of_nil in Hs|].
    split; [done|]. split; [|done].
    intros s. rewrite decide_False; [done|].
    intros [Hs _]. by apply elem_of_nil in Hs.
  - rewrite removeClosedSession_turn.
    set (b := bool_decide (is_Some (channels w !! sid))).
    set (w1 := setTrace _ _).
    destruct (IH w1) as (w' & evs & Hrun & Ht & Hh & Hgone & Hkept & Hcount & Hall).
    assert (Hw1 : trace w1 = trace w ++ turnEvents sid b
                  ∧ channels w1 = delete sid (channels w)
                  ∧ heap w1 = heap w) by (subst w1; by destruct w).
    destruct Hw1 as (Ht1 & Hc1 & Hh1).
    exists w', (turnEvents sid b ++ evs).
    split; [done|]. split; [by rewrite Ht, Ht1, app_assoc|].
    split; [by rewrite Hh|].
    assert (Hturn : ∀ s : SessionId,
               countEvents (isRemoval s) (turnEvents sid b)
               = (if decide (s = sid) then if b then 1 else 0 else 0)%nat
               ∧ countEvents (isMissedRemoval s) (turnEvents sid b)
                 = (if decide (s = sid) then if b then 0 else 1 else 0)%nat).
    { intros s. unfold turnEvents.
      destruct (decide (s = sid)) as [->|Hne].
      - destruct b; simpl; by rewrite String.eqb_refl.
      - assert (String.eqb sid s = false) as Hf
          by (apply String.eqb_neq; congruence).
        destruct b; simpl; by rewrite Hf. }
    split; [|split; [|split]].
    + intros s Hs. apply elem_of_cons in Hs as [->|Hs]; [|by apply Hgone].
      destruct (decide (sid ∈ rest)) as [Hin|Hnin]; [by apply Hgone|].
      rewrite Hkept by done. rewrite Hc1. apply lookup_delete_eq.
    + intros s Hs. apply not_elem_of_cons in Hs as [Hne Hs].
      rewrite Hkept by done. rewrite Hc1. by apply lookup_delete_ne.
    + intros s. rewrite countEvents_app, Hcount.
      destruct (Hturn s) as [-> _]. rewrite Hc1.
      destruct (decide (s = sid)) as [->|Hne].
      * rewrite lookup_delete_eq.
        rewrite (decide_False (P := _ ∧ is_Some None))
          by (intros [_ [x Hx]]; done).
        subst b. destruct (decide (is_Some (channels w !! sid))) as [Hp|Hp].
        -- rewrite bool_decide_true by done.
           rewrite decide_True; [done|]. split; [apply elem_of_cons; by left|done].
        -- rewrite bool_decide_false by done.
           rewrite decide_False; [done|]. by intros [_ ?].
      * rewrite lookup_delete_ne by done. simpl.
        destruct (decide (s ∈ rest ∧ is_Some (channels w !! s))) as [[Hin Hp]|Hn].
        -- rewrite decide_True; [done|]. split; [apply elem_of_cons; by right|done].
        -- rewrite decide_False; [done|]. intros [Hin Hp]. apply Hn.
           split; [|done]. apply elem_of_cons in Hin as [?|?]; done.
    + intros s. rewrite !countEvents_app.
      destruct (Hturn s) as [-> ->]. specialize (Hall s).
      rewrite filter_cons.
      destruct (decide (sid = s)) as [->|Hne].
      * rewrite !decide_True by done. simpl. destruct b; lia.
      * rewrite !decide_False by congruence. lia.
Qed.

(** C8.  [del] returns true if and only if the session map had an entry
    for the session id, no entry for it remains after the call, and a
    second [del] for the same id returns false.  So, for the session ids
    the loop [removeClosedSession] receives: each is absent from the map
    in the end, the others are untouched, every received id gives one
    call of [del], and the calls that removed an entry for an id are
    exactly one if the id was received and was in the map, none
    otherwise. *)
Theorem del_once (m : gmap SessionId ChannelPtr) (sid : SessionId)
    (gcChan : list SessionId) (w : World) :
  ((channelMap.del m sid).2 = true ↔ is_Some (m !! sid))
  ∧ (channelMap.del m sid).1 !! sid = None
  ∧ channelMap.del (channelMap.del m sid).1 sid
    = ((channelMap.del m sid).1, false)
  ∧ ∃ (w' : World) (evs : list Event),
      removeClosedSession gcChan w = (Returned tt, w')
      ∧ trace w' = trace w ++ evs
      ∧ (∀ s : SessionId, s ∈ gcChan → channels w' !! s = None)
      ∧ (∀ s : SessionId, s ∉ gcChan → channels w' !! s = channels w !! s)
      ∧ (∀ s : SessionId,
           countEvents (isRemoval s) evs
           = if decide (s ∈ gcChan ∧ is_Some (channels w !! s))
             then 1%nat else 0%nat)
      ∧ (∀ s : SessionId,
           (countEvents (isRemoval s) evs
            + countEvents (isMissedRemoval s) evs)%nat
           = List.length (filter (λ x, x = s) gcChan)).
Proof.
  destruct (del_spec m sid) as (Hdel & Hgone & _ & Htwice).
  split; [done|]. split; [done|]. split; [done|].
  destruct (removeClosedSession_spec gcChan w)
    as (w' & evs & Hrun & Ht & _ & H1 & H2 & H3 & H4).
  by exists w', evs.
Qed.

Lemma getHostPrefix_none (w : World) :
  getHostPrefix None w = (Returned ""%string, w).
Proof. reflexivity. Qed.

Lemma getHostPrefix_empty (i : crossDomainInfo.t) (w : World) :
  crossDomainInfo.prefixes i = [] →
  getHostPrefix (Some i) w = (Panicked "invalid argument to Intn", w).
Proof.
  intros Hp. unfold getHostPrefix, Intn, mbind, M_bind. by rewrite Hp.
Qed.

Lemma getHostPrefix_some (i : crossDomainInfo.t) (w : World) :
  crossDomainInfo.prefixes i ≠ [] →
  ∃ p : string,
    p ∈ crossDomainInfo.prefixes i
    ∧ crossDomainInfo.prefixes i
        !! (rand w (randPos w) mod List.length (crossDomainInfo.prefixes i))%nat
      = Some p
    ∧ getHostPrefix (Some i) w = (Returned p, setRandPos (S (randPos w)) w).
Proof.
  intros Hne. set (ps := crossDomainInfo.prefixes i) in *.
  assert (Hlen : (0 < List.length ps)%nat) by (destruct ps; [done|simpl; lia]).
  set (k := (rand w (randPos w) mod List.length ps)%nat).
  assert (Hk : (k < List.length ps)%nat) by (apply Nat.mod_upper_bound; lia).
  destruct (lookup_lt_is_Some_2 ps k Hk) as [p Hp].
  exists p. split; [by eapply list_elem_of_lookup_2|]. split; [done|].
  unfold getHostPrefix, Intn, indexSlice, mbind, M_bind. fold ps.
  destruct (Z.leb_spec (Z.of_nat (List.length ps)) 0) as [Hle|_]; [lia|].
  assert (Hmod : Z.of_nat (rand w (randPos w)) mod Z.of_nat (List.length ps)
                 = Z.of_nat k).
  { unfold k. rewrite Nat2Z.inj_mod. done. }
  rewrite Hmod.
  destruct (Z.ltb_spec (Z.of_nat k) 0) as [Hneg|_]; [lia|].
  rewrite Nat2Z.id, Hp. done.
Qed.

(** C9.  getHostPrefix returns the empty string without cross domain
    information, an element of the list of prefixes when that list is
    not empty, and panics in [rand.Intn] when the list is empty: it
    returns if and only if the list of prefixes is not empty whenever
    cross domain information is set.  A test request in init mode with
    version 8 panics exactly in that case, and SetCrossDomainPrefix
    accepts the empty list. *)
Theorem getHostPrefix_needs_prefixes (info : option crossDomainInfo.t)
    (w : World) :
  (info = None → getHostPrefix info w = (Returned ""%string, w))
  ∧ (∀ i : crossDomainInfo.t,
       info = Some i → crossDomainInfo.prefixes i ≠ [] →
       ∃ p : string,
         p ∈ crossDomainInfo.prefixes i
         ∧ getHostPrefix info w = (Returned p, setRandPos (S (randPos w)) w))
  ∧ (∀ i : crossDomainInfo.t,
       info = Some i → crossDomainInfo.prefixes i = [] →
       getHostPrefix info w = (Panicked "invalid argument to Intn", w))
  ∧ ((∃ (p : string) (w' : World), getHostPrefix info w = (Returned p, w'))
     ↔ (∀ i : crossDomainInfo.t,
          info = Some i → crossDomainInfo.prefixes i ≠ []))
  ∧ (∀ (h : Handler) (params : testParams.t),
       corsInfo h = info →
       testParams.ver params = SupportedProcolVersion →
       testParams.init params = true →
       ((∃ (msg : string) (w' : World),
            handleTestRequest h params w = (Panicked msg, w'))
        ↔ (∃ i : crossDomainInfo.t,
             info = Some i ∧ crossDomainInfo.prefixes i = [])))
  ∧ (∀ (h : Handler) (domain : string),
       crossDomainInfo.prefixes
         <$> corsInfo (SetCrossDomainPrefix h domain []) = Some []).
Proof.
  split; [by intros ->|].
  split.
  { intros i -> Hne. destruct (getHostPrefix_some i w Hne) as (p & Hin & _ & Hrun).
    by exists p. }
  split; [intros i -> Hp; by apply getHostPrefix_empty|].
  split.
  { split.
    - intros (p & w' & Hrun) i -> Hp.
      by rewrite (getHostPrefix_empty i w Hp) in Hrun.
    - intros Hall. destruct info as [i|].
      + destruct (getHostPrefix_some i w (Hall i eq_refl)) as (p & _ & _ & Hrun).
        by exists p, (setRandPos (S (randPos w)) w).
      + by exists ""%string, w. }
  split; [|done].
  intros h params Hcors Hver Hinit.
  unfold handleTestRequest. rewrite Hver, Hinit, Hcors. simpl.
  unfold mbind at 1. unfold M_bind at 1.
  unfold mbind. unfold M_bind.
  destruct w as [r chs hp tr rd rp en]. simpl.
  set (w1 := Build_World _ _ _ _ _ _ _).
  split.
  - intros (msg & w' & Hrun). destruct info as [i|].
    + exists i. split; [done|].
      destruct (crossDomainInfo.prefixes i) as [|p0 ps] eqn:Hp; [done|].
      assert (Hne : crossDomainInfo.prefixes i ≠ []) by (by rewrite Hp).
      destruct (getHostPrefix_some i w1 Hne) as (p & _ & _ & Hp').
      by rewrite Hp' in Hrun.
    + by rewrite getHostPrefix_none in Hrun.
  - intros (i & -> & Hp). rewrite (getHostPrefix_empty i w1 Hp). eauto.
Qed.

Lemma jsonStringBody_plain (p rest : string) :
  jsonPlain p = true →
  jsonStringBody (p +:+ String (ascii_of_nat 34) rest) = Some (p, rest).
Proof.
  induction p as [|c p IH]; intros Hplain.
  - reflexivity.
  - simpl in Hplain. apply andb_true_iff in Hplain as [Hc Hp].
    unfold jsonPlainChar in Hc.
    apply andb_true_iff in Hc as [Hc H32].
    apply andb_true_iff in Hc as [H34 H92].
    apply negb_true_iff in H34, H92, H32.
    change (String c p +:+ String (ascii_of_nat 34) rest)
      with (String c (p +:+ String (ascii_of_nat 34) rest)).
    simpl. rewrite H34, H92, H32. by rewrite (IH Hp).
Qed.

Lemma decode_initBody (p : string) :
  jsonPlain p = true → decodeStringArray (initBody p) = Some [p; ""%string].
Proof.
  intros Hplain.
  change (initBody p)
    with (String "[" (String (ascii_of_nat 34)
            (p +:+ String (ascii_of_nat 34)
               (String "," (String (ascii_of_nat 34)
                  (String (ascii_of_nat 34) (String "]" EmptyString))))))).
  unfold decodeStringArray. simpl.
  rewrite (jsonStringBody_plain _ _ Hplain). reflexivity.
Qed.

(** C7, amended.  For every test request: if VER does not parse to the
    supported version 8 the handler answers 400 with a plain text
    message; if VER is 8 and MODE is [init], and the cross domain
    information is absent or has a list of prefixes that is not empty,
    it answers 200 with the body [initBody p], where [p] is empty without
    cross domain information and is else an element of the list of
    prefixes; that body is a JSON array of exactly the two strings [p]
    and the empty string when [p] has no quotation mark, no reverse
    solidus and no control character. *)
Theorem test_request_version_and_init (h : Handler) (req : Request)
    (w : World) :
  unwritten (rw w) →
  let params := parseTestParams req in
  let version := parseProtoVersion (Get (Form req) "VER") in
  (version ≠ SupportedProcolVersion →
     ∃ w' : World,
       handleTestRequest h params w = (Returned tt, w')
       ∧ statusCode (rw w') = 400
       ∧ body (rw w') = "Unsupported protocol version."%string
       ∧ trace w' = trace w)
  ∧ (version = SupportedProcolVersion →
     Get (Form req) "MODE" = "init"%string →
     (∀ i : crossDomainInfo.t,
        corsInfo h = Some i → crossDomainInfo.prefixes i ≠ []) →
     ∃ (w' : World) (p : string),
       handleTestRequest h params w = (Returned tt, w')
       ∧ statusCode (rw w') = 200
       ∧ body (rw w') = initBody p
       ∧ trace w' = trace w
       ∧ (corsInfo h = None → p = ""%string)
       ∧ (∀ i : crossDomainInfo.t,
            corsInfo h = Some i → p ∈ crossDomainInfo.prefixes i)
       ∧ (jsonPlain p = true →
            decodeStringArray (body (rw w')) = Some [p; ""%string])).
Proof.
  intros Hun params version.
  unfold handleTestRequest. simpl. fold version.
  open_world w. destruct Hun as [-> ->].
  split.
  - intros Hver. apply Z.eqb_neq in Hver. rewrite Hver. simpl.
    eexists. split; [reflexivity|]. done.
  - intros Hver Hinit Hpre. rewrite Hver, Hinit. simpl.
    unfold mbind at 1. unfold M_bind at 1. simpl.
    unfold mbind. unfold M_bind.
    set (w1 := Build_World _ _ _ _ _ _ _).
    destruct (corsInfo h) as [i|] eqn:Hcors.
    + destruct (getHostPrefix_some i w1 (Hpre i eq_refl)) as (p & Hin & _ & ->).
      simpl. eexists _, p. split; [reflexivity|]. simpl.
      split; [done|]. split; [done|]. split; [done|]. split; [done|].
      split; [by intros ? [= <-]|]. apply decode_initBody.
    + rewrite getHostPrefix_none. simpl.
      eexists _, ""%string. split; [reflexivity|]. simpl.
      split; [done|]. split; [done|]. split; [done|]. split; [done|].
      split; [done|]. intros _. reflexivity.
Qed.

End properties.

(** * The properties on concrete requests *)

Section scenario.
Import Scenario.
#[local] Existing Instance SpecModel.package.

Lemma unwritten_emptyResponse : unwritten emptyResponse.
Proof. by split. Qed.

Lemma unknown_sid_rejected_witness :
  bindParams.sid paramsUnknown ≠ nullSessionId
  ∧ channels emptyWorld !! bindParams.sid paramsUnknown = None
  ∧ unwritten (rw emptyWorld)
  ∧ ∃ w' : World,
      handleBindRequest NewHandler paramsUnknown emptyWorld = (Returned tt, w')
      ∧ statusCode (rw w') = 400
      ∧ body (rw w') = "Unknown SID"%string
      ∧ heap w' = heap emptyWorld.
Proof.
  assert (H1 : bindParams.sid paramsUnknown ≠ nullSessionId) by done.
  assert (H2 : channels emptyWorld !! bindParams.sid paramsUnknown = None)
    by reflexivity.
  assert (H3 : unwritten (rw emptyWorld)) by (split; reflexivity).
  split; [exact H1|]. split; [exact H2|]. split; [exact H3|].
  destruct (unknown_sid_rejected NewHandler paramsUnknown emptyWorld H1 H2 H3)
    as (w' & Hrun & Hstatus & Hbody & _ & _ & _ & Hheap).
  exists w'. repeat split; assumption.
Defined.

Lemma absent_sid_creates_session_witness :
  bindParams.sid paramsNew = nullSessionId
  ∧ handleBindRequest NewHandler paramsNew emptyWorld
    = acknowledgeAndDispatch paramsNew (Some (newLoc (heap emptyWorld)))
        (sessionCreated NewHandler "8" emptyWorld).
Proof.
  split; [reflexivity|].
  exact (proj1 (absent_sid_creates_session NewHandler paramsNew emptyWorld
                  eq_refl)).
Defined.

(** C2 as stated fails when the generator returns an id that the session
    map has: the session of that id is replaced by the new one. *)
Lemma generated_sid_replaces_session :
  ¬ freshSessionStated NewHandler paramsNew sessionWorld.
Proof.
  intros Hstated.
  destruct (Hstated eq_refl) as (sid & l & _ & Hfresh & _ & Hmap).
  assert (Hne : sid ≠ sidA).
  { intros ->. vm_compute in Hfresh. discriminate Hfresh. }
  apply (f_equal (λ m, m !! sidA)) in Hmap.
  rewrite lookup_insert_ne in Hmap by done.
  vm_compute in Hmap. discriminate Hmap.
Qed.

(** It fails as well when the generator fails: its error is dropped, and
    the session is put in the map under the null session id. *)
Lemma failed_generator_gives_null_sid :
  ¬ freshSessionStated NewHandler paramsNew (setEntropy "" emptyWorld).
Proof.
  intros Hstated.
  destruct (Hstated eq_refl) as (sid & l & Hnull & _ & _ & Hmap).
  apply (f_equal (λ m, m !! nullSessionId)) in Hmap.
  rewrite lookup_insert_ne in Hmap by done.
  vm_compute in Hmap. discriminate Hmap.
Qed.

Lemma forward_channel_reply_witness :
  heap sessionWorld !! 1%positive = Some channelA
  ∧ parseIncomingMaps (bindParams.values paramsMap)
    = (0, (parseIncomingMaps (bindParams.values paramsMap)).1.2, None)
  ∧ receiveMaps channelA 0 (parseIncomingMaps (bindParams.values paramsMap)).1.2
    = ((receiveMaps channelA 0
          (parseIncomingMaps (bindParams.values paramsMap)).1.2).1, None)
  ∧ unwritten (rw sessionWorld)
  ∧ ∃ w' : World,
      handleBindPost paramsMap (Some 1%positive) sessionWorld = (Returned tt, w')
      ∧ statusCode (rw w') = 200.
Proof.
  assert (H1 : heap sessionWorld !! 1%positive = Some channelA)
    by (vm_compute; reflexivity).
  assert (H2 : parseIncomingMaps (bindParams.values paramsMap)
               = (0, (parseIncomingMaps (bindParams.values paramsMap)).1.2, None))
    by (vm_compute; reflexivity).
  assert (H3 : receiveMaps channelA 0
                 (parseIncomingMaps (bindParams.values paramsMap)).1.2
               = ((receiveMaps channelA 0
                     (parseIncomingMaps (bindParams.values paramsMap)).1.2).1,
                  None))
    by (vm_compute; reflexivity).
  assert (H4 : unwritten (rw sessionWorld)) by (split; reflexivity).
  split; [exact H1|]. split; [exact H2|]. split; [exact H3|].
  split; [exact H4|].
  destruct (forward_channel_reply paramsMap 1%positive channelA _ 0 _
              sessionWorld H1 H2 H3 H4) as (w' & Hrun & Hstatus & _).
  exists w'. split; assumption.
Defined.

Lemma resolves_sessionWorld (params : bindParams.t) :
  bindParams.sid params = sidA →
  resolves NewHandler params sessionWorld 1%positive sessionWorld.
Proof.
  intros Hsid. left. rewrite Hsid. split; [done|]. split; [|done].
  vm_compute. reflexivity.
Defined.

Lemma back_channel_get_witness :
  parseBindParams requestGet (valuesOf "") = (Some paramsGet, None)
  ∧ Method requestGet = "GET"%string
  ∧ resolves NewHandler paramsGet sessionWorld 1%positive sessionWorld
  ∧ heap sessionWorld !! 1%positive = Some channelA
  ∧ unwritten (rw sessionWorld)
  ∧ ∃ w' : World,
      handleBindRequest NewHandler paramsGet sessionWorld = (Returned tt, w')
      ∧ statusCode (rw w') = 200.
Proof.
  assert (H1 : parseBindParams requestGet (valuesOf "") = (Some paramsGet, None))
    by (vm_compute; reflexivity).
  assert (H2 : Method requestGet = "GET"%string) by reflexivity.
  assert (H3 : resolves NewHandler paramsGet sessionWorld 1%positive sessionWorld)
    by (by apply resolves_sessionWorld).
  assert (H4 : heap sessionWorld !! 1%positive = Some channelA)
    by (vm_compute; reflexivity).
  assert (H5 : unwritten (rw sessionWorld)) by (split; reflexivity).
  split; [exact H1|]. split; [exact H2|]. split; [exact H3|].
  split; [exact H4|]. split; [exact H5|].
  destruct (back_channel_get NewHandler requestGet (valuesOf "") paramsGet
              sessionWorld sessionWorld 1%positive channelA H1 H2 H3 H4 H5)
    as (w' & Hrun & _ & _ & Hstatus & _).
  exists w'. split; assumption.
Defined.

Lemma acknowledge_exactly_when_aid_witness :
  parseBindParams requestGet (valuesOf "") = (Some paramsGet, None)
  ∧ resolves NewHandler paramsGet sessionWorld 1%positive sessionWorld
  ∧ heap sessionWorld !! 1%positive = Some channelA
  ∧ handleBindRequest NewHandler paramsGet sessionWorld
    = dispatchMethod paramsGet (Some 1%positive)
        (acknowledged 1%positive channelA 1 sessionWorld).
Proof.
  assert (H1 : parseBindParams requestGet (valuesOf "") = (Some paramsGet, None))
    by (vm_compute; reflexivity).
  assert (H2 : resolves NewHandler paramsGet sessionWorld 1%positive sessionWorld)
    by (by apply resolves_sessionWorld).
  assert (H3 : heap sessionWorld !! 1%positive = Some channelA)
    by (vm_compute; reflexivity).
  split; [exact H1|]. split; [exact H2|]. split; [exact H3|].
  destruct (acknowledge_exactly_when_aid NewHandler requestGet (valuesOf "")
              paramsGet sessionWorld sessionWorld 1%positive channelA H1 H2 H3)
    as (_ & _ & Hrun & _).
  exact Hrun.
Defined.

Lemma other_method_rejected_witness :
  bindParams.method paramsPut ≠ "POST"%string
  ∧ bindParams.method paramsPut ≠ "GET"%string
  ∧ resolves NewHandler paramsPut sessionWorld 1%positive sessionWorld
  ∧ heap sessionWorld !! 1%positive = Some channelA
  ∧ unwritten (rw sessionWorld)
  ∧ ∃ w' : World,
      handleBindRequest NewHandler paramsPut sessionWorld = (Returned tt, w')
      ∧ statusCode (rw w') = 400
      ∧ body (rw w') = ""%string
      ∧ trace w' = [EvAcknowledgeArrays 1%positive 1].
Proof.
  assert (H1 : bindParams.method paramsPut ≠ "POST"%string) by done.
  assert (H2 : bindParams.method paramsPut ≠ "GET"%string) by done.
  assert (H3 : resolves NewHandler paramsPut sessionWorld 1%positive sessionWorld)
    by (by apply resolves_sessionWorld).
  assert (H4 : heap sessionWorld !! 1%positive = Some channelA)
    by (vm_compute; reflexivity).
  assert (H5 : unwritten (rw sessionWorld)) by (split; reflexivity).
  split; [exact H1|]. split; [exact H2|]. split; [exact H3|].
  split; [exact H4|]. split; [exact H5|].
  destruct (other_method_rejected_after_side_effects NewHandler paramsPut
              sessionWorld sessionWorld 1%positive channelA H1 H2 H3 H4 H5)
    as (w' & Hrun & Hstatus & Hbody & Htrace & _).
  exists w'. split; [exact Hrun|]. split; [exact Hstatus|].
  split; [exact Hbody|]. exact Htrace.
Defined.

(** C10 as stated fails on a request with an unknown session id: the
    body of the reply is [Unknown SID]. *)
Lemma other_method_unknown_sid_has_body :
  ¬ otherMethodStated NewHandler paramsPutUnknown emptyWorld.
Proof.
  intros Hstated.
  destruct (Hstated unwritten_emptyResponse ltac:(done) ltac:(done))
    as (w' & Hrun & _ & Hbody).
  apply (f_equal (λ r, body (rw r.2))) in Hrun. simpl in Hrun.
  rewrite Hbody in Hrun. vm_compute in Hrun. discriminate Hrun.
Qed.

Lemma failures_400_and_500_witness :
  unwritten (rw sessionWorld)
  ∧ rejects 400 (ServeHTTP NewHandler requestBadBody sessionWorld) sessionWorld
  ∧ rejects 400 (ServeHTTP NewHandler requestBadSid sessionWorld) sessionWorld
  ∧ (∃ w' : World,
       handleBindRequest NewHandler paramsBadMaps sessionWorld = (Returned tt, w')
       ∧ statusCode (rw w') = 400
       ∧ trace w' = [EvAcknowledgeArrays 1%positive 1])
  ∧ (∃ w' : World,
       handleBindRequest NewHandler paramsGap sessionWorld = (Returned tt, w')
       ∧ statusCode (rw w') = 500
       ∧ body (rw w') = ""%string).
Proof.
  assert (H0 : unwritten (rw sessionWorld)) by (split; reflexivity).
  destruct (failures_400_and_500 NewHandler sessionWorld H0)
    as (Hbody & Hparams & Hdecode & Hreceive).
  split; [exact H0|]. split; [|split; [|split]].
  - apply (Hbody requestBadBody (parseBody (Body requestBadBody)).1
             "invalid URL escape"%string).
    vm_compute. reflexivity.
  - apply (Hparams requestBadSid (parseBody (Body requestBadSid)).1).
    + vm_compute. reflexivity.
    + reflexivity.
    + reflexivity.
    + left. vm_compute. eauto.
  - destruct (Hdecode paramsBadMaps sessionWorld 1%positive channelA 0 []
                "missing count or ofs"%string) as (w' & Hrun & Hstatus & _ & Htrace).
    + by apply resolves_sessionWorld.
    + vm_compute. reflexivity.
    + reflexivity.
    + vm_compute. reflexivity.
    + exists w'. split; [exact Hrun|]. split; [exact Hstatus|]. exact Htrace.
  - destruct (Hreceive paramsGap sessionWorld 1%positive channelA channelA 5
                (parseIncomingMaps (bindParams.values paramsGap)).1.2
                "gap in the map offsets"%string)
      as (w' & Hrun & Hstatus & Hbody' & _).
    + by apply resolves_sessionWorld.
    + vm_compute. reflexivity.
    + reflexivity.
    + vm_compute. reflexivity.
    + vm_compute. reflexivity.
    + exists w'. split; [exact Hrun|]. split; [exact Hstatus|]. exact Hbody'.
Defined.

(** C4 as stated fails on a forward channel request with an AID and maps
    that do not decode: the arrays are acknowledged before the 400. *)
Lemma decode_failure_after_acknowledgement :
  ¬ decodeFailureStated NewHandler requestBadMaps sessionWorld.
Proof.
  intros Hstated.
  destruct (Hstated (parseBody (Body requestBadMaps)).1 0 []
              "missing count or ofs"%string)
    as (w' & evs & Hrun & _ & Htrace & Hnone).
  - split; reflexivity.
  - vm_compute. reflexivity.
  - reflexivity.
  - reflexivity.
  - reflexivity.
  - vm_compute. reflexivity.
  - apply (f_equal (λ r, trace r.2)) in Hrun. simpl in Hrun.
    rewrite Htrace in Hrun. vm_compute in Hrun.
    subst evs. by inversion Hnone.
Qed.

Lemma test_request_version_and_init_witness :
  unwritten (rw emptyWorld)
  ∧ (∃ w' : World,
       handleTestRequest (corsHandler ["a"; "b"]%string)
         (parseTestParams (testRequest "7" "init")) emptyWorld
       = (Returned tt, w')
       ∧ statusCode (rw w') = 400)
  ∧ (∃ (w' : World) (p : string),
       handleTestRequest (corsHandler ["a"; "b"]%string)
         (parseTestParams (testRequest "8" "init")) emptyWorld
       = (Returned tt, w')
       ∧ statusCode (rw w') = 200
       ∧ body (rw w') = initBody p
       ∧ p ∈ ["a"; "b"]%string).
Proof.
  assert (H0 : unwritten (rw emptyWorld)) by (split; reflexivity).
  split; [exact H0|]. split.
  - destruct (test_request_version_and_init (corsHandler ["a"; "b"]%string)
                (testRequest "7" "init") emptyWorld H0) as [Hver _].
    destruct Hver as (w' & Hrun & Hstatus & _).
    + vm_compute. discriminate.
    + exists w'. split; assumption.
  - destruct (test_request_version_and_init (corsHandler ["a"; "b"]%string)
                (testRequest "8" "init") emptyWorld H0) as [_ Hinit].
    destruct Hinit as (w' & p & Hrun & Hstatus & Hbody & _ & _ & Hin & _).
    + reflexivity.
    + reflexivity.
    + intros i [= <-]. discriminate.
    + exists w', p. split; [exact Hrun|]. split; [exact Hstatus|].
      split; [exact Hbody|]. exact (Hin _ eq_refl).
Defined.

(** C7 as stated fails for a handler whose list of prefixes is empty:
    the handler panics and no body is written. *)
Lemma test_init_without_prefixes_panics :
  ¬ testInitStated (corsHandler []) (testRequest "8" "init") emptyWorld.
Proof.
  intros Hstated.
  destruct (Hstated unwritten_emptyResponse eq_refl eq_refl)
    as (w' & p & Hrun & _).
  vm_compute in Hrun. discriminate Hrun.
Qed.

(** Nor is the body a JSON array when the chosen prefix has a quotation
    mark. *)
Example test_init_quote_in_prefix :
  let h := corsHandler [String "a" (dquote +:+ "b")] in
  let w' := (handleTestRequest h (parseTestParams (testRequest "8" "init"))
               emptyWorld).2 in
  body (rw w') = initBody (String "a" (dquote +:+ "b"))
  ∧ decodeStringArray (body (rw w')) = None.
Proof. vm_compute. done. Qed.

Lemma del_once_witness :
  (channelMap.del (channels sessionWorld) sidA).2 = true
  ∧ ∃ (w' : World) (evs : list Event),
      removeClosedSession [sidA; sidA] sessionWorld = (Returned tt, w')
      ∧ trace w' = trace sessionWorld ++ evs
      ∧ channels w' !! sidA = None
      ∧ countEvents (isRemoval sidA) evs = 1%nat
      ∧ countEvents (isMissedRemoval sidA) evs = 1%nat.
Proof.
  destruct (del_once (channels sessionWorld) sidA [sidA; sidA] sessionWorld)
    as (Hdel & _ & _ & w' & evs & Hrun & Htrace & Hgone & _ & Hcount & Hall).
  split; [apply Hdel; vm_compute; eauto|].
  exists w', evs. split; [exact Hrun|]. split; [exact Htrace|].
  split.
  { apply Hgone. apply elem_of_cons. by left. }
  specialize (Hcount sidA). specialize (Hall sidA).
  rewrite decide_True in Hcount.
  - split; [exact Hcount|]. rewrite Hcount in Hall. simpl in Hall.
    vm_compute in Hall. vm_compute. congruence.
  - split; [apply elem_of_cons; by left|]. vm_compute. eauto.
Defined.

Lemma getHostPrefix_needs_prefixes_witness :
  (∃ p : string,
     p ∈ ["a"; "b"]%string
     ∧ getHostPrefix (corsInfo (corsHandler ["a"; "b"]%string)) emptyWorld
       = (Returned p, setRandPos 1 emptyWorld))
  ∧ getHostPrefix (corsInfo (corsHandler [])) emptyWorld
    = (Panicked "invalid argument to Intn", emptyWorld).
Proof.
  split.
  - destruct (getHostPrefix_needs_prefixes
                (corsInfo (corsHandler ["a"; "b"]%string)) emptyWorld)
      as (_ & Hsome & _).
    destruct (Hsome _ eq_refl) as (p & Hin & Hrun); [discriminate|].
    exists p. split; [exact Hin|exact Hrun].
  - destruct (getHostPrefix_needs_prefixes (corsInfo (corsHandler []))
                emptyWorld) as (_ & _ & Hempty & _).
    exact (Hempty _ eq_refl eq_refl).
Defined.

(** The first request of a client makes the session and carries the
    initial array; the next one, with a map, gets the state of the
    channel. *)
Example first_requests :
  let first := request "POST" [("VER", "8"); ("zx", "zx1")]%string "count=0&ofs=0" in
  let w1 := (ServeHTTP NewHandler first emptyWorld).2 in
  let second :=
    request "POST" [("VER", "8"); ("SID", sidA); ("AID", "1")]%string
      "count=1&ofs=0&req0_x=hello" in
  let w2 := (ServeHTTP NewHandler second (setRw emptyResponse w1)).2 in
  channelMap.get (channels w1) sidA = Some 1%positive
  ∧ statusCode (rw w1) = 200
  ∧ body (rw w1)
    = "51" +:+ nl +:+ "[[1,[" +:+ dquote +:+ "c" +:+ dquote +:+ "," +:+ dquote
      +:+ sidA +:+ dquote +:+ "," +:+ dquote +:+ dquote +:+ ",8]]]"
  ∧ statusCode (rw w2) = 200
  ∧ body (rw w2)
    = "65" +:+ nl +:+ "{" +:+ dquote +:+ "hasBackChannel" +:+ dquote
      +:+ ":false," +:+ dquote +:+ "lastSentArrayId" +:+ dquote +:+ ":1,"
      +:+ dquote +:+ "outstandingBytes" +:+ dquote +:+ ":0}".
Proof. vm_compute. done. Qed.

(** A request for a session the handler does not know. *)
Example unknown_session_request :
  let req := request "POST" [("VER", "8"); ("SID", sidUnknown)]%string "" in
  let w' := (ServeHTTP NewHandler req emptyWorld).2 in
  statusCode (rw w') = 400 ∧ body (rw w') = "Unknown SID"%string
  ∧ channels w' = ∅ ∧ heap w' = ∅.
Proof. vm_compute. done. Qed.
End scenario.

(** * The whole handler *)

(** ** Relations between the worlds of a computation *)

Global Instance frame_atomic (R : World → World → Prop) `{!Frame R} : Atomic R.
Proof.
  split.
  - intros ops w. apply frame; by destruct w.
  - intros e w. apply frame; by destruct w.
  - intros n w. unfold Intn. destruct (n <=? 0); apply frame; by destruct w.
Qed.

Section relations.
Context {R : World → World → Prop} `{!Reflexive R} `{!Transitive R}
  `{!Atomic R}.

Lemma relates_mret {A : Type} (a : A) : relates R (mret a).
Proof. intros w. reflexivity. Qed.

Lemma relates_panic {A : Type} (msg : string) : relates R (@panic A msg).
Proof. intros w. reflexivity. Qed.

Lemma relates_bind {A B : Type} (m : M A) (f : A → M B) :
  relates R m → (∀ a, relates R (f a)) → relates R (m ≫= f).
Proof.
  intros Hm Hf w. unfold mbind, M_bind. specialize (Hm w).
  destruct (m w) as [[a|msg] w1]; simpl in *; [|done].
  etransitivity; [exact Hm|apply Hf].
Qed.

Lemma relates_write (ops : list RwOp) : relates R (write ops).
Proof. apply atomic_write. Qed.

Lemma relates_emit (e : Event) : relates R (emit e).
Proof. apply atomic_emit. Qed.

Lemma relates_sleep (seconds : Z) : relates R (sleep seconds).
Proof. intros w. apply atomic_emit. Qed.

Lemma relates_deref (c : ChannelPtr) : relates R (deref c).
Proof.
  intros w. unfold deref. destruct c as [l|]; [|reflexivity].
  destruct (heap w !! l); reflexivity.
Qed.

Lemma relates_channelsGet (sid : SessionId) : relates R (channelsGet sid).
Proof. intros w. reflexivity. Qed.

Lemma relates_Intn (n : Z) : relates R (Intn n).
Proof. apply atomic_Intn. Qed.

Lemma relates_indexSlice (s : list string) (i : Z) : relates R (indexSlice s i).
Proof.
  unfold indexSlice. destruct (i <? 0); [apply relates_panic|].
  destruct (s !! Z.to_nat i); [apply relates_mret|apply relates_panic].
Qed.

Lemma relates_getHostPrefix (info : option crossDomainInfo.t) :
  relates R (getHostPrefix info).
Proof.
  unfold getHostPrefix. destruct info as [i|]; [|apply relates_mret].
  apply relates_bind; [apply relates_Intn|intros n; apply relates_indexSlice].
Qed.
End relations.

Global Instance sameOthers_refl (l : loc) : Reflexive (sameOthers l).
Proof. by intros w. Qed.

Global Instance sameOthers_trans (l : loc) : Transitive (sameOthers l).
Proof.
  intros w1 w2 w3 [H1 H2] [H3 H4]. split; [congruence|].
  intros l' Hne. by rewrite H4, H2.
Qed.

Global Instance grows_refl : Reflexive grows.
Proof. intros w. split; [done|]. intros sid l Hl. by left. Qed.

Global Instance grows_trans : Transitive grows.
Proof.
  intros w1 w2 w3 [H1 H2] [H3 H4]. split; [by auto|].
  intros sid l Hl. destruct (H4 sid l Hl) as [Hold|Hnew]; [|by right].
  destruct (H2 sid l Hold) as [Hold'|Hnew]; [by left|]. right. by apply H3.
Qed.

Global Instance sameOthers_frame (l : loc) : Frame (sameOthers l).
Proof. intros w w' Hc Hh. split; [done|]. intros l' _. by rewrite Hh. Qed.

Global Instance grows_frame : Frame grows.
Proof.
  intros w w' Hc Hh. split; [by rewrite Hh|].
  intros sid l Hl. left. by rewrite <- Hc.
Qed.
Ltac relates_step :=
  match goal with
  | |- relates _ (_ ≫= _) => apply relates_bind; [|intros ?]
  | |- relates _ (mret _) => apply relates_mret
  | |- relates _ (panic _) => apply relates_panic
  | |- relates _ (write _) => apply relates_write
  | |- relates _ (emit _) => apply relates_emit
  | |- relates _ (logPrintf _) => apply relates_emit
  | |- relates _ (sleep _) => apply relates_sleep
  | |- relates _ (deref _) => apply relates_deref
  | |- relates _ (channelsGet _) => apply relates_channelsGet
  | |- relates _ (getHostPrefix _) => apply relates_getHostPrefix
  | |- relates _ (let '(_, _) := ?x in _) => destruct x
  | |- relates _ (match ?x with _ => _ end) => destruct x
  | |- relates _ (if ?x then _ else _) => destruct x
  end.


(** ** The calls on the channel of a request *)

Section channel_calls.
Context `{Package}.
Context {R : World → World → Prop} `{!Reflexive R} `{!Transitive R}
  `{!Atomic R}.
Variable channel : ChannelPtr.

(** [R] allows the Channel object of the request to change. *)
Hypothesis stores : ∀ (l : loc) (ch : Channel),
  channel = Some l → relates R (store l ch).

Lemma relates_deref_bind {A : Type} (k : loc * Channel → M A) :
  (∀ (l : loc) (ch : Channel), channel = Some l → relates R (k (l, ch))) →
  relates R (deref channel ≫= k).
Proof.
  intros Hk w. unfold mbind, M_bind, deref.
  destruct channel as [l|]; [|reflexivity].
  destruct (heap w !! l) as [ch|]; [|reflexivity].
  by apply Hk.
Qed.

Lemma relates_callAcknowledgeArrays (aid : Z) :
  relates R (callAcknowledgeArrays channel aid).
Proof.
  apply relates_deref_bind. intros l ch Hl.
  apply relates_bind; [apply relates_emit|intros _; by apply stores].
Qed.

Lemma relates_callReceiveMaps (offset : Z) (maps : list Map) :
  relates R (callReceiveMaps channel offset maps).
Proof.
  apply relates_deref_bind. intros l ch Hl.
  apply relates_bind; [apply relates_emit|intros _].
  destruct (receiveMaps ch offset maps) as [ch' err].
  apply relates_bind; [by apply stores|intros _; apply relates_mret].
Qed.

Lemma relates_callGetState : relates R (callGetState channel).
Proof.
  apply relates_deref_bind. intros l ch Hl.
  apply relates_bind; [apply relates_emit|intros _; apply relates_mret].
Qed.

Lemma relates_callSetBackChannel (bc : backChannel.t) :
  relates R (callSetBackChannel channel bc).
Proof.
  apply relates_deref_bind. intros l ch Hl.
  apply relates_bind; [apply relates_emit|intros _].
  destruct (setBackChannel ch bc) as [ch' ops].
  apply relates_bind; [by apply stores|intros _; apply relates_write].
Qed.

Lemma relates_callWait (bc : backChannel.t) : relates R (callWait bc).
Proof.
  apply relates_bind; [apply relates_emit|intros _; apply relates_write].
Qed.

Lemma relates_callTerminate : relates R (callTerminate channel).
Proof.
  apply relates_deref_bind. intros l ch Hl.
  apply relates_bind; [apply relates_emit|intros _; by apply stores].
Qed.

Lemma relates_handleBindPost (params : bindParams.t) :
  relates R (handleBindPost params channel).
Proof.
  unfold handleBindPost.
  destruct (parseIncomingMaps (bindParams.values params)) as [[offset maps] err].
  destruct err as [e|]; [apply relates_write|].
  apply relates_bind; [apply relates_callReceiveMaps|intros err].
  destruct err as [e|].
  - apply relates_bind; [apply relates_deref|intros [l ch]].
    repeat relates_step.
  - apply relates_bind; [apply relates_deref|intros [l ch]].
    destruct (decide (state ch = channelInit)).
    + do 3 (apply relates_bind; [apply relates_write|intros _]).
      apply relates_bind; [apply relates_callSetBackChannel|intros _].
      apply relates_callWait.
    + apply relates_bind; [apply relates_callGetState|intros b].
      repeat relates_step.
Qed.

Lemma relates_handleBindGet (params : bindParams.t) :
  relates R (handleBindGet params channel).
Proof.
  unfold handleBindGet.
  destruct (decide (bindParams.qtype params = queryTerminate));
    [apply relates_callTerminate|].
  do 4 (apply relates_bind; [apply relates_write|intros _]).
  apply relates_bind; [apply relates_deref|intros [l ch]].
  apply relates_bind; [apply relates_callSetBackChannel|intros _].
  apply relates_callWait.
Qed.

Lemma relates_dispatchMethod (params : bindParams.t) :
  relates R (dispatchMethod params channel).
Proof.
  unfold dispatchMethod.
  destruct (String.eqb (bindParams.method params) "POST");
    [apply relates_handleBindPost|].
  destruct (String.eqb (bindParams.method params) "GET");
    [apply relates_handleBindGet|apply relates_write].
Qed.

Lemma relates_acknowledgeAndDispatch (params : bindParams.t) :
  relates R (acknowledgeAndDispatch params channel).
Proof.
  unfold acknowledgeAndDispatch.
  apply relates_bind; [|intros _; apply relates_dispatchMethod].
  destruct (negb (bindParams.aid params =? -1));
    [apply relates_callAcknowledgeArrays|apply relates_mret].
Qed.
End channel_calls.

Lemma sameOthers_store (l : loc) (ch : Channel) :
  relates (sameOthers l) (store l ch).
Proof.
  intros w. destruct w as [r chs hp tr rd rp en]. split; [done|].
  intros l' Hne. simpl. by rewrite lookup_insert_ne.
Qed.

Lemma grows_store (l : loc) (ch : Channel) : relates grows (store l ch).
Proof.
  intros w. destruct w as [r chs hp tr rd rp en]. split; simpl.
  - intros l' Hl'. destruct (decide (l' = l)) as [->|Hne].
    + by rewrite lookup_insert_eq.
    + by rewrite lookup_insert_ne.
  - intros sid l' Hl'. by left.
Qed.

Lemma grows_wellFormed (w w' : World) :
  grows w w' → wellFormed w → wellFormed w'.
Proof.
  intros [Hheap Hmap] Hwf sid l Hl.
  destruct (Hmap sid l Hl) as [Hold|Hnew]; [|done].
  apply Hheap. by eapply Hwf.
Qed.

Section whole_handler.
Context `{Package}.

(** ** The origin of a request *)

Lemma afterOrigin_fields (h : Handler) (req : Request) (w : World) :
  channels (afterOrigin h req w) = channels w
  ∧ heap (afterOrigin h req w) = heap w
  ∧ trace (afterOrigin h req w) = trace w
  ∧ rand (afterOrigin h req w) = rand w
  ∧ randPos (afterOrigin h req w) = randPos w
  ∧ entropy (afterOrigin h req w) = entropy w
  ∧ wrote (rw (afterOrigin h req w)) = wrote (rw w)
  ∧ body (rw (afterOrigin h req w)) = body (rw w).
Proof.
  unfold afterOrigin. destruct (originAllowed h req); [|done].
  by destruct w as [[hd wr bd fl] chs hp tr rd rp en].
Qed.

(** [ServeHTTP] looks at the origin first and never again. *)
Lemma ServeHTTP_origin_split (h : Handler) (req : Request) (w : World) :
  ServeHTTP h req w = ServeHTTP h (withOrigin "" req) (afterOrigin h req w).
Proof.
  unfold ServeHTTP at 1, afterOrigin, originAllowed, corsHeaders.
  unfold mbind at 1. unfold M_bind at 1.
  destruct ((0 <? len (Origin req))
            && match corsInfo h with
               | Some info => crossDomainInfo.hostMatcher info (Origin req)
               | None => false
               end); reflexivity.
Qed.

(** X1.  The origin of a request only decides two headers.  [ServeHTTP]
    sets Access-Control-Allow-Origin to the origin, and
    Access-Control-Allow-Credentials to [true], exactly when the origin
    is not empty and the handler has cross domain information whose
    matcher accepts it; no other header, no status and no body is written
    for it, nothing else of the world changes, and the rest of the
    request is served as the same request without origin would be. *)
Theorem origin_only_sets_cors_headers (h : Handler) (req : Request) (w : World) :
  let allowed := originAllowed h req in
  let w1 := afterOrigin h req w in
  ServeHTTP h req w = ServeHTTP h (withOrigin "" req) w1
  ∧ (allowed = false → w1 = w)
  ∧ (allowed = true →
       header (rw w1) !! "Access-Control-Allow-Origin"%string = Some (Origin req)
       ∧ header (rw w1) !! "Access-Control-Allow-Credentials"%string
         = Some "true"%string
       ∧ (∀ k : string,
            k ≠ "Access-Control-Allow-Origin"%string →
            k ≠ "Access-Control-Allow-Credentials"%string →
            header (rw w1) !! k = header (rw w) !! k)
       ∧ wrote (rw w1) = wrote (rw w)
       ∧ body (rw w1) = body (rw w)
       ∧ setRw (rw w) w1 = w)
  ∧ (allowed = true ↔
       Origin req ≠ ""%string
       ∧ ∃ info : crossDomainInfo.t,
           corsInfo h = Some info
           ∧ crossDomainInfo.hostMatcher info (Origin req) = true).
Proof.
  intros allowed w1. split; [apply ServeHTTP_origin_split|].
  subst allowed w1. unfold afterOrigin.
  split; [by intros ->|]. split.
  - intros ->. destruct w as [[hd wr bd fl] chs hp tr rd rp en]. simpl.
    unfold corsHeaders, applyRwOps. simpl.
    split; [by simplify_map_eq|]. split; [by simplify_map_eq|].
    split; [|done]. intros k H1 H2. by simplify_map_eq.
  - unfold originAllowed. rewrite andb_true_iff. split.
    + intros [Hlen Hm]. split.
      * intros Heq. rewrite Heq in Hlen. done.
      * destruct (corsInfo h) as [info|]; [|done]. by exists info.
    + intros [Hne (info & -> & Hm)]. split; [|done].
      destruct (Origin req); [done|]. done.
Qed.

(** ** Routes *)

(** What [ServeHTTP] does once it has dealt with the origin. *)
Lemma ServeHTTP_routes (h : Handler) (req : Request) (w : World) :
  ServeHTTP h req w
  = (let '(values, err) := parseBody (Body req) in
     match err with
     | Some _ => write [WriteHeader 400]
     | None =>
         if HasSuffix (Path req) (testPath h) then
           handleTestRequest h (parseTestParams req)
         else if HasSuffix (Path req) (bindPath h) then
           let '(params, err) := parseBindParams req values in
           match err with
           | Some _ => write [WriteHeader 400]
           | None =>
               match params with
               | Some p => handleBindRequest h p
               | None => panic "nil pointer dereference"
               end
           end
         else write [WriteHeader 404]
     end) (afterOrigin h req w).
Proof. rewrite ServeHTTP_origin_split. reflexivity. Qed.

(** ** Test requests *)

Lemma setContentType_header (qtype : queryType) :
  setContentType qtype
  = HeaderSet "Content-Type"
      (if bool_decide (qtype = queryHtml) then "text/html" else "text/plain").
Proof.
  unfold setContentType. destruct (decide (qtype = queryHtml)).
  - by rewrite bool_decide_true.
  - by rewrite bool_decide_false.
Qed.

(** The run of a test request of version 8 that is not in init mode. *)
Lemma handleTestRequest_stream (h : Handler) (params : testParams.t) (w : World) :
  testParams.ver params = SupportedProcolVersion →
  testParams.init params = false →
  handleTestRequest h params w
  = (Returned tt,
     setRw (applyRwOps (firstPhase params (rw w)) (secondToken params))
       (setTrace (trace w ++ [EvSleep 2 (firstPhase params (rw w))]) w)).
Proof.
  intros Hver Hinit. unfold handleTestRequest. rewrite Hver, Hinit. simpl.
  rewrite setContentType_header.
  unfold firstPhase, testFraming, firstToken, secondToken.
  destruct w as [r chs hp tr rd rp en].
  unfold mbind, M_bind, write, sleep, emit. simpl.
  destruct (decide (testParams.qtype params = queryHtml)) as [Hq|Hq].
  - rewrite bool_decide_true by done. simpl.
    rewrite <- ?applyRwOps_app, <- ?app_assoc. simpl.
    by rewrite <- ?app_assoc.
  - rewrite bool_decide_false by done. simpl.
    rewrite <- ?applyRwOps_app, <- ?app_assoc. simpl.
    by rewrite <- ?app_assoc.
Qed.

Lemma handleTestRequest_world (h : Handler) (params : testParams.t) (w : World) :
  channels (handleTestRequest h params w).2 = channels w
  ∧ heap (handleTestRequest h params w).2 = heap w
  ∧ entropy (handleTestRequest h params w).2 = entropy w
  ∧ trace (handleTestRequest h params w).2
    = trace w ++ testEvents params (rw w).
Proof.
  unfold testEvents.
  destruct (Z.eqb_spec (testParams.ver params) SupportedProcolVersion)
    as [Hver|Hver]; simpl.
  - destruct (testParams.init params) eqn:Hinit; simpl.
    + destruct w as [r chs hp tr rd rp en].
      unfold handleTestRequest. rewrite Hver, Hinit. simpl.
      unfold mbind, M_bind, write, getHostPrefix, Intn, indexSlice. simpl.
      destruct (corsInfo h) as [i|]; simpl; [|by rewrite app_nil_r].
      destruct (Z.of_nat (List.length (crossDomainInfo.prefixes i)) <=? 0);
        simpl; [by rewrite app_nil_r|].
      unfold mbind, M_bind. simpl.
      match goal with |- context [if ?c then _ else _] => destruct c end;
        simpl; [by rewrite app_nil_r|].
      match goal with |- context [crossDomainInfo.prefixes i !! ?k] =>
        destruct (crossDomainInfo.prefixes i !! k) end;
        simpl; by rewrite app_nil_r.
    + rewrite handleTestRequest_stream by done. by destruct w.
  - unfold handleTestRequest. apply Z.eqb_neq in Hver. rewrite Hver. simpl.
    destruct w. simpl. by rewrite app_nil_r.
Qed.

(** X2.  A test request leaves the sessions alone.  For a request whose
    body parses and whose path ends with the test path, the session map,
    the Channel objects and the entropy of the session ids are what they
    were, also when the handler panics; the only event is the pause of
    two seconds of a request of version 8 that is not in init mode, made
    when the status, the first token and the flush of the first phase are
    on the response. *)
Theorem test_request_leaves_sessions (h : Handler) (req : Request) (w : World)
    (values : Values) :
  parseBody (Body req) = (values, None) →
  HasSuffix (Path req) (testPath h) = true →
  channels (ServeHTTP h req w).2 = channels w
  ∧ heap (ServeHTTP h req w).2 = heap w
  ∧ entropy (ServeHTTP h req w).2 = entropy w
  ∧ trace (ServeHTTP h req w).2
    = trace w ++ testEvents (parseTestParams req) (rw (afterOrigin h req w)).
Proof.
  intros Hbody Htest. rewrite ServeHTTP_routes, Hbody, Htest.
  destruct (afterOrigin_fields h req w) as (Hc & Hh & Ht & _ & _ & He & _).
  destruct (handleTestRequest_world h (parseTestParams req) (afterOrigin h req w))
    as (-> & -> & -> & ->).
  by rewrite Hc, Hh, Ht, He.
Qed.

(** X3.  The two phases of a test request.  For version 8 and a mode
    other than init the handler returns, and it goes to sleep for two
    seconds exactly once, between two phases.  When it goes to sleep the
    response is the one the first phase leaves: the content type
    (text/html exactly for TYPE [html]), the headers of the table and
    status 200, then the first token (for HTML the head, the domain, the
    token as a script call and the padding), then a flush.  The second
    token (for HTML followed by the end of the page) is written after
    the sleep, on that response.  On a response not yet written the
    status 200 is sent before the sleep, and without HTML the body is
    [11111] when the handler goes to sleep, the one flush made until then
    has delivered exactly [11111] to the client, and at the end the body
    is [111112] with no other flush. *)
Theorem test_request_two_phases (h : Handler) (params : testParams.t)
    (w : World) :
  testParams.ver params = SupportedProcolVersion →
  testParams.init params = false →
  let html := bool_decide (testParams.qtype params = queryHtml) in
  let asleep := firstPhase params (rw w) in
  let w' := setRw (applyRwOps asleep (secondToken params))
              (setTrace (trace w ++ [EvSleep 2 asleep]) w) in
  handleTestRequest h params w = (Returned tt, w')
  ∧ trace w' = trace w ++ [EvSleep 2 asleep]
  ∧ rw w' = applyRwOps asleep (secondToken params)
  ∧ (unwritten (rw w) →
       wrote asleep = Some (200, sentHeader (rw w'))
       ∧ statusCode (rw w') = 200
       ∧ sentHeader (rw w') !! "Content-Type"%string
         = Some (if html then "text/html" else "text/plain")%string
       ∧ (html = false →
            body asleep = "11111"%string
            ∧ flushed asleep = flushed (rw w) ++ ["11111"%string]
            ∧ body (rw w') = "111112"%string
            ∧ flushed (rw w') = flushed (rw w) ++ ["11111"%string])).
Proof.
  intros Hver Hinit html asleep w'.
  split; [by apply handleTestRequest_stream|].
  split; [by destruct w|]. split; [by destruct w|].
  intros [Hw Hb]. subst w' asleep.
  destruct w as [[hd wr bd fl] chs hp tr rd rp en].
  simpl in Hw, Hb. subst wr bd. simpl.
  set (r := {| header := hd; wrote := None; body := ""; flushed := fl |}).
  assert (Hsent : wrote (applyRwOps r (testFraming params))
                  = Some (200, header (applyRwOps r (testFraming params)))).
  { unfold testFraming. subst r. fold html. by destruct html. }
  assert (Hfirst : wrote (firstPhase params r)
                   = Some (200, header (applyRwOps r (testFraming params)))).
  { unfold firstPhase. rewrite !applyRwOps_app.
    by do 2 apply wrote_applyRwOps. }
  assert (Hlast : wrote (applyRwOps (firstPhase params r) (secondToken params))
                  = Some (200, header (applyRwOps r (testFraming params))))
    by (by apply wrote_applyRwOps).
  split; [|split; [|split]].
  - unfold sentHeader. by rewrite Hlast.
  - unfold statusCode. by rewrite Hlast.
  - unfold sentHeader. rewrite Hlast.
    unfold testFraming. subst r. fold html. destruct html; by simplify_map_eq.
  - intros Hhtml. subst html.
    unfold firstPhase, testFraming, firstToken, secondToken.
    rewrite Hhtml. done.
Qed.
End whole_handler.

(** ** The sessions of the handler *)

Section sessions.
Context `{Package}.

Lemma sessionCreated_sessions (h : Handler) (cver : string) (w : World) :
  channels (sessionCreated h cver w)
  = <[(generateSesionId (entropy w)).1.1 := Some (newLoc (heap w))]> (channels w)
  ∧ heap (sessionCreated h cver w)
    = <[newLoc (heap w) :=
          armChannelTimeout
            (newChannel cver (generateSesionId (entropy w)).1.1 (corsInfo h))]>
        (heap w)
  ∧ rw (sessionCreated h cver w) = rw w.
Proof.
  unfold sessionCreated. by destruct (generateSesionId (entropy w)) as [[sid e] rest].
Qed.

Lemma grows_sessionCreated (h : Handler) (cver : string) (w : World) :
  grows w (sessionCreated h cver w).
Proof.
  destruct (sessionCreated_sessions h cver w) as (Hc & Hh & _).
  split.
  - intros l Hl. rewrite Hh.
    destruct (decide (l = newLoc (heap w))) as [->|Hne].
    + by rewrite lookup_insert_eq.
    + by rewrite lookup_insert_ne.
  - intros sid l Hl. rewrite Hc in Hl. rewrite Hh.
    apply lookup_insert_Some in Hl as [[_ [= <-]]|[_ Hl]]; [right|by left].
    by rewrite lookup_insert_eq.
Qed.

(** The lookup of a session id for which the session map has no channel:
    no entry, or an entry that holds nil. *)
Lemma handleBindRequest_nil (h : Handler) (params : bindParams.t) (w : World) :
  bindParams.sid params ≠ nullSessionId →
  channelMap.get (channels w) (bindParams.sid params) = None →
  handleBindRequest h params w
  = (Returned tt,
     setRw (applyRwOps (rw w)
              (setHeaders headers ++ [WriteHeader 400; WriteString "Unknown SID"]))
       (setTrace
          (trace w ++ [EvLog ("failed to lookup session "
                              +:+ bindParams.sid params +:+ nl)]) w)).
Proof.
  intros Hsid Hget. destruct w as [r chs hp tr rd rp en]. simpl in *.
  unfold handleBindRequest, lookupSession.
  rewrite bool_decide_true by done.
  unfold mbind, M_bind, channelsGet. simpl. rewrite Hget. simpl.
  by join_writes.
Qed.

Lemma handleBindRequest_get (h : Handler) (params : bindParams.t) (l : loc)
    (w : World) :
  bindParams.sid params ≠ nullSessionId →
  channelMap.get (channels w) (bindParams.sid params) = Some l →
  handleBindRequest h params w = acknowledgeAndDispatch params (Some l) w.
Proof.
  intros Hsid Hget. apply handleBindRequest_found; [done|].
  unfold channelMap.get in Hget.
  by destruct (channels w !! bindParams.sid params) as [[l'|]|]; simplify_eq/=.
Qed.

(** What a bind request does, by the three cases of its session id. *)
Lemma handleBindRequest_cases (h : Handler) (params : bindParams.t) (w : World) :
  (bindParams.sid params = nullSessionId
   ∧ handleBindRequest h params w
     = acknowledgeAndDispatch params (Some (newLoc (heap w)))
         (sessionCreated h (bindParams.cver params) w))
  ∨ (bindParams.sid params ≠ nullSessionId
     ∧ ∃ l : loc,
         channels w !! bindParams.sid params = Some (Some l)
         ∧ handleBindRequest h params w
           = acknowledgeAndDispatch params (Some l) w)
  ∨ (bindParams.sid params ≠ nullSessionId
     ∧ channelMap.get (channels w) (bindParams.sid params) = None
     ∧ channels (handleBindRequest h params w).2 = channels w
     ∧ heap (handleBindRequest h params w).2 = heap w
     ∧ ∃ w' : World, handleBindRequest h params w = (Returned tt, w')).
Proof.
  destruct (decide (bindParams.sid params = nullSessionId)) as [Hsid|Hsid].
  - left. split; [done|]. by apply handleBindRequest_absent.
  - right.
    destruct (channelMap.get (channels w) (bindParams.sid params)) as [l|] eqn:Hget.
    + left. split; [done|]. exists l. split.
      * unfold channelMap.get in Hget.
        by destruct (channels w !! bindParams.sid params) as [[l'|]|];
          simplify_eq/=.
      * by apply handleBindRequest_get.
    + right. split; [done|]. split; [done|].
      rewrite handleBindRequest_nil by done.
      split; [by destruct w|]. split; [by destruct w|]. by eexists.
Qed.

(** X4.  A bind request on a session of the map changes the Channel
    object of that session and nothing else of the sessions: the session
    map is what it was, and so is every other Channel object, whatever
    the method, the parameters and the outcome of the request. *)
Theorem bind_request_touches_one_channel (h : Handler) (params : bindParams.t)
    (l : loc) (w : World) :
  bindParams.sid params ≠ nullSessionId →
  channels w !! bindParams.sid params = Some (Some l) →
  channels (handleBindRequest h params w).2 = channels w
  ∧ ∀ l' : loc, l' ≠ l →
      heap (handleBindRequest h params w).2 !! l' = heap w !! l'.
Proof.
  intros Hsid Hget. rewrite (handleBindRequest_found h params l) by done.
  apply (relates_acknowledgeAndDispatch (R := sameOthers l) (Some l)).
  intros l' ch [= <-]. apply sameOthers_store.
Qed.

Lemma grows_handleBindRequest (h : Handler) (params : bindParams.t) :
  relates grows (handleBindRequest h params).
Proof.
  intros w.
  destruct (handleBindRequest_cases h params w)
    as [[_ ->]|[[_ (l & _ & ->)]|(_ & _ & Hc & Hh & _)]].
  - etransitivity; [apply grows_sessionCreated|].
    apply (relates_acknowledgeAndDispatch (R := grows)).
    intros l' ch _. apply grows_store.
  - apply (relates_acknowledgeAndDispatch (R := grows)).
    intros l' ch _. apply grows_store.
  - by apply grows_frame.
Qed.

Lemma grows_afterOrigin (h : Handler) (req : Request) (w : World) :
  grows w (afterOrigin h req w).
Proof.
  destruct (afterOrigin_fields h req w) as (Hc & Hh & _). by apply grows_frame.
Qed.

Lemma grows_ServeHTTP (h : Handler) (req : Request) :
  relates grows (ServeHTTP h req).
Proof.
  intros w. rewrite ServeHTTP_routes.
  transitivity (afterOrigin h req w); [apply grows_afterOrigin|].
  generalize (afterOrigin h req w). intros w1.
  destruct (parseBody (Body req)) as [values [e|]];
    [apply (relates_write (R := grows))|].
  destruct (HasSuffix (Path req) (testPath h)).
  { destruct (handleTestRequest_world h (parseTestParams req) w1)
      as (Hc & Hh & _).
    by apply grows_frame. }
  destruct (HasSuffix (Path req) (bindPath h));
    [|apply (relates_write (R := grows))].
  destruct (parseBindParams req values) as [params [e|]];
    [apply (relates_write (R := grows))|].
  destruct params as [p|]; [apply grows_handleBindRequest|reflexivity].
Qed.

(** X5.  If every pointer of the session map designates a Channel
    object before a request, so it does after it, whatever the request;
    and no Channel object is ever dropped by a request. *)
Theorem ServeHTTP_keeps_sessions_live (h : Handler) (req : Request) (w : World) :
  wellFormed w →
  wellFormed (ServeHTTP h req w).2
  ∧ ∀ l : loc, is_Some (heap w !! l) → is_Some (heap (ServeHTTP h req w).2 !! l).
Proof.
  intros Hwf. pose proof (grows_ServeHTTP h req w) as Hg.
  split; [by eapply grows_wellFormed|]. by destruct Hg.
Qed.

(** X6.  The session map changes on one kind of request only.  If a
    request leaves a session map that differs from the one it found, then
    its body parses, its path ends with the bind path and not with the
    test path, its bind parameters parse with the null session id, and
    the new map is the old one with the generated session id set to the
    new Channel object. *)
Theorem session_map_changes_only_for_new_session (h : Handler) (req : Request)
    (w : World) :
  channels (ServeHTTP h req w).2 ≠ channels w →
  ∃ (values : Values) (params : bindParams.t),
    parseBody (Body req) = (values, None)
    ∧ HasSuffix (Path req) (testPath h) = false
    ∧ HasSuffix (Path req) (bindPath h) = true
    ∧ parseBindParams req values = (Some params, None)
    ∧ bindParams.sid params = nullSessionId
    ∧ channels (ServeHTTP h req w).2
      = <[(generateSesionId (entropy w)).1.1 := Some (newLoc (heap w))]>
          (channels w).
Proof.
  rewrite ServeHTTP_routes.
  destruct (afterOrigin_fields h req w) as (Hc & Hh & _ & _ & _ & He & _).
  rewrite <- Hc, <- Hh, <- He. generalize (afterOrigin h req w). intros w1.
  destruct (parseBody (Body req)) as [values [e|]] eqn:Hbody;
    [intros Hne; exfalso; apply Hne; by destruct w1|].
  destruct (HasSuffix (Path req) (testPath h)) eqn:Htest.
  { intros Hne. exfalso. apply Hne.
    by destruct (handleTestRequest_world h (parseTestParams req) w1) as (? & _). }
  destruct (HasSuffix (Path req) (bindPath h)) eqn:Hbind;
    [|intros Hne; exfalso; apply Hne; by destruct w1].
  destruct (parseBindParams req values) as [params [e|]] eqn:Hparams;
    [intros Hne; exfalso; apply Hne; by destruct w1|].
  destruct params as [p|]; [|intros Hne; exfalso; apply Hne; by destruct w1].
  intros Hne. exists values, p. do 4 (split; [done|]).
  destruct (handleBindRequest_cases h p w1)
    as [[Hsid Hrun]|[[Hsid (l & Hget & Hrun)]|(_ & _ & Hsame & _)]].
  - split; [done|]. rewrite Hrun.
    destruct (sessionCreated_sessions h (bindParams.cver p) w1) as (Hc1 & _).
    rewrite <- Hc1.
    apply (relates_acknowledgeAndDispatch (R := sameOthers (newLoc (heap w1)))
             (Some (newLoc (heap w1)))).
    intros l' ch [= <-]. apply sameOthers_store.
  - exfalso. apply Hne. rewrite Hrun.
    apply (relates_acknowledgeAndDispatch (R := sameOthers l) (Some l)).
    intros l' ch [= <-]. apply sameOthers_store.
  - exfalso. by apply Hne.
Qed.
End sessions.

(** ** Panics *)

Section live.
Context `{Package}.
Variable l : loc.

Lemma returnsLive_mret {A : Type} (a : A) : returnsLive l (mret a).
Proof. intros w Hl. by exists a, w. Qed.

Lemma returnsLive_bind {A B : Type} (m : M A) (k : A → M B) :
  returnsLive l m → (∀ a : A, returnsLive l (k a)) → returnsLive l (m ≫= k).
Proof.
  intros Hm Hk w Hl. destruct (Hm w Hl) as (a & w1 & Hrun & Hl1).
  unfold mbind, M_bind. rewrite Hrun. by apply Hk.
Qed.

Lemma returnsLive_write (ops : list RwOp) : returnsLive l (write ops).
Proof. intros w Hl. eexists _, _. split; [done|]. by destruct w. Qed.

Lemma returnsLive_emit (e : Event) : returnsLive l (emit e).
Proof. intros w Hl. eexists _, _. split; [done|]. by destruct w. Qed.

Lemma returnsLive_store (l' : loc) (ch : Channel) : returnsLive l (store l' ch).
Proof.
  intros w Hl. eexists _, _. split; [done|].
  destruct w as [r chs hp tr rd rp en]. simpl in *.
  destruct (decide (l = l')) as [->|Hne].
  - by rewrite lookup_insert_eq.
  - by rewrite lookup_insert_ne.
Qed.

Lemma returnsLive_deref : returnsLive l (deref (Some l)).
Proof.
  intros w [ch Hl]. exists (l, ch), w. unfold deref. rewrite Hl.
  split; [done|]. by exists ch.
Qed.

Lemma returnsLive_callAcknowledgeArrays (aid : Z) :
  returnsLive l (callAcknowledgeArrays (Some l) aid).
Proof.
  apply returnsLive_bind; [apply returnsLive_deref|intros [l' ch]].
  apply returnsLive_bind; [apply returnsLive_emit|intros _].
  apply returnsLive_store.
Qed.

Lemma returnsLive_callReceiveMaps (offset : Z) (maps : list Map) :
  returnsLive l (callReceiveMaps (Some l) offset maps).
Proof.
  apply returnsLive_bind; [apply returnsLive_deref|intros [l' ch]].
  apply returnsLive_bind; [apply returnsLive_emit|intros _].
  destruct (receiveMaps ch offset maps) as [ch' err].
  apply returnsLive_bind; [apply returnsLive_store|intros _].
  apply returnsLive_mret.
Qed.

Lemma returnsLive_callGetState : returnsLive l (callGetState (Some l)).
Proof.
  apply returnsLive_bind; [apply returnsLive_deref|intros [l' ch]].
  apply returnsLive_bind; [apply returnsLive_emit|intros _].
  apply returnsLive_mret.
Qed.

Lemma returnsLive_callSetBackChannel (bc : backChannel.t) :
  returnsLive l (callSetBackChannel (Some l) bc).
Proof.
  apply returnsLive_bind; [apply returnsLive_deref|intros [l' ch]].
  apply returnsLive_bind; [apply returnsLive_emit|intros _].
  destruct (setBackChannel ch bc) as [ch' ops].
  apply returnsLive_bind; [apply returnsLive_store|intros _].
  apply returnsLive_write.
Qed.

Lemma returnsLive_callWait (bc : backChannel.t) : returnsLive l (callWait bc).
Proof.
  apply returnsLive_bind; [apply returnsLive_emit|intros _].
  apply returnsLive_write.
Qed.

Lemma returnsLive_callTerminate : returnsLive l (callTerminate (Some l)).
Proof.
  apply returnsLive_bind; [apply returnsLive_deref|intros [l' ch]].
  apply returnsLive_bind; [apply returnsLive_emit|intros _].
  apply returnsLive_store.
Qed.

Lemma returnsLive_handleBindPost (params : bindParams.t) :
  returnsLive l (handleBindPost params (Some l)).
Proof.
  unfold handleBindPost.
  destruct (parseIncomingMaps (bindParams.values params)) as [[offset maps] err].
  destruct err as [e|]; [apply returnsLive_write|].
  apply returnsLive_bind; [apply returnsLive_callReceiveMaps|intros err].
  destruct err as [e|].
  - apply returnsLive_bind; [apply returnsLive_deref|intros [l' ch]].
    apply returnsLive_bind; [apply returnsLive_emit|intros _].
    apply returnsLive_write.
  - apply returnsLive_bind; [apply returnsLive_deref|intros [l' ch]].
    destruct (decide (state ch = channelInit)).
    + do 3 (apply returnsLive_bind; [apply returnsLive_write|intros _]).
      apply returnsLive_bind; [apply returnsLive_callSetBackChannel|intros _].
      apply returnsLive_callWait.
    + apply returnsLive_bind; [apply returnsLive_callGetState|intros b].
      do 3 (apply returnsLive_bind; [apply returnsLive_write|intros _]).
      apply returnsLive_write.
Qed.

Lemma returnsLive_handleBindGet (params : bindParams.t) :
  returnsLive l (handleBindGet params (Some l)).
Proof.
  unfold handleBindGet.
  destruct (decide (bindParams.qtype params = queryTerminate));
    [apply returnsLive_callTerminate|].
  do 4 (apply returnsLive_bind; [apply returnsLive_write|intros _]).
  apply returnsLive_bind; [apply returnsLive_deref|intros [l' ch]].
  apply returnsLive_bind; [apply returnsLive_callSetBackChannel|intros _].
  apply returnsLive_callWait.
Qed.

Lemma returnsLive_acknowledgeAndDispatch (params : bindParams.t) :
  returnsLive l (acknowledgeAndDispatch params (Some l)).
Proof.
  unfold acknowledgeAndDispatch.
  apply returnsLive_bind.
  - destruct (negb (bindParams.aid params =? -1));
      [apply returnsLive_callAcknowledgeArrays|apply returnsLive_mret].
  - intros _. unfold dispatchMethod.
    destruct (String.eqb (bindParams.method params) "POST");
      [apply returnsLive_handleBindPost|].
    destruct (String.eqb (bindParams.method params) "GET");
      [apply returnsLive_handleBindGet|apply returnsLive_write].
Qed.
End live.

Section panics.
Context `{Package}.

(** The bind parameters are there exactly when no error is. *)
Lemma parseBindParams_result (req : Request) (values : Values) :
  (∃ params : bindParams.t, parseBindParams req values = (Some params, None))
  ∨ (∃ e : error, parseBindParams req values = (None, Some e)).
Proof.
  unfold parseBindParams.
  destruct (parseSessionId (Get (Form req) "SID")) as [sid [e|]];
    [right; by exists e|].
  destruct (parseAid (Get (Form req) "AID")) as [aid [e|]];
    [right; by exists e|].
  left. by eexists.
Qed.

Lemma handleBindRequest_returns (h : Handler) (params : bindParams.t) (w : World) :
  wellFormed w → ∃ w' : World, handleBindRequest h params w = (Returned tt, w').
Proof.
  intros Hwf.
  destruct (handleBindRequest_cases h params w)
    as [[_ ->]|[[_ (l & Hget & ->)]|(_ & _ & _ & _ & Hret)]]; [| |done].
  - destruct (returnsLive_acknowledgeAndDispatch (newLoc (heap w)) params
                (sessionCreated h (bindParams.cver params) w))
      as ([] & w' & Hrun & _); [|by exists w'].
    destruct (sessionCreated_sessions h (bindParams.cver params) w)
      as (_ & -> & _).
    by rewrite lookup_insert_eq.
  - destruct (returnsLive_acknowledgeAndDispatch l params w)
      as ([] & w' & Hrun & _); [by eapply Hwf|by exists w'].
Qed.

Lemma handleTestRequest_panics (h : Handler) (params : testParams.t) (w : World) :
  (∃ (msg : string) (w' : World),
     handleTestRequest h params w = (Panicked msg, w'))
  ↔ testParams.ver params = SupportedProcolVersion
    ∧ testParams.init params = true
    ∧ ∃ info : crossDomainInfo.t,
        corsInfo h = Some info ∧ crossDomainInfo.prefixes info = [].
Proof.
  unfold handleTestRequest.
  destruct (Z.eqb_spec (testParams.ver params) SupportedProcolVersion)
    as [Hver|Hver]; simpl.
  2:{ split; [by intros (msg & w' & Hrun)|by intros [? _]]. }
  destruct (testParams.init params); simpl.
  2:{ split; [|by intros (_ & ? & _)].
      intros (msg & w' & Hrun). exfalso. revert Hrun.
      unfold mbind, M_bind, write, emit.
      by destruct (decide (testParams.qtype params = queryHtml)). }
  unfold mbind at 1. unfold M_bind at 1. simpl.
  unfold mbind, M_bind.
  destruct (corsInfo h) as [info|].
  2:{ rewrite getHostPrefix_none.
      split; [by intros (msg & w' & Hrun)|by intros (_ & _ & info & ? & _)]. }
  destruct (decide (crossDomainInfo.prefixes info = [])) as [Hnil|Hsome].
  - rewrite getHostPrefix_empty by done.
    split; [intros _; repeat split; by eauto|intros _; by eexists _, _].
  - destruct (getHostPrefix_some info
                (setRw (applyRwOps (rw w) [WriteHeader 200]) w) Hsome)
      as (p & _ & _ & ->).
    split; [by intros (msg & w' & Hrun)|].
    intros (_ & _ & info' & [= <-] & Hnil). done.
Qed.

(** X7.  The one panic of the handler.  When every pointer of the
    session map designates a Channel object, [ServeHTTP] panics exactly
    on a test request of version 8 in init mode for a handler whose
    cross domain information has an empty list of prefixes (the methods
    of Channel and the parsers of the package are functions here: they
    return).  In particular [params] is never nil when [parseBindParams]
    reports no error. *)
Theorem ServeHTTP_panics_only_on_empty_prefixes (h : Handler) (req : Request)
    (w : World) :
  wellFormed w →
  (∃ (msg : string) (w' : World), ServeHTTP h req w = (Panicked msg, w'))
  ↔ (parseBody (Body req)).2 = None
    ∧ HasSuffix (Path req) (testPath h) = true
    ∧ testParams.ver (parseTestParams req) = SupportedProcolVersion
    ∧ testParams.init (parseTestParams req) = true
    ∧ ∃ info : crossDomainInfo.t,
        corsInfo h = Some info ∧ crossDomainInfo.prefixes info = [].
Proof.
  intros Hwf. rewrite ServeHTTP_routes.
  assert (Hwf1 : wellFormed (afterOrigin h req w)).
  { eapply grows_wellFormed; [apply grows_afterOrigin|done]. }
  revert Hwf1. generalize (afterOrigin h req w). intros w1 Hwf1.
  destruct (parseBody (Body req)) as [values [e|]]; simpl.
  { split; [by intros (msg & w' & Hrun)|by intros [? _]]. }
  destruct (HasSuffix (Path req) (testPath h)).
  { rewrite handleTestRequest_panics. by intuition. }
  split; [|by intros (_ & ? & _)].
  intros (msg & w' & Hrun). exfalso. revert Hrun.
  destruct (HasSuffix (Path req) (bindPath h)); [|done].
  destruct (parseBindParams_result req values) as [[p ->]|[e ->]]; [|done].
  destruct (handleBindRequest_returns h p w1 Hwf1) as [w2 ->]. done.
Qed.
End panics.

(** ** The status of the response *)

Global Instance staysSent_refl : Reflexive staysSent.
Proof. intros w Hs. exact Hs. Qed.

Global Instance staysSent_trans : Transitive staysSent.
Proof. intros w1 w2 w3 H1 H2 Hs. by apply H2, H1. Qed.

Lemma statusSent_applyRwOps (w : World) (ops : list RwOp) :
  statusSent w → statusSent (setRw (applyRwOps (rw w) ops) w).
Proof.
  intros (code & hd & Hw & Hcode). exists code, hd. split; [|done].
  destruct w as [r chs hp tr rd rp en]. simpl in *. by apply wrote_applyRwOps.
Qed.

Global Instance staysSent_atomic : Atomic staysSent.
Proof.
  split.
  - intros ops w Hs. by apply statusSent_applyRwOps.
  - intros e w Hs. by destruct w.
  - intros n w Hs. unfold Intn. destruct (n <=? 0); by destruct w.
Qed.

Lemma staysSent_store (l : loc) (ch : Channel) : relates staysSent (store l ch).
Proof. intros w Hs. by destruct w. Qed.

Global Instance sameResponse_refl : Reflexive sameResponse.
Proof. by intros w. Qed.

Global Instance sameResponse_trans : Transitive sameResponse.
Proof. intros w1 w2 w3 H1 H2. unfold sameResponse in *. congruence. Qed.

Lemma statusOpen_applyRwOp (r : ResponseWriter) (op : RwOp) :
  goodOp op →
  wrote r = None
  ∨ (∃ (code : Z) (hd : gmap string string),
       wrote r = Some (code, hd) ∧ routeStatus code) →
  wrote (applyRwOp r op) = None
  ∨ (∃ (code : Z) (hd : gmap string string),
       wrote (applyRwOp r op) = Some (code, hd) ∧ routeStatus code).
Proof.
  intros Hop [Hnone|(code & hd & Hw & Hcode)].
  - destruct r as [hd wr bd fl]. simpl in Hnone. subst wr.
    destruct op as [k v|code|s|]; simpl.
    + by left.
    + right. by exists code, hd.
    + right. exists 200, hd. split; [done|]. by left.
    + right. exists 200, hd. split; [done|]. by left.
  - right. exists code, hd. split; [|done]. by apply wrote_applyRwOp.
Qed.

Lemma statusOpen_applyRwOps (w : World) (ops : list RwOp) :
  Forall goodOp ops →
  statusOpen w → statusOpen (setRw (applyRwOps (rw w) ops) w).
Proof.
  intros Hops Hopen.
  assert (Hr : wrote (applyRwOps (rw w) ops) = None
               ∨ (∃ (code : Z) (hd : gmap string string),
                    wrote (applyRwOps (rw w) ops) = Some (code, hd)
                    ∧ routeStatus code)).
  { unfold statusOpen, statusSent in Hopen. revert Hopen.
    generalize (rw w). induction Hops as [|op ops Hop Hops IH]; intros r Hr.
    - done.
    - rewrite applyRwOps_cons. apply IH. by apply statusOpen_applyRwOp. }
  by destruct w.
Qed.

Lemma goodOp_setHeaders (hs : list (string * string)) :
  Forall goodOp (setHeaders hs).
Proof. unfold setHeaders. apply Forall_fmap, Forall_forall. by intros [k v] _. Qed.

Section triples.
Context {P : World → Prop}.

Lemma triple_mret {A : Type} (a : A) : triple P (mret a) P.
Proof. by intros w Hw. Qed.

Lemma triple_bind {A B : Type} (m : M A) (k : A → M B) :
  triple P m P → (∀ a : A, triple P (k a) P) → triple P (m ≫= k) P.
Proof.
  intros Hm Hk w Hw. specialize (Hm w Hw). unfold mbind, M_bind.
  destruct (m w) as [[a|msg] w1]; simpl in *; [by apply Hk|done].
Qed.
End triples.

Lemma open_write (ops : list RwOp) :
  Forall goodOp ops → triple statusOpen (write ops) statusOpen.
Proof. intros Hops w Hw. by apply statusOpen_applyRwOps. Qed.

Lemma open_quiet {A : Type} (m : M A) :
  quiet m → triple statusOpen m statusOpen.
Proof.
  intros Hq w Hw. specialize (Hq w). unfold sameResponse in Hq.
  unfold statusOpen, statusSent in *. by rewrite Hq.
Qed.

(** Once the status is sent, what follows keeps it. *)
Lemma open_then_sent {B : Type} (code : Z) (k : M B) :
  routeStatus code →
  relates staysSent k →
  triple statusOpen (write [WriteHeader code];; k) statusOpen.
Proof.
  intros Hcode Hk w Hw. unfold mbind, M_bind. simpl.
  right. apply Hk.
  destruct w as [[hd wr bd fl] chs hp tr rd rp en].
  destruct Hw as [Hnone|(c & hd' & Hw & Hc)]; simpl in *.
  - subst wr. by exists code, hd.
  - subst wr. by exists c, hd'.
Qed.

Lemma quiet_emit (e : Event) : quiet (emit e).
Proof. intros w. by destruct w. Qed.

Lemma quiet_deref (c : ChannelPtr) : quiet (deref c).
Proof.
  intros w. unfold deref. destruct c as [l|]; [|done].
  by destruct (heap w !! l).
Qed.

Lemma quiet_store (l : loc) (ch : Channel) : quiet (store l ch).
Proof. intros w. by destruct w. Qed.

Lemma quiet_bind {A B : Type} (m : M A) (k : A → M B) :
  quiet m → (∀ a : A, quiet (k a)) → quiet (m ≫= k).
Proof.
  intros Hm Hk w. unfold mbind, M_bind. specialize (Hm w).
  destruct (m w) as [[a|msg] w1]; simpl in *; [|done].
  etransitivity; [exact Hm|apply Hk].
Qed.

Lemma quiet_mret {A : Type} (a : A) : quiet (mret a).
Proof. by intros w. Qed.

Ltac quiet_step :=
  match goal with
  | |- quiet (_ ≫= _) => apply quiet_bind; [|intros ?]
  | |- quiet (mret _) => apply quiet_mret
  | |- quiet (emit _) => apply quiet_emit
  | |- quiet (logPrintf _) => apply quiet_emit
  | |- quiet (deref _) => apply quiet_deref
  | |- quiet (store _ _) => apply quiet_store
  | |- quiet (let '(_, _) := ?x in _) => destruct x
  end.

Ltac sent_step :=
  match goal with
  | |- relates staysSent (store _ _) => apply staysSent_store
  | |- relates staysSent (callSetBackChannel _ _) =>
      apply relates_callSetBackChannel; intros; apply staysSent_store
  | |- relates staysSent (callWait _) => apply relates_callWait
  | _ => relates_step
  end.

Ltac good_ops :=
  repeat (apply List.Forall_cons;
          [first [exact I | by left | right; by left | by do 2 right]|]);
  apply List.Forall_nil.

Section status.
Context `{Package}.

Lemma open_handleTestRequest (h : Handler) (params : testParams.t) :
  triple statusOpen (handleTestRequest h params) statusOpen.
Proof.
  unfold handleTestRequest.
  destruct (negb (testParams.ver params =? SupportedProcolVersion)).
  { apply open_write. good_ops. }
  destruct (testParams.init params).
  { apply open_then_sent; [by left|]. repeat sent_step. }
  apply triple_bind; [|intros _].
  { apply open_write. rewrite setContentType_header. good_ops. }
  apply triple_bind; [apply open_write, goodOp_setHeaders|intros _].
  apply open_then_sent; [by left|]. repeat sent_step.
Qed.

Lemma open_handleBindPost (params : bindParams.t) (channel : ChannelPtr) :
  triple statusOpen (handleBindPost params channel) statusOpen.
Proof.
  unfold handleBindPost.
  destruct (parseIncomingMaps (bindParams.values params)) as [[offset maps] err].
  destruct err as [e|].
  { apply open_write. good_ops. }
  apply triple_bind; [apply open_quiet; unfold callReceiveMaps; repeat quiet_step|].
  intros [e|].
  - apply triple_bind; [apply open_quiet, quiet_deref|intros [l ch]].
    apply triple_bind; [apply open_quiet, quiet_emit|intros _].
    apply open_write. good_ops.
  - apply triple_bind; [apply open_quiet, quiet_deref|intros [l ch]].
    destruct (decide (state ch = channelInit)).
    + apply triple_bind; [apply open_write, goodOp_setHeaders|intros _].
      apply open_then_sent; [by left|]. repeat sent_step.
    + apply triple_bind;
        [apply open_quiet; unfold callGetState; repeat quiet_step|intros b].
      apply triple_bind; [apply open_write, goodOp_setHeaders|intros _].
      apply open_then_sent; [by left|]. repeat sent_step.
Qed.

Lemma open_handleBindGet (params : bindParams.t) (channel : ChannelPtr) :
  triple statusOpen (handleBindGet params channel) statusOpen.
Proof.
  unfold handleBindGet.
  destruct (decide (bindParams.qtype params = queryTerminate)).
  { apply open_quiet. unfold callTerminate. repeat quiet_step. }
  apply triple_bind; [|intros _].
  { apply open_write. rewrite setContentType_header. good_ops. }
  apply triple_bind; [apply open_write, goodOp_setHeaders|intros _].
  apply open_then_sent; [by left|]. repeat sent_step.
Qed.

Lemma open_acknowledgeAndDispatch (params : bindParams.t) (channel : ChannelPtr) :
  triple statusOpen (acknowledgeAndDispatch params channel) statusOpen.
Proof.
  unfold acknowledgeAndDispatch. apply triple_bind.
  - destruct (negb (bindParams.aid params =? -1)); [|apply triple_mret].
    apply open_quiet. unfold callAcknowledgeArrays. repeat quiet_step.
  - intros _. unfold dispatchMethod.
    destruct (String.eqb (bindParams.method params) "POST");
      [apply open_handleBindPost|].
    destruct (String.eqb (bindParams.method params) "GET");
      [apply open_handleBindGet|].
    apply open_write. good_ops.
Qed.

Lemma open_handleBindRequest (h : Handler) (params : bindParams.t) :
  triple statusOpen (handleBindRequest h params) statusOpen.
Proof.
  intros w Hw.
  destruct (decide (bindParams.sid params = nullSessionId)) as [Hsid|Hsid].
  - rewrite handleBindRequest_absent by done.
    apply open_acknowledgeAndDispatch.
    destruct (sessionCreated_sessions h (bindParams.cver params) w)
      as (_ & _ & Hrw).
    unfold statusOpen, statusSent in *. by rewrite Hrw.
  - destruct (channelMap.get (channels w) (bindParams.sid params))
      as [l|] eqn:Hget.
    + rewrite (handleBindRequest_get h params l) by done.
      by apply open_acknowledgeAndDispatch.
    + rewrite handleBindRequest_nil by done. simpl.
      assert (Hops : Forall goodOp
                (setHeaders headers ++ [WriteHeader 400; WriteString "Unknown SID"])).
      { apply Forall_app. split; [apply goodOp_setHeaders|].
        good_ops. }
      pose proof (statusOpen_applyRwOps w _ Hops Hw) as Hopen.
      by destruct w.
Qed.

(** The status that the response holds at the end of [ServeHTTP],
    whether the handler returns or panics. *)
Lemma ServeHTTP_status_written (h : Handler) (req : Request) (w : World) :
  wrote (rw w) = None →
  let code := statusCode (rw (ServeHTTP h req w).2) in
  if unrouted h req (parseBody (Body req)).2
  then code = 404
  else code = 200 ∨ code = 400 ∨ code = 500.
Proof.
  intros Hnone code. subst code. rewrite ServeHTTP_routes.
  assert (Hw1 : wrote (rw (afterOrigin h req w)) = None).
  { by destruct (afterOrigin_fields h req w)
      as (_ & _ & _ & _ & _ & _ & -> & _). }
  revert Hw1. generalize (afterOrigin h req w). intros w1 Hw1.
  assert (Hopen : statusOpen w1) by (by left).
  assert (Hfin : ∀ w' : World, statusOpen w' → routeStatus (statusCode (rw w'))).
  { intros w' [Hn|(c & hd & Hs & Hc)]; unfold statusCode.
    - rewrite Hn. by left.
    - by rewrite Hs. }
  unfold unrouted.
  destruct (parseBody (Body req)) as [values [e|]]; simpl.
  { apply Hfin, open_write; [good_ops|done]. }
  destruct (HasSuffix (Path req) (testPath h)); simpl;
    [by apply Hfin, open_handleTestRequest|].
  destruct (HasSuffix (Path req) (bindPath h)); simpl.
  2:{ destruct w1 as [[hd wr bd fl] chs hp tr rd rp en]. simpl in *.
      by subst wr. }
  destruct (parseBindParams req values) as [params [e|]].
  { apply Hfin, open_write; [good_ops|done]. }
  destruct params as [p|]; [by apply Hfin, open_handleBindRequest|].
  by apply Hfin.
Qed.

(** X8.  The statuses of the handler.  When [ServeHTTP] returns (it does
    not panic) on a response on which no status was written, the status
    the client receives is 404 exactly for the requests that are routed
    to no handler (the body parses, the path ends with neither the test
    path nor the bind path), and is else 200, 400 or 500, whatever the
    channel writes on a back channel. *)
Theorem ServeHTTP_status (h : Handler) (req : Request) (w w' : World) :
  wrote (rw w) = None →
  ServeHTTP h req w = (Returned tt, w') →
  let code := statusCode (rw w') in
  if unrouted h req (parseBody (Body req)).2
  then code = 404
  else code = 200 ∨ code = 400 ∨ code = 500.
Proof.
  intros Hnone Hrun. pose proof (ServeHTTP_status_written h req w Hnone) as Hs.
  by rewrite Hrun in Hs.
Qed.
End status.

(** ** Parameters *)

Lemma formatDigits_head (fuel : nat) (n : Z) (acc : string) :
  0 <= n →
  fuel ≠ 0%nat ∨ (∃ (c : ascii) (r : string), acc = String c r ∧ isDigit c = true) →
  ∃ (c : ascii) (r : string),
    formatDigits fuel n acc = String c r ∧ isDigit c = true.
Proof.
  revert n acc. induction fuel as [|fuel IH]; intros n acc Hn Hacc.
  - destruct Hacc as [Hfuel|Hacc]; [done|exact Hacc].
  - simpl formatDigits.
    assert (Hd : isDigit (digitChar (n mod 10)) = true).
    { apply digitChar_digit. apply Z.mod_pos_bound. lia. }
    destruct (n <? 10); [by eauto|].
    apply IH; [apply Z.div_pos; lia|]. right. by eauto.
Qed.

Lemma FormatInt_head (n : Z) :
  0 <= n → ∃ (c : ascii) (r : string), FormatInt n = String c r ∧ isDigit c = true.
Proof.
  intros Hn. unfold FormatInt.
  destruct (Z.ltb_spec n 0) as [Hneg|_]; [lia|].
  apply formatDigits_head; [done|by left].
Qed.

Lemma FormatInt_neg (n : Z) : n < 0 → FormatInt n = String "-" (FormatInt (- n)).
Proof.
  intros Hn. unfold FormatInt.
  destruct (Z.ltb_spec n 0) as [_|Hpos]; [|lia].
  destruct (Z.ltb_spec (- n) 0) as [Hneg|_]; [lia|]. done.
Qed.

Lemma digitVal_digit (c : ascii) : isDigit c = true → 0 <= digitVal c <= 9.
Proof.
  unfold isDigit, digitVal. rewrite andb_true_iff, !Nat.leb_le. lia.
Qed.

Lemma parseDigits_le (s : string) (n v : Z) :
  0 <= n → parseDigits n s = Some v → n <= v.
Proof.
  revert n. induction s as [|c s IH]; intros n Hn Hv; simpl in Hv.
  - injection Hv as <-. lia.
  - destruct (isDigit c) eqn:Hc; [|done].
    pose proof (digitVal_digit c Hc).
    apply IH in Hv; lia.
Qed.

(** On digits whose value is in the range, the loop of [ParseUint]
    returns that value. *)
Lemma parseUintFrom_value (s : string) (n v : Z) :
  0 <= n → parseDigits n s = Some v → v <= maxUint64 →
  parseUintFrom n s = uintValue v.
Proof.
  revert n. induction s as [|c s IH]; intros n Hn Hv Hmax; simpl in *.
  - by injection Hv as <-.
  - destruct (isDigit c) eqn:Hc; [|done]. simpl.
    pose proof (digitVal_digit c Hc) as Hd.
    assert (Hle : n * 10 + digitVal c <= v)
      by (apply (parseDigits_le s); [lia|done]).
    assert (Hcut : (maxUint64 / 10 + 1 <=? n) = false).
    { apply Z.leb_gt.
      assert (n <= maxUint64 / 10); [|lia].
      apply Z.div_le_lower_bound; lia. }
    rewrite Hcut.
    assert (Hfit : (maxUint64 <? n * 10 + digitVal c) = false)
      by (apply Z.ltb_ge; lia).
    rewrite Hfit. apply IH; [lia|done|done].
Qed.

Lemma Atoi_digit (c : ascii) (r : string) :
  isDigit c = true →
  Atoi (String c r)
  = match parseUintFrom 0 (String c r) with
    | uintSyntax => (0, Some errSyntax)
    | uintRange => (maxInt, Some errRange)
    | uintValue un =>
        if 2 ^ 63 <=? un then (maxInt, Some errRange) else (un, None)
    end.
Proof.
  destruct c as [[] [] [] [] [] [] [] []];
    first [by intros Hd; vm_compute in Hd | by intros _].
Qed.

Lemma Atoi_minus (c : ascii) (r : string) :
  Atoi (String "-" (String c r))
  = match parseUintFrom 0 (String c r) with
    | uintSyntax => (0, Some errSyntax)
    | uintRange => (minInt, Some errRange)
    | uintValue un =>
        if 2 ^ 63 <? un then (minInt, Some errRange) else (- un, None)
    end.
Proof. reflexivity. Qed.

Lemma Atoi_FormatInt (n : Z) : minInt <= n <= maxInt → Atoi (FormatInt n) = (n, None).
Proof.
  unfold minInt, maxInt. intros [Hmin Hmax].
  assert (Hpow : 2 ^ 64 = 2 * 2 ^ 63) by reflexivity.
  destruct (Z.lt_ge_cases n 0) as [Hneg|Hpos].
  - rewrite FormatInt_neg by done.
    destruct (FormatInt_head (- n)) as (c & r & Hs & Hd); [lia|].
    rewrite Hs, Atoi_minus, <- Hs.
    rewrite (parseUintFrom_value _ 0 (- n)); [|done| |].
    + destruct (Z.ltb_spec (2 ^ 63) (- n)); [lia|]. by rewrite Z.opp_involutive.
    + apply parseDigits_FormatInt. lia.
    + unfold maxUint64. lia.
  - destruct (FormatInt_head n) as (c & r & Hs & Hd); [lia|].
    rewrite Hs, Atoi_digit, <- Hs by done.
    rewrite (parseUintFrom_value _ 0 n); [|done| |].
    + by destruct (Z.leb_spec (2 ^ 63) n); [lia|].
    + by apply parseDigits_FormatInt.
    + unfold maxUint64. lia.
Qed.

(** X9.  The decimal form of an integer of the range of [int] is read
    back by [parseAid] and by [parseProtoVersion] as that integer, with
    no error; so the AID [-1] is read as -1, the value of an absent
    AID. *)
Theorem parse_int_round_trip (n : Z) :
  minInt <= n <= maxInt →
  parseAid (FormatInt n) = (n, None) ∧ parseProtoVersion (FormatInt n) = n.
Proof.
  intros Hn. unfold parseAid, parseProtoVersion.
  rewrite Atoi_FormatInt by done. split; [|done].
  assert (Hlen : len (FormatInt n) ≠ 0).
  { destruct (Z.lt_ge_cases n 0) as [Hneg|Hpos].
    - rewrite FormatInt_neg by done. unfold len. simpl. lia.
    - destruct (FormatInt_head n) as (c & r & -> & _); [done|].
      unfold len. simpl. lia. }
  apply Z.eqb_neq in Hlen. by rewrite Hlen.
Qed.

(** X10.  The names of the values of TYPE.  [parseQueryType] gives
    [queryHtml], [queryXmlHttp], [queryTerminate] and [queryTest] for the
    strings [html], [xmlhttp], [terminate] and [test], in lower case, and
    for no other string; the content type set for a TYPE is text/html
    for [html] and text/plain for every other string. *)
Theorem parseQueryType_names (s : string) :
  (parseQueryType s = queryHtml ↔ s = "html"%string)
  ∧ (parseQueryType s = queryXmlHttp ↔ s = "xmlhttp"%string)
  ∧ (parseQueryType s = queryTerminate ↔ s = "terminate"%string)
  ∧ (parseQueryType s = queryTest ↔ s = "test"%string)
  ∧ setContentType (parseQueryType s)
    = HeaderSet "Content-Type"
        (if String.eqb s "html" then "text/html" else "text/plain").
Proof.
  unfold parseQueryType.
  destruct (String.eqb_spec s "html") as [->|Hhtml]; [by repeat split|].
  destruct (String.eqb_spec s "xmlhttp") as [->|Hxml]; [by repeat split|].
  destruct (String.eqb_spec s "terminate") as [->|Hterm]; [by repeat split|].
  destruct (String.eqb_spec s "test") as [->|Htest]; by repeat split.
Qed.

(** X11.  The session map.  [get] returns the channel [set] has stored
    last under the session id, and nil once [del] has removed it; [del]
    reports an entry that [set] has stored (also a nil one); [set] and
    [del] of one session id do not change what [get] returns for
    another, nor does [set] change what [del] reports for another; and
    [del] forgets what [set] did. *)
Theorem channelMap_laws (m : gmap SessionId ChannelPtr) (sid sid' : SessionId)
    (channel : ChannelPtr) :
  channelMap.get (channelMap.set m sid channel) sid = channel
  ∧ (channelMap.del (channelMap.set m sid channel) sid).2 = true
  ∧ channelMap.get (channelMap.del m sid).1 sid = None
  ∧ (sid' ≠ sid →
       channelMap.get (channelMap.set m sid channel) sid' = channelMap.get m sid'
       ∧ channelMap.get (channelMap.del m sid).1 sid' = channelMap.get m sid'
       ∧ (channelMap.del (channelMap.set m sid channel) sid').2
         = (channelMap.del m sid').2)
  ∧ (channelMap.del m sid).1 = (channelMap.del (channelMap.set m sid channel) sid).1.
Proof.
  unfold channelMap.get, channelMap.set, channelMap.del. simpl.
  split; [by rewrite lookup_insert_eq|].
  split; [apply bool_decide_eq_true; by rewrite lookup_insert_eq|].
  split; [by rewrite lookup_delete_eq|].
  split; [|by rewrite delete_insert_eq].
  intros Hne. rewrite lookup_insert_ne, lookup_delete_ne by done. done.
Qed.

(** X12.  The choice of a prefix.  [getHostPrefix] returns the prefix at
    the index the random source draws, with one draw, so that every
    prefix of the list can be chosen. *)
Theorem getHostPrefix_reaches_every_prefix (info : crossDomainInfo.t) (w : World)
    (k : nat) (p : string) :
  crossDomainInfo.prefixes info !! k = Some p →
  rand w (randPos w) = k →
  getHostPrefix (Some info) w = (Returned p, setRandPos (S (randPos w)) w).
Proof.
  intros Hp Hk.
  assert (Hne : crossDomainInfo.prefixes info ≠ []).
  { intros Hnil. by rewrite Hnil in Hp. }
  destruct (getHostPrefix_some info w Hne) as (p' & _ & Hp' & ->).
  rewrite Hk, Nat.mod_small in Hp' by (by eapply lookup_lt_Some).
  by simplify_eq.
Qed.

Section parameters.
Context `{Package}.

(** X13.  The outcome of [parseBindParams]: the parameters without
    error, or an error without parameters, never both and never
    neither.  It gives parameters exactly when the SID parses and the
    AID is empty (read as -1) or an integer (read as itself); the error
    is the one of the SID if there is one, else the one of the AID. *)
Theorem parseBindParams_outcome (req : Request) (values : Values) :
  let sid := parseSessionId (Get (Form req) "SID") in
  let aid := Get (Form req) "AID" in
  match parseBindParams req values with
  | (Some params, None) =>
      sid = (bindParams.sid params, None)
      ∧ (if decide (aid = ""%string) then bindParams.aid params = -1
         else Atoi aid = (bindParams.aid params, None))
  | (None, Some e) =>
      sid.2 = Some e
      ∨ (sid.2 = None ∧ aid ≠ ""%string ∧ (Atoi aid).2 = Some e)
  | _ => False
  end.
Proof.
  intros sid aid. unfold parseBindParams. fold sid aid.
  destruct sid as [s [e|]]; [by left|].
  unfold parseAid. destruct (decide (aid = ""%string)) as [->|Hne].
  - done.
  - assert (Hlen : len aid ≠ 0).
    { unfold len. destruct aid; [done|simpl; lia]. }
    apply Z.eqb_neq in Hlen. rewrite Hlen.
    destruct (Atoi aid) as [a [e|]]; [right|]; done.
Qed.
End parameters.

(** ** The path of a request *)

Lemma append_cons (c : ascii) (s t : string) :
  String c s +:+ t = String c (s +:+ t).
Proof. reflexivity. Qed.

Lemma length_app (s t : string) :
  String.length (s +:+ t) = (String.length s + String.length t)%nat.
Proof.
  induction s as [|c s IH]; [done|].
  rewrite append_cons. simpl. by rewrite IH.
Qed.

Lemma substring_all (s : string) : substring 0 (String.length s) s = s.
Proof. induction s as [|c s IH]; [done|]. simpl. by rewrite IH. Qed.

Lemma substring_suffix (pre suf : string) :
  substring (String.length pre) (String.length suf) (pre +:+ suf) = suf.
Proof.
  induction pre as [|c pre IH]; [apply substring_all|].
  rewrite append_cons. exact IH.
Qed.

Lemma substring_split (s : string) (n : nat) :
  (n ≤ String.length s)%nat →
  s = substring 0 n s +:+ substring n (String.length s - n) s.
Proof.
  revert n. induction s as [|c s IH]; intros n Hn.
  - simpl in Hn. by replace n with 0%nat by lia.
  - destruct n as [|n].
    + change (substring 0 0 (String c s)) with EmptyString.
      rewrite Nat.sub_0_r, substring_all. done.
    + simpl in Hn. simpl substring. rewrite append_cons.
      f_equal. apply IH. lia.
Qed.

(** [strings.HasSuffix] holds of the strings that end with the suffix. *)
Lemma HasSuffix_spec (s suffix : string) :
  HasSuffix s suffix = true ↔ ∃ pre : string, s = pre +:+ suffix.
Proof.
  unfold HasSuffix. rewrite andb_true_iff, Nat.leb_le, String.eqb_eq. split.
  - intros [Hle Hsub]. exists (substring 0 (String.length s - String.length suffix) s).
    pose proof (substring_split s (String.length s - String.length suffix))
      as Hsplit.
    replace (String.length s - (String.length s - String.length suffix))%nat
      with (String.length suffix) in Hsplit by lia.
    rewrite Hsub in Hsplit. apply Hsplit. lia.
  - intros [pre ->]. rewrite length_app. split; [lia|].
    replace (String.length pre + String.length suffix - String.length suffix)%nat
      with (String.length pre) by lia.
    apply substring_suffix.
Qed.

Section routing.
Context `{Package}.

(** X14.  The routes of the handler.  Once the body of the request
    parses, a path that ends with the test path goes to the test handler,
    also when it ends with the bind path as well; another path that ends
    with the bind path goes to the bind handler when its parameters
    parse and is answered 400 when they do not; any other path is
    answered 404. *)
Theorem routing_by_path_suffix (h : Handler) (req : Request) (w : World)
    (values : Values) :
  parseBody (Body req) = (values, None) →
  let endsWith := λ suffix : string, ∃ pre : string, Path req = pre +:+ suffix in
  let w1 := afterOrigin h req w in
  (endsWith (testPath h) →
     ServeHTTP h req w = handleTestRequest h (parseTestParams req) w1)
  ∧ (¬ endsWith (testPath h) → endsWith (bindPath h) →
       ServeHTTP h req w
       = match parseBindParams req values with
         | (Some params, None) => handleBindRequest h params w1
         | _ => write [WriteHeader 400] w1
         end)
  ∧ (¬ endsWith (testPath h) → ¬ endsWith (bindPath h) →
       ServeHTTP h req w = write [WriteHeader 404] w1).
Proof.
  intros Hbody endsWith w1. subst endsWith w1.
  rewrite ServeHTTP_routes, Hbody.
  split; [|split].
  - intros Htest. apply HasSuffix_spec in Htest. by rewrite Htest.
  - intros Htest Hbind. apply HasSuffix_spec in Hbind.
    rewrite <- HasSuffix_spec in Htest. apply not_true_is_false in Htest.
    rewrite Htest, Hbind.
    by destruct (parseBindParams_result req values) as [[p ->]|[e ->]].
  - intros Htest Hbind. rewrite <- HasSuffix_spec in Htest, Hbind.
    apply not_true_is_false in Htest, Hbind. by rewrite Htest, Hbind.
Qed.
End routing.

(** ** Requests one after the other *)

Section sequences.
Context `{Package}.

(** X15.  A request that is routed to no handler (its body parses, its
    path ends with neither the test path nor the bind path) is answered
    404 with no body and has no other effect: no event, the session map,
    the Channel objects, the random source and the entropy are what they
    were. *)
Theorem unrouted_request_not_found (h : Handler) (req : Request) (w : World)
    (values : Values) :
  unwritten (rw w) →
  parseBody (Body req) = (values, None) →
  HasSuffix (Path req) (testPath h) = false →
  HasSuffix (Path req) (bindPath h) = false →
  rejects 404 (ServeHTTP h req w) w
  ∧ rand (ServeHTTP h req w).2 = rand w
  ∧ randPos (ServeHTTP h req w).2 = randPos w
  ∧ entropy (ServeHTTP h req w).2 = entropy w.
Proof.
  intros Hun Hbody Htest Hbind.
  rewrite ServeHTTP_routes, Hbody, Htest, Hbind.
  destruct (afterOrigin_fields h req w)
    as (Hc & Hh & Ht & Hr & Hp & He & Hw & Hb).
  split.
  - apply write_status_rejects; try done.
    destruct Hun as [Hun1 Hun2]. split; congruence.
  - by destruct (afterOrigin h req w).
Qed.

(** The world after a bind request without session id. *)
Lemma handleBindRequest_new_session (h : Handler) (params : bindParams.t)
    (w : World) :
  bindParams.sid params = nullSessionId →
  heap w !! newLoc (heap w) = None
  ∧ channels (handleBindRequest h params w).2
    = <[(generateSesionId (entropy w)).1.1 := Some (newLoc (heap w))]> (channels w)
  ∧ is_Some (heap (handleBindRequest h params w).2 !! newLoc (heap w))
  ∧ ∀ l' : loc, l' ≠ newLoc (heap w) →
      heap (handleBindRequest h params w).2 !! l' = heap w !! l'.
Proof.
  intros Hsid. rewrite handleBindRequest_absent by done.
  destruct (sessionCreated_sessions h (bindParams.cver params) w)
    as (Hc & Hh & _).
  set (l := newLoc (heap w)) in *.
  set (w0 := sessionCreated h (bindParams.cver params) w) in *.
  assert (Hothers : sameOthers l w0 (acknowledgeAndDispatch params (Some l) w0).2).
  { apply (relates_acknowledgeAndDispatch (R := sameOthers l) (Some l)).
    intros l' ch [= <-]. apply sameOthers_store. }
  assert (Hgrows : grows w0 (acknowledgeAndDispatch params (Some l) w0).2).
  { apply (relates_acknowledgeAndDispatch (R := grows) (Some l)).
    intros l' ch _. apply grows_store. }
  destruct Hothers as [Hc' Hh']. destruct Hgrows as [Hlive _].
  split; [apply fresh_loc_unused|].
  split; [by rewrite Hc', Hc|].
  split.
  - apply Hlive. rewrite Hh. by rewrite lookup_insert_eq.
  - intros l' Hne. rewrite Hh' by done. rewrite Hh. by rewrite lookup_insert_ne.
Qed.

(** X16.  A bind request without session id adds one entry to the
    session map and one Channel object, and changes nothing else of the
    sessions: at the end of the request the map is the old one with the
    generated session id set to the new object (an entry the map had
    under that id is replaced, and the error of the generator is not
    looked at), the new object is there at an address that was unused,
    and every other Channel object is what it was. *)
Theorem new_session_adds_one_entry (h : Handler) (params : bindParams.t)
    (w : World) :
  bindParams.sid params = nullSessionId →
  let l := newLoc (heap w) in
  let sid := (generateSesionId (entropy w)).1.1 in
  let w' := (handleBindRequest h params w).2 in
  heap w !! l = None
  ∧ channels w' = <[sid := Some l]> (channels w)
  ∧ is_Some (heap w' !! l)
  ∧ ∀ l' : loc, l' ≠ l → heap w' !! l' = heap w !! l'.
Proof. intros Hsid. by apply handleBindRequest_new_session. Qed.

(** X17.  The session a request has created is the session of the
    next request that names it: after a bind request without session id,
    a bind request with the generated session id (when that id is not
    the null one) is served on the Channel object the first request has
    made, which is still there, and returns. *)
Theorem new_session_is_found (h : Handler) (params params' : bindParams.t)
    (w : World) :
  bindParams.sid params = nullSessionId →
  let sid := (generateSesionId (entropy w)).1.1 in
  let w' := (handleBindRequest h params w).2 in
  sid ≠ nullSessionId →
  bindParams.sid params' = sid →
  handleBindRequest h params' w'
  = acknowledgeAndDispatch params' (Some (newLoc (heap w))) w'
  ∧ is_Some (heap w' !! newLoc (heap w))
  ∧ ∃ w'' : World, handleBindRequest h params' w' = (Returned tt, w'').
Proof.
  intros Hsid sid w' Hnull Hsid'.
  destruct (handleBindRequest_new_session h params w Hsid)
    as (_ & Hc & Hlive & _).
  fold w' sid in Hc, Hlive.
  assert (Hrun : handleBindRequest h params' w'
                 = acknowledgeAndDispatch params' (Some (newLoc (heap w))) w').
  { apply handleBindRequest_found; [by rewrite Hsid'|].
    by rewrite Hc, Hsid', lookup_insert_eq. }
  split; [done|]. split; [done|]. rewrite Hrun.
  destruct (returnsLive_acknowledgeAndDispatch (newLoc (heap w)) params' w' Hlive)
    as ([] & w'' & Hret & _).
  by exists w''.
Qed.

Lemma removeClosedSession_rw (gcChan : list SessionId) (w : World) :
  rw (removeClosedSession gcChan w).2 = rw w.
Proof.
  revert w. induction gcChan as [|sid rest IH]; intros w; [done|].
  rewrite removeClosedSession_turn, IH. by destruct w.
Qed.

(** X18.  The session ids are removed one after the other: removing the
    ids of two lists in one go is removing those of the first, then
    those of the second.  The removal writes nothing on the response,
    leaves the Channel objects alone, and keeps the session map free of
    pointers to missing objects. *)
Theorem removeClosedSession_batches (gc1 gc2 : list SessionId) (w : World) :
  removeClosedSession (gc1 ++ gc2) w
  = removeClosedSession gc2 (removeClosedSession gc1 w).2
  ∧ rw (removeClosedSession gc1 w).2 = rw w
  ∧ heap (removeClosedSession gc1 w).2 = heap w
  ∧ (wellFormed w → wellFormed (removeClosedSession gc1 w).2).
Proof.
  split; [|split; [apply removeClosedSession_rw|]].
  - revert w. induction gc1 as [|sid rest IH]; intros w; [done|].
    change ((sid :: rest) ++ gc2) with (sid :: (rest ++ gc2)).
    by rewrite !removeClosedSession_turn, IH.
  - destruct (removeClosedSession_spec gc1 w)
      as (w' & evs & -> & _ & Hh & Hin & Hout & _).
    split; [done|]. intros Hwf sid l Hl. simpl in *. rewrite Hh.
    destruct (decide (sid ∈ gc1)) as [Hs|Hs].
    + by rewrite (Hin sid Hs) in Hl.
    + rewrite (Hout sid Hs) in Hl. by eapply Hwf.
Qed.

(** X19.  A session that is removed is unknown to the next request:
    once [removeClosedSession] has received a session id, a bind request
    with that id is answered 400 with the body [Unknown SID], and changes
    neither the session map nor any Channel object. *)
Theorem removed_session_is_unknown (h : Handler) (params : bindParams.t)
    (gcChan : list SessionId) (w : World) :
  bindParams.sid params ≠ nullSessionId →
  bindParams.sid params ∈ gcChan →
  unwritten (rw w) →
  let w1 := (removeClosedSession gcChan w).2 in
  ∃ w' : World,
    handleBindRequest h params w1 = (Returned tt, w')
    ∧ statusCode (rw w') = 400
    ∧ body (rw w') = "Unknown SID"%string
    ∧ channels w' = channels w1
    ∧ heap w' = heap w.
Proof.
  intros Hsid Hin Hun w1.
  pose proof (removeClosedSession_rw gcChan w) as Hrw. fold w1 in Hrw.
  destruct (removeClosedSession_spec gcChan w)
    as (w2 & evs & Hrun & _ & Hh & Hgone & _).
  assert (Hw1 : w1 = w2) by (subst w1; by rewrite Hrun). subst w2.
  rewrite handleBindRequest_unknown by auto.
  rewrite <- Hh. clear Hrun Hgone Hh.
  destruct Hun as [Hw Hb]. rewrite <- Hrw in Hw, Hb.
  destruct w1 as [[hd wr bd fl] chs hp tr rd rp en]. simpl in *. subst wr bd.
  eexists. split; [reflexivity|]. done.
Qed.

(** X20.  The handler [NewHandler] makes.  It serves the paths that end
    with [bind] and [test], allows no origin (no cross domain header is
    set for any request), has the empty host prefix, and never panics
    when every pointer of the session map designates a Channel
    object. *)
Theorem NewHandler_defaults (req : Request) (w : World) :
  wellFormed w →
  bindPath NewHandler = "bind"%string
  ∧ testPath NewHandler = "test"%string
  ∧ afterOrigin NewHandler req w = w
  ∧ (∃ w' : World, ServeHTTP NewHandler req w = (Returned tt, w'))
  ∧ ∀ w0 : World, getHostPrefix (corsInfo NewHandler) w0 = (Returned ""%string, w0).
Proof.
  intros Hwf. split; [done|]. split; [done|].
  assert (Horigin : afterOrigin NewHandler req w = w).
  { unfold afterOrigin, originAllowed. simpl. by rewrite andb_false_r. }
  split; [done|]. split; [|done].
  rewrite ServeHTTP_routes, Horigin.
  destruct (parseBody (Body req)) as [values [e|]]; [by eexists|].
  destruct (HasSuffix (Path req) (testPath NewHandler)).
  { destruct (handleTestRequest NewHandler (parseTestParams req) w)
      as [[[]|msg] w'] eqn:Hrun; [by eexists|].
    assert (Hp : ∃ (msg : string) (w' : World),
               handleTestRequest NewHandler (parseTestParams req) w
               = (Panicked msg, w')) by eauto.
    apply handleTestRequest_panics in Hp as (_ & _ & info & Hinfo & _).
    done. }
  destruct (HasSuffix (Path req) (bindPath NewHandler)); [|by eexists].
  destruct (parseBindParams_result req values) as [[p ->]|[e ->]];
    [|by eexists].
  by apply handleBindRequest_returns.
Qed.
End sequences.

(** ** The properties of the whole handler on the scenarios *)

Section more_scenarios.
Import Scenario.
#[local] Existing Instance SpecModel.package.

Lemma wellFormed_emptyWorld : wellFormed emptyWorld.
Proof. intros sid l Hl. simpl in Hl. by rewrite lookup_empty in Hl. Defined.

Lemma wellFormed_sessionWorld : wellFormed sessionWorld.
Proof.
  intros sid l Hl. simpl in Hl.
  apply lookup_singleton_Some in Hl as [_ [= <-]].
  exists channelA. vm_compute. reflexivity.
Defined.

Lemma test_request_leaves_sessions_witness :
  parseBody (Body (testRequest "8" "")) = (valuesOf "", None)
  ∧ HasSuffix (Path (testRequest "8" "")) (testPath NewHandler) = true
  ∧ channels (ServeHTTP NewHandler (testRequest "8" "") sessionWorld).2
    = channels sessionWorld
  ∧ heap (ServeHTTP NewHandler (testRequest "8" "") sessionWorld).2
    = heap sessionWorld.
Proof.
  assert (H1 : parseBody (Body (testRequest "8" "")) = (valuesOf "", None))
    by (vm_compute; reflexivity).
  assert (H2 : HasSuffix (Path (testRequest "8" "")) (testPath NewHandler) = true)
    by (vm_compute; reflexivity).
  split; [exact H1|]. split; [exact H2|].
  destruct (test_request_leaves_sessions NewHandler (testRequest "8" "")
              sessionWorld (valuesOf "") H1 H2) as (Hc & Hh & _).
  split; [exact Hc|exact Hh].
Defined.

Lemma test_request_two_phases_witness :
  testParams.ver (parseTestParams (testRequest "8" "")) = SupportedProcolVersion
  ∧ testParams.init (parseTestParams (testRequest "8" "")) = false
  ∧ ∃ w' : World,
      handleTestRequest NewHandler (parseTestParams (testRequest "8" ""))
        emptyWorld = (Returned tt, w').
Proof.
  assert (H1 : testParams.ver (parseTestParams (testRequest "8" ""))
               = SupportedProcolVersion) by (vm_compute; reflexivity).
  assert (H2 : testParams.init (parseTestParams (testRequest "8" "")) = false)
    by (vm_compute; reflexivity).
  split; [exact H1|]. split; [exact H2|].
  pose proof (test_request_two_phases NewHandler
                (parseTestParams (testRequest "8" "")) emptyWorld H1 H2) as Hx.
  cbv zeta in Hx. destruct Hx as [Hrun _].
  eexists. exact Hrun.
Defined.

Lemma unrouted_request_not_found_witness :
  let req := {| Method := "GET"; Path := "/favicon.ico"; Origin := "";
                Body := ""; Form := ∅ |} in
  unwritten (rw sessionWorld)
  ∧ parseBody (Body req) = (valuesOf "", None)
  ∧ HasSuffix (Path req) (testPath NewHandler) = false
  ∧ HasSuffix (Path req) (bindPath NewHandler) = false
  ∧ rejects 404 (ServeHTTP NewHandler req sessionWorld) sessionWorld.
Proof.
  intros req.
  assert (H0 : unwritten (rw sessionWorld)) by (split; reflexivity).
  assert (H1 : parseBody (Body req) = (valuesOf "", None))
    by (vm_compute; reflexivity).
  assert (H2 : HasSuffix (Path req) (testPath NewHandler) = false)
    by (vm_compute; reflexivity).
  assert (H3 : HasSuffix (Path req) (bindPath NewHandler) = false)
    by (vm_compute; reflexivity).
  split; [exact H0|]. split; [exact H1|]. split; [exact H2|].
  split; [exact H3|].
  exact (proj1 (unrouted_request_not_found NewHandler req sessionWorld
                  (valuesOf "") H0 H1 H2 H3)).
Defined.

Lemma bind_request_touches_one_channel_witness :
  bindParams.sid paramsMap ≠ nullSessionId
  ∧ channels sessionWorld !! bindParams.sid paramsMap = Some (Some 1%positive)
  ∧ channels (handleBindRequest NewHandler paramsMap sessionWorld).2
    = channels sessionWorld.
Proof.
  assert (H1 : bindParams.sid paramsMap ≠ nullSessionId) by done.
  assert (H2 : channels sessionWorld !! bindParams.sid paramsMap
               = Some (Some 1%positive)) by (vm_compute; reflexivity).
  split; [exact H1|]. split; [exact H2|].
  exact (proj1 (bind_request_touches_one_channel NewHandler paramsMap
                  1%positive sessionWorld H1 H2)).
Defined.

Lemma new_session_adds_one_entry_witness :
  bindParams.sid paramsNew = nullSessionId
  ∧ heap emptyWorld !! newLoc (heap emptyWorld) = None
  ∧ channels (handleBindRequest NewHandler paramsNew emptyWorld).2
    = <[(generateSesionId (entropy emptyWorld)).1.1
        := Some (newLoc (heap emptyWorld))]> (channels emptyWorld).
Proof.
  split; [reflexivity|].
  pose proof (new_session_adds_one_entry NewHandler paramsNew emptyWorld eq_refl)
    as Hx.
  cbv zeta in Hx. destruct Hx as (Hfresh & Hc & _).
  split; [exact Hfresh|exact Hc].
Defined.

Lemma new_session_is_found_witness :
  bindParams.sid paramsNew = nullSessionId
  ∧ (generateSesionId (entropy emptyWorld)).1.1 ≠ nullSessionId
  ∧ bindParams.sid paramsMap = (generateSesionId (entropy emptyWorld)).1.1
  ∧ ∃ w'' : World,
      handleBindRequest NewHandler paramsMap
        (handleBindRequest NewHandler paramsNew emptyWorld).2
      = (Returned tt, w'').
Proof.
  assert (H1 : (generateSesionId (entropy emptyWorld)).1.1 ≠ nullSessionId)
    by (vm_compute; discriminate).
  assert (H2 : bindParams.sid paramsMap
               = (generateSesionId (entropy emptyWorld)).1.1)
    by (vm_compute; reflexivity).
  split; [reflexivity|]. split; [exact H1|]. split; [exact H2|].
  pose proof (new_session_is_found NewHandler paramsNew paramsMap emptyWorld
                eq_refl) as Hx.
  cbv zeta in Hx. destruct (Hx H1 H2) as (_ & _ & Hret). exact Hret.
Defined.

Lemma ServeHTTP_keeps_sessions_live_witness :
  wellFormed sessionWorld
  ∧ wellFormed (ServeHTTP NewHandler requestGet sessionWorld).2.
Proof.
  split; [exact wellFormed_sessionWorld|].
  exact (proj1 (ServeHTTP_keeps_sessions_live NewHandler requestGet
                  sessionWorld wellFormed_sessionWorld)).
Defined.

Lemma session_map_changes_only_for_new_session_witness :
  let req := request "POST" [("VER", "8"); ("zx", "zx1")]%string "count=0&ofs=0" in
  channels (ServeHTTP NewHandler req emptyWorld).2 ≠ channels emptyWorld
  ∧ ∃ (values : Values) (params : bindParams.t),
      parseBindParams req values = (Some params, None)
      ∧ bindParams.sid params = nullSessionId.
Proof.
  intros req.
  assert (H1 : channels (ServeHTTP NewHandler req emptyWorld).2
               ≠ channels emptyWorld).
  { intros Heq. apply (f_equal (λ m, m !! sidA)) in Heq.
    vm_compute in Heq. discriminate Heq. }
  split; [exact H1|].
  destruct (session_map_changes_only_for_new_session NewHandler req emptyWorld H1)
    as (values & params & _ & _ & _ & Hparams & Hsid & _).
  exists values, params. split; [exact Hparams|exact Hsid].
Defined.

Lemma ServeHTTP_panics_only_on_empty_prefixes_witness :
  wellFormed emptyWorld
  ∧ ∃ (msg : string) (w' : World),
      ServeHTTP (corsHandler []) (testRequest "8" "init") emptyWorld
      = (Panicked msg, w').
Proof.
  split; [exact wellFormed_emptyWorld|].
  apply (ServeHTTP_panics_only_on_empty_prefixes (corsHandler [])
           (testRequest "8" "init") emptyWorld wellFormed_emptyWorld).
  split; [vm_compute; reflexivity|]. split; [vm_compute; reflexivity|].
  split; [vm_compute; reflexivity|]. split; [vm_compute; reflexivity|].
  eexists. split; reflexivity.
Defined.

Lemma ServeHTTP_status_witness :
  let w' := (ServeHTTP NewHandler requestBadMaps sessionWorld).2 in
  wrote (rw sessionWorld) = None
  ∧ ServeHTTP NewHandler requestBadMaps sessionWorld = (Returned tt, w')
  ∧ (let code := statusCode (rw w') in
     if unrouted NewHandler requestBadMaps (parseBody (Body requestBadMaps)).2
     then code = 404
     else code = 200 ∨ code = 400 ∨ code = 500).
Proof.
  intros w'.
  assert (H1 : ServeHTTP NewHandler requestBadMaps sessionWorld
               = (Returned tt, w')) by (vm_compute; reflexivity).
  split; [reflexivity|]. split; [exact H1|].
  exact (ServeHTTP_status NewHandler requestBadMaps sessionWorld w' eq_refl H1).
Defined.

Lemma parse_int_round_trip_witness :
  minInt <= -1 <= maxInt
  ∧ parseAid (FormatInt (-1)) = (-1, None)
  ∧ parseProtoVersion (FormatInt (-1)) = -1.
Proof.
  assert (H1 : minInt <= -1 <= maxInt) by (split; by vm_compute).
  split; [exact H1|]. exact (parse_int_round_trip (-1) H1).
Defined.

Lemma getHostPrefix_reaches_every_prefix_witness :
  let info := crossDomainInfo.mk (makeOriginMatcher "http://example.com")
                "http://example.com" ["a"; "b"]%string in
  let w := setRandPos 1 emptyWorld in
  crossDomainInfo.prefixes info !! 1%nat = Some "b"%string
  ∧ rand w (randPos w) = 1%nat
  ∧ getHostPrefix (Some info) w = (Returned "b"%string, setRandPos 2 emptyWorld).
Proof.
  intros info w. split; [reflexivity|]. split; [reflexivity|].
  exact (getHostPrefix_reaches_every_prefix info w 1 "b" eq_refl eq_refl).
Defined.

Lemma removed_session_is_unknown_witness :
  bindParams.sid paramsMap ≠ nullSessionId
  ∧ bindParams.sid paramsMap ∈ [sidA]
  ∧ unwritten (rw sessionWorld)
  ∧ ∃ w' : World,
      handleBindRequest NewHandler paramsMap
        (removeClosedSession [sidA] sessionWorld).2 = (Returned tt, w')
      ∧ statusCode (rw w') = 400
      ∧ body (rw w') = "Unknown SID"%string.
Proof.
  assert (H1 : bindParams.sid paramsMap ≠ nullSessionId) by done.
  assert (H2 : bindParams.sid paramsMap ∈ [sidA])
    by (apply elem_of_cons; by left).
  assert (H3 : unwritten (rw sessionWorld)) by (split; reflexivity).
  split; [exact H1|]. split; [exact H2|]. split; [exact H3|].
  pose proof (removed_session_is_unknown NewHandler paramsMap [sidA]
                sessionWorld H1 H2 H3) as Hx.
  cbv zeta in Hx. destruct Hx as (w' & Hrun & Hstatus & Hbody & _).
  exists w'. split; [exact Hrun|]. split; [exact Hstatus|exact Hbody].
Defined.

Lemma NewHandler_defaults_witness :
  wellFormed sessionWorld
  ∧ ∃ w' : World, ServeHTTP NewHandler requestGet sessionWorld = (Returned tt, w').
Proof.
  split; [exact wellFormed_sessionWorld|].
  destruct (NewHandler_defaults requestGet sessionWorld wellFormed_sessionWorld)
    as (_ & _ & _ & Hret & _).
  exact Hret.
Defined.

Lemma routing_by_path_suffix_witness :
  parseBody (Body (testRequest "8" "init")) = (valuesOf "", None)
  ∧ (∃ pre : string,
       Path (testRequest "8" "init") = pre +:+ testPath NewHandler)
  ∧ ServeHTTP NewHandler (testRequest "8" "init") emptyWorld
    = handleTestRequest NewHandler (parseTestParams (testRequest "8" "init"))
        (afterOrigin NewHandler (testRequest "8" "init") emptyWorld).
Proof.
  assert (H1 : parseBody (Body (testRequest "8" "init")) = (valuesOf "", None))
    by (vm_compute; reflexivity).
  assert (H2 : ∃ pre : string,
             Path (testRequest "8" "init") = pre +:+ testPath NewHandler)
    by (exists "/channel/"%string; reflexivity).
  split; [exact H1|]. split; [exact H2|].
  pose proof (routing_by_path_suffix NewHandler (testRequest "8" "init")
                emptyWorld (valuesOf "") H1) as Hx.
  cbv zeta in Hx. destruct Hx as [Htest _]. exact (Htest H2).
Defined.
End more_scenarios.
